(** * CHIP-8 emulator core: a shallow embedding of [chip8/emulator.py]

    The file follows the source top-down: constants, the exception and
    signal types, the collaborators [Memory] and [VideoMemory], the
    [Emulator] object, then [decrement_timers] and [run_once].

    Python integers are unbounded, so registers are modelled as [Z] and
    every wrap-around the source performs is written out.  A method call
    mutates the object and may raise after having mutated it: methods are
    functions from the object to a [Result] that records the object as the
    call left it, the signals emitted, and how the call ended. *)

From Stdlib Require Import ZArith Lia Bool List.
From Stdlib Require Import Strings.Byte.
From stdpp Require Import base list.
Import ListNotations.

Local Open Scope Z_scope.

(** ** Constants (emulator.py, lines 26-28) *)

Definition PROGRAM_COUNTER_START : Z := 512.
Definition STACK_POINTER_START : Z := 82.
Definition TIMER_INTERVAL : Z := 16.

(** ** Exceptions and signals *)

(** [UnimplementedInstruction] is the class of lines 31-37; the others are
    the exceptions the operations used by [run_once] can raise. *)
Inductive exn : Type :=
| OutOfBounds
| ValueError
| OverflowError
| TypeError
| IndexError
| UnimplementedInstruction (instruction address : Z).

(** What a call sends to the outside: the two Qt signals of the class,
    the display-changed event of the framebuffer, and the pause action of
    the parent window. *)
Inductive event : Type :=
| video_changed
| display_changed
| emulation_error (e : exn)
| actionPause_setChecked (b : bool).

(** ** Bytes *)

Definition byte_to_Z (b : byte) : Z := Z.of_N (Byte.to_N b).

(** A Python integer stored into a byte cell: only [range(256)] fits. *)
Definition byte_of_Z (z : Z) : option byte :=
  if 0 <=? z then Byte.of_N (Z.to_N z) else None.

(** [int.from_bytes(bs, byteorder="big")] *)
Definition from_bytes (bs : list byte) : Z :=
  fold_left (fun acc b => acc * 256 + byte_to_Z b) bs 0.

(** [int.to_bytes(z, 2, byteorder="big")]; fails outside [0, 65536). *)
Definition to_bytes2 (z : Z) : option (list byte) :=
  if (0 <=? z) && (z <? 65536) then
    match byte_of_Z (z / 256), byte_of_Z (z mod 256) with
    | Some hi, Some lo => Some [hi; lo]
    | _, _ => None
    end
  else None.

(** ** Memory *)

(** Modelled from the spec: the class [Memory] of [chip8/memory.py] is not
    among the sources.  The spec gives it as a byte array that is never
    resized, with indexed get and set of single bytes and of contiguous
    byte ranges, each failing with OutOfBounds when the requested span
    exceeds the store, and never applied in part. *)
Abbreviation Memory := (list byte).

Definition in_span (m : Memory) (start len : Z) : bool :=
  (0 <=? start) && (0 <=? len) && (start + len <=? Z.of_nat (length m)).

(** [memory[a]] *)
Definition mem_get (m : Memory) (a : Z) : option byte :=
  if in_span m a 1 then m !! Z.to_nat a else None.

(** [memory[a] = b] *)
Definition mem_set (m : Memory) (a : Z) (b : byte) : option Memory :=
  if in_span m a 1 then Some (<[Z.to_nat a := b]> m) else None.

(** [memory[a:a+n]] *)
Definition mem_get_range (m : Memory) (a n : Z) : option (list byte) :=
  if in_span m a n then Some (take (Z.to_nat n) (drop (Z.to_nat a) m)) else None.

(** [memory[a:a+len(bs)] = bs] *)
Definition mem_set_range (m : Memory) (a : Z) (bs : list byte) : option Memory :=
  if in_span m a (Z.of_nat (length bs)) then
    Some (take (Z.to_nat a) m ++ bs ++ drop (Z.to_nat a + length bs) m)
  else None.

(** ** Framebuffer *)

(** Modelled from the spec: the class [VideoMemory] of [chip8/display.py]
    is not among the sources.  The spec gives it as a fixed-size
    monochrome pixel grid with a clear operation and a sprite XOR blit
    whose coordinates wrap, most significant bit first, reporting whether
    a pixel went from set to unset; both raise a display-changed event. *)
Record VideoMemory : Type := mkVideo {
  width : Z;
  height : Z;
  pixels : list bool            (* row-major, [width * height] cells *)
}.

Definition video_reset (vm : VideoMemory) : VideoMemory :=
  mkVideo (width vm) (height vm) (replicate (length (pixels vm)) false).

Definition pixel_index (vm : VideoMemory) (x y : Z) : nat :=
  Z.to_nat ((y mod height vm) * width vm + (x mod width vm)).

(** One sprite bit XORed into one pixel; the flag accumulates collisions. *)
Definition xor_pixel (x y : Z) (bit : bool) (acc : VideoMemory * bool)
  : VideoMemory * bool :=
  let (vm, hit) := acc in
  let i := pixel_index vm x y in
  let old := default false (pixels vm !! i) in
  (mkVideo (width vm) (height vm) (<[i := xorb old bit]> (pixels vm)),
   hit || (old && bit)).

Definition draw_row (x y : Z) (b : byte) (acc : VideoMemory * bool)
  : VideoMemory * bool :=
  fold_left
    (fun acc col => xor_pixel (x + col) y (Z.testbit (byte_to_Z b) (7 - col)) acc)
    (map Z.of_nat (seq 0 8)) acc.

Fixpoint draw_rows (x y : Z) (sprite : list byte) (acc : VideoMemory * bool)
  : VideoMemory * bool :=
  match sprite with
  | [] => acc
  | b :: rest => draw_rows x (y + 1) rest (draw_row x y b acc)
  end.

Definition draw_sprite (vm : VideoMemory) (x y : Z) (sprite : list byte)
  : VideoMemory * bool :=
  draw_rows x y sprite (vm, false).

(** ** The emulator object (emulator.py, lines 49-60) *)

Record Emulator : Type := mkEmulator {
  v : list Z;
  program_counter : Z;
  index_register : Z;
  stack_pointer : Z;
  delay_timer : Z;
  sound_timer : Z;
  waiting_for_keypress : bool;
  keypress_target : option Z;       (* [None] until the first FX0A *)
  memory : Memory;
  video_memory : VideoMemory
}.

Definition set_v (x : list Z) (e : Emulator) : Emulator :=
  mkEmulator x (program_counter e) (index_register e) (stack_pointer e)
    (delay_timer e) (sound_timer e) (waiting_for_keypress e)
    (keypress_target e) (memory e) (video_memory e).

Definition set_program_counter (x : Z) (e : Emulator) : Emulator :=
  mkEmulator (v e) x (index_register e) (stack_pointer e)
    (delay_timer e) (sound_timer e) (waiting_for_keypress e)
    (keypress_target e) (memory e) (video_memory e).

Definition set_index_register (x : Z) (e : Emulator) : Emulator :=
  mkEmulator (v e) (program_counter e) x (stack_pointer e)
    (delay_timer e) (sound_timer e) (waiting_for_keypress e)
    (keypress_target e) (memory e) (video_memory e).

Definition set_stack_pointer (x : Z) (e : Emulator) : Emulator :=
  mkEmulator (v e) (program_counter e) (index_register e) x
    (delay_timer e) (sound_timer e) (waiting_for_keypress e)
    (keypress_target e) (memory e) (video_memory e).

Definition set_delay_timer (x : Z) (e : Emulator) : Emulator :=
  mkEmulator (v e) (program_counter e) (index_register e) (stack_pointer e)
    x (sound_timer e) (waiting_for_keypress e)
    (keypress_target e) (memory e) (video_memory e).

Definition set_sound_timer (x : Z) (e : Emulator) : Emulator :=
  mkEmulator (v e) (program_counter e) (index_register e) (stack_pointer e)
    (delay_timer e) x (waiting_for_keypress e)
    (keypress_target e) (memory e) (video_memory e).

Definition set_waiting_for_keypress (x : bool) (e : Emulator) : Emulator :=
  mkEmulator (v e) (program_counter e) (index_register e) (stack_pointer e)
    (delay_timer e) (sound_timer e) x
    (keypress_target e) (memory e) (video_memory e).

Definition set_keypress_target (x : option Z) (e : Emulator) : Emulator :=
  mkEmulator (v e) (program_counter e) (index_register e) (stack_pointer e)
    (delay_timer e) (sound_timer e) (waiting_for_keypress e)
    x (memory e) (video_memory e).

Definition set_memory (x : Memory) (e : Emulator) : Emulator :=
  mkEmulator (v e) (program_counter e) (index_register e) (stack_pointer e)
    (delay_timer e) (sound_timer e) (waiting_for_keypress e)
    (keypress_target e) x (video_memory e).

Definition set_video_memory (x : VideoMemory) (e : Emulator) : Emulator :=
  mkEmulator (v e) (program_counter e) (index_register e) (stack_pointer e)
    (delay_timer e) (sound_timer e) (waiting_for_keypress e)
    (keypress_target e) (memory e) x.

(** ** Method calls: state, signals and exceptions *)

Inductive Outcome (A : Type) : Type :=
| Returned (a : A)
| Raised (e : exn).
Arguments Returned {A} a.
Arguments Raised {A} e.

Record Result (A : Type) : Type := mkResult {
  final : Emulator;               (* the object as the call left it *)
  emitted : list event;           (* signals, in the order emitted *)
  outcome : Outcome A
}.
Arguments mkResult {A} _ _ _.
Arguments final {A} _.
Arguments emitted {A} _.
Arguments outcome {A} _.

Definition M (A : Type) : Type := Emulator -> Result A.

Definition ret {A} (a : A) : M A := fun s => mkResult s [] (Returned a).

Definition raise {A} (e : exn) : M A := fun s => mkResult s [] (Raised e).

Definition bind {A B} (m : M A) (k : A -> M B) : M B :=
  fun s =>
    let r := m s in
    match outcome r with
    | Returned a =>
        let r' := k a (final r) in
        mkResult (final r') (emitted r ++ emitted r') (outcome r')
    | Raised e => mkResult (final r) (emitted r) (Raised e)
    end.

Declare Scope emu_scope.
Delimit Scope emu_scope with emu.
Bind Scope emu_scope with M.

Notation "x <- m ;; k" := (bind m (fun x => k))
  (at level 100, m at next level, k at level 200, right associativity) : emu_scope.
Notation "m ;; k" := (bind m (fun _ => k))
  (at level 100, k at level 200, right associativity) : emu_scope.

Local Open Scope emu_scope.

Definition gets {A} (f : Emulator -> A) : M A := fun s => mkResult s [] (Returned (f s)).

Definition modify (f : Emulator -> Emulator) : M unit :=
  fun s => mkResult (f s) [] (Returned tt).

Definition emit (e : event) : M unit := fun s => mkResult s [e] (Returned tt).

Definition lift {A} (e : exn) (o : option A) : M A :=
  match o with
  | Some a => ret a
  | None => raise e
  end.

(** Position of index [i] in a Python list of length [len]: negative
    indices count from the end, anything else out of range raises. *)
Definition list_index (len : nat) (i : Z) : option nat :=
  let j := if i <? 0 then i + Z.of_nat len else i in
  if (0 <=? j) && (j <? Z.of_nat len) then Some (Z.to_nat j) else None.

(** [self.v[i]] *)
Definition getv (i : Z) : M Z :=
  fun s => lift IndexError (n ← list_index (length (v s)) i; v s !! n) s.

(** [self.v[i] = x] *)
Definition setv (i x : Z) : M unit :=
  n <- (fun s => lift IndexError (list_index (length (v s)) i) s);;
  modify (fun s => set_v (<[n := x]> (v s)) s).

(** [self.memory[a]] *)
Definition load (a : Z) : M Z :=
  fun s => lift OutOfBounds (byte_to_Z <$> mem_get (memory s) a) s.

(** [self.memory[a] = x] *)
Definition store (a x : Z) : M unit :=
  b <- lift ValueError (byte_of_Z x);;
  m <- (fun s => lift OutOfBounds (mem_set (memory s) a b) s);;
  modify (set_memory m).

(** [self.memory[a:a+n]] *)
Definition load_range (a n : Z) : M (list byte) :=
  fun s => lift OutOfBounds (mem_get_range (memory s) a n) s.

(** [self.memory[a:a+len(bs)] = bs] *)
Definition store_range (a : Z) (bs : list byte) : M unit :=
  m <- (fun s => lift OutOfBounds (mem_set_range (memory s) a bs) s);;
  modify (set_memory m).

(** [for i in range(n): body(i)] *)
Fixpoint for_each (l : list Z) (body : Z -> M unit) : M unit :=
  match l with
  | [] => ret tt
  | i :: rest => body i ;; for_each rest body
  end.

Definition range (n : Z) : list Z := map Z.of_nat (seq 0 (Z.to_nat n)).

(** ** [decrement_timers] (lines 73-78) *)

Definition decrement_timers : M unit :=
  dt <- gets delay_timer ;;
  (if dt >? 0 then modify (set_delay_timer (dt - 1)) else ret tt) ;;
  st <- gets sound_timer ;;
  (if st >? 0 then modify (set_sound_timer (st - 1)) else ret tt).

(** ** [run_once] (lines 82-394) *)

(** The operand fields the source spells out at each use. *)
Definition X (instruction : Z) : Z := Z.shiftr (Z.land instruction 0x0F00) 8.
Definition Y (instruction : Z) : Z := Z.shiftr (Z.land instruction 0x00F0) 4.
Definition NNN (instruction : Z) : Z := Z.land instruction 0x0FFF.
Definition NN (instruction : Z) : Z := Z.land instruction 0x00FF.

(** [self.program_counter += 2] *)
Definition advance : M unit :=
  pc <- gets program_counter ;; modify (set_program_counter (pc + 2)).

(** [while self.v[x] > 255: self.v[x] -= 256; carry = True]
    (lines 166-167 and 200-202).  The result is the final [carry]. *)
Fixpoint while_above_255 (fuel : nat) (x : Z) (carry : bool) : M bool :=
  match fuel with
  | O => ret carry
  | S fuel' =>
      a <- getv x ;;
      if a >? 255 then setv x (a - 256) ;; while_above_255 fuel' x true
      else ret carry
  end.

(** The loop run with as many iterations as it can need: each one takes
    256 off a value above 255. *)
Definition wrap_above_255 (x : Z) : M bool :=
  a <- getv x ;; while_above_255 (Z.to_nat a) x false.

(** [while self.v[x] < 0: self.v[x] += 256; borrow = True]
    (lines 212-214 and 232-234). *)
Fixpoint while_below_0 (fuel : nat) (x : Z) (borrow : bool) : M bool :=
  match fuel with
  | O => ret borrow
  | S fuel' =>
      a <- getv x ;;
      if a <? 0 then setv x (a + 256) ;; while_below_0 fuel' x true
      else ret borrow
  end.

Definition wrap_below_0 (x : Z) : M bool :=
  a <- getv x ;; while_below_0 (Z.to_nat (- a)) x false.

(** [self.video_memory.reset()] and [self.video_memory.draw_sprite(x, y, sprite)] *)
Definition reset_video : M unit :=
  modify (fun s => set_video_memory (video_reset (video_memory s)) s) ;;
  emit video_changed.

Definition draw (x y : Z) (sprite : list byte) : M bool :=
  fun s =>
    let r := draw_sprite (video_memory s) x y sprite in
    mkResult (set_video_memory (fst r) s) [video_changed] (Returned (snd r)).

Section Host.

(** The parent window's [is_key_pressed], the constant [FONT_START] of
    [chip8/memory.py] (not among the sources, so left open), and the value
    [randint(0, 255)] returns when the call reaches it. *)
Variable is_key_pressed : Z -> bool.
Variable FONT_START : Z.
Variable rand : Z.

(** lines 96-100 *)
Definition op_00E0 : M unit := reset_video.

(** lines 101-107 *)
Definition op_00EE : M unit :=
  sp <- gets stack_pointer ;;
  modify (set_stack_pointer (sp - 2)) ;;
  sp <- gets stack_pointer ;;
  bs <- load_range sp 2 ;;
  modify (set_program_counter (from_bytes bs)).

(** lines 108-118 *)
Definition op_1NNN (instruction : Z) : M unit :=
  pc <- gets program_counter ;;
  (if pc - 2 =? Z.land instruction 0x0FFF
   then emit (actionPause_setChecked true) else ret tt) ;;
  modify (set_program_counter (Z.land instruction 0x0FFF)).

(** lines 119-128 *)
Definition op_2NNN (instruction : Z) : M unit :=
  pc <- gets program_counter ;;
  return_address <- lift OverflowError (to_bytes2 pc) ;;
  sp <- gets stack_pointer ;;
  store_range sp return_address ;;
  sp <- gets stack_pointer ;;
  modify (set_stack_pointer (sp + 2)) ;;
  modify (set_program_counter (Z.land instruction 0x0FFF)).

(** lines 129-136 *)
Definition op_3XNN (instruction : Z) : M unit :=
  a <- getv (X instruction) ;;
  if a =? Z.land instruction 0x00FF then advance else ret tt.

(** lines 137-145 *)
Definition op_4XNN (instruction : Z) : M unit :=
  a <- getv (X instruction) ;;
  if negb (a =? Z.land instruction 0x00FF) then advance else ret tt.

(** lines 146-153 *)
Definition op_5XY0 (instruction : Z) : M unit :=
  a <- getv (X instruction) ;;
  b <- getv (Y instruction) ;;
  if a =? b then advance else ret tt.

(** lines 154-159 *)
Definition op_6XNN (instruction : Z) : M unit :=
  setv (X instruction) (Z.land instruction 0x00FF).

(** lines 160-167 *)
Definition op_7XNN (instruction : Z) : M unit :=
  a <- getv (X instruction) ;;
  setv (X instruction) (a + Z.land instruction 0x00FF) ;;
  _ <- wrap_above_255 (X instruction) ;;
  ret tt.

(** lines 168-174 *)
Definition op_8XY0 (instruction : Z) : M unit :=
  b <- getv (Y instruction) ;;
  setv (X instruction) b.

(** lines 175-180 *)
Definition op_8XY1 (instruction : Z) : M unit :=
  a <- getv (X instruction) ;;
  b <- getv (Y instruction) ;;
  setv (X instruction) (Z.lor a b).

(** lines 181-186 *)
Definition op_8XY2 (instruction : Z) : M unit :=
  a <- getv (X instruction) ;;
  b <- getv (Y instruction) ;;
  setv (X instruction) (Z.land a b).

(** lines 187-192 *)
Definition op_8XY3 (instruction : Z) : M unit :=
  a <- getv (X instruction) ;;
  b <- getv (Y instruction) ;;
  setv (X instruction) (Z.lxor a b).

(** lines 193-204 *)
Definition op_8XY4 (instruction : Z) : M unit :=
  a <- getv (X instruction) ;;
  b <- getv (Y instruction) ;;
  setv (X instruction) (a + b) ;;
  carry <- wrap_above_255 (X instruction) ;;
  setv 0xF (if carry : bool then 1 else 0).

(** lines 205-216 *)
Definition op_8XY5 (instruction : Z) : M unit :=
  a <- getv (X instruction) ;;
  b <- getv (Y instruction) ;;
  setv (X instruction) (a - b) ;;
  borrow <- wrap_below_0 (X instruction) ;;
  setv 0xF (if borrow : bool then 0 else 1).

(** lines 217-223 *)
Definition op_8XY6 (instruction : Z) : M unit :=
  a <- getv (X instruction) ;;
  setv 0xF (Z.land a 1) ;;
  a <- getv (X instruction) ;;
  setv (X instruction) (Z.shiftr a 1).

(** lines 224-236 *)
Definition op_8XY7 (instruction : Z) : M unit :=
  b <- getv (Y instruction) ;;
  a <- getv (X instruction) ;;
  setv (X instruction) (b - a) ;;
  borrow <- wrap_below_0 (X instruction) ;;
  setv 0xF (if borrow : bool then 0 else 1).

(** lines 237-243 *)
Definition op_8XYE (instruction : Z) : M unit :=
  a <- getv (X instruction) ;;
  setv 0xF (Z.shiftr (Z.land a 0x80) 7) ;;
  a <- getv (X instruction) ;;
  setv (X instruction) (Z.shiftl a 1).

(** lines 244-251 *)
Definition op_9XY0 (instruction : Z) : M unit :=
  a <- getv (X instruction) ;;
  b <- getv (Y instruction) ;;
  if negb (a =? b) then advance else ret tt.

(** lines 252-257 *)
Definition op_ANNN (instruction : Z) : M unit :=
  modify (set_index_register (Z.land instruction 0x0FFF)).

(** lines 258-270 *)
Definition op_BNNN (instruction : Z) : M unit :=
  pc <- gets program_counter ;;
  v0 <- getv 0 ;;
  (if pc - 2 =? Z.land instruction 0x0FFF + v0
   then emit (actionPause_setChecked true) else ret tt) ;;
  v0 <- getv 0 ;;
  modify (set_program_counter (Z.land instruction 0x0FFF + v0)).

(** lines 271-278 *)
Definition op_CXNN (instruction : Z) : M unit :=
  setv (X instruction) (Z.land rand (Z.land instruction 0x00FF)).

(** lines 279-299 *)
Definition op_DXYN (instruction : Z) : M unit :=
  x <- getv (X instruction) ;;
  y <- getv (Y instruction) ;;
  i <- gets index_register ;;
  sprite <- load_range i (Z.land instruction 0x000F) ;;
  collision <- draw x y sprite ;;
  (if collision : bool then setv 0xF 1 else setv 0xF 0) ;;
  emit display_changed.

(** lines 300-307 *)
Definition op_EX9E (instruction : Z) : M unit :=
  a <- getv (X instruction) ;;
  if is_key_pressed a then advance else ret tt.

(** lines 308-315 *)
Definition op_EXA1 (instruction : Z) : M unit :=
  a <- getv (X instruction) ;;
  if negb (is_key_pressed a) then advance else ret tt.

(** lines 316-321 *)
Definition op_FX07 (instruction : Z) : M unit :=
  dt <- gets delay_timer ;;
  setv (X instruction) dt.

(** lines 322-328 *)
Definition op_FX0A (instruction : Z) : M unit :=
  modify (set_keypress_target (Some (X instruction))) ;;
  modify (set_waiting_for_keypress true).

(** lines 329-335 *)
Definition op_FX15 (instruction : Z) : M unit :=
  a <- getv (X instruction) ;;
  modify (set_delay_timer a).

(** lines 336-342 *)
Definition op_FX18 (instruction : Z) : M unit :=
  a <- getv (X instruction) ;;
  modify (set_sound_timer a).

(** lines 343-354 *)
Definition op_FX1E (instruction : Z) : M unit :=
  i <- gets index_register ;;
  a <- getv (X instruction) ;;
  modify (set_index_register (i + a)) ;;
  i <- gets index_register ;;
  if i >? 0xFFF then
    modify (set_index_register (i - 0x1000)) ;;
    setv 0xF 1
  else setv 0xF 0.

(** lines 355-361 *)
Definition op_FX29 (instruction : Z) : M unit :=
  a <- getv (X instruction) ;;
  modify (set_index_register (FONT_START + a * 5)).

(** lines 362-375 *)
Definition op_FX33 (instruction : Z) : M unit :=
  value <- getv (X instruction) ;;
  i <- gets index_register ;;
  store i (value / 100) ;;
  let value := value mod 100 in
  i <- gets index_register ;;
  store (i + 1) (value / 10) ;;
  i <- gets index_register ;;
  store (i + 2) (value mod 10).

(** lines 376-382 *)
Definition op_FX55 (instruction : Z) : M unit :=
  for_each (range (X instruction + 1))
    (fun i => a <- getv i ;; idx <- gets index_register ;; store (idx + i) a).

(** lines 383-390 *)
Definition op_FX65 (instruction : Z) : M unit :=
  for_each (range (X instruction + 1))
    (fun i => idx <- gets index_register ;; b <- load (idx + i) ;; setv i b).

(** lines 391-394 *)
Definition unimplemented (instruction : Z) : M unit :=
  pc <- gets program_counter ;;
  let exception := UnimplementedInstruction instruction (pc - 2) in
  emit (emulation_error exception) ;;
  raise exception.

(** The [if]/[elif] chain of lines 96-394, in the order of the source. *)
Definition execute (instruction : Z) : M unit :=
  if instruction =? 0x00E0 then op_00E0
  else if instruction =? 0x00EE then op_00EE
  else if Z.land instruction 0xF000 =? 0x1000 then op_1NNN instruction
  else if Z.land instruction 0xF000 =? 0x2000 then op_2NNN instruction
  else if Z.land instruction 0xF000 =? 0x3000 then op_3XNN instruction
  else if Z.land instruction 0xF000 =? 0x4000 then op_4XNN instruction
  else if Z.land instruction 0xF00F =? 0x5000 then op_5XY0 instruction
  else if Z.land instruction 0xF000 =? 0x6000 then op_6XNN instruction
  else if Z.land instruction 0xF000 =? 0x7000 then op_7XNN instruction
  else if Z.land instruction 0xF00F =? 0x8000 then op_8XY0 instruction
  else if Z.land instruction 0xF00F =? 0x8001 then op_8XY1 instruction
  else if Z.land instruction 0xF00F =? 0x8002 then op_8XY2 instruction
  else if Z.land instruction 0xF00F =? 0x8003 then op_8XY3 instruction
  else if Z.land instruction 0xF00F =? 0x8004 then op_8XY4 instruction
  else if Z.land instruction 0xF00F =? 0x8005 then op_8XY5 instruction
  else if Z.land instruction 0xF00F =? 0x8006 then op_8XY6 instruction
  else if Z.land instruction 0xF00F =? 0x8007 then op_8XY7 instruction
  else if Z.land instruction 0xF00F =? 0x800E then op_8XYE instruction
  else if Z.land instruction 0xF00F =? 0x9000 then op_9XY0 instruction
  else if Z.land instruction 0xF000 =? 0xA000 then op_ANNN instruction
  else if Z.land instruction 0xF000 =? 0xB000 then op_BNNN instruction
  else if Z.land instruction 0xF000 =? 0xC000 then op_CXNN instruction
  else if Z.land instruction 0xF000 =? 0xD000 then op_DXYN instruction
  else if Z.land instruction 0xF0FF =? 0xE09E then op_EX9E instruction
  else if Z.land instruction 0xF0FF =? 0xE0A1 then op_EXA1 instruction
  else if Z.land instruction 0xF0FF =? 0xF007 then op_FX07 instruction
  else if Z.land instruction 0xF0FF =? 0xF00A then op_FX0A instruction
  else if Z.land instruction 0xF0FF =? 0xF015 then op_FX15 instruction
  else if Z.land instruction 0xF0FF =? 0xF018 then op_FX18 instruction
  else if Z.land instruction 0xF0FF =? 0xF01E then op_FX1E instruction
  else if Z.land instruction 0xF0FF =? 0xF029 then op_FX29 instruction
  else if Z.land instruction 0xF0FF =? 0xF033 then op_FX33 instruction
  else if Z.land instruction 0xF0FF =? 0xF055 then op_FX55 instruction
  else if Z.land instruction 0xF0FF =? 0xF065 then op_FX65 instruction
  else unimplemented instruction.

(** Which words the chain accepts: the disjunction of its tests. *)
Definition implemented (instruction : Z) : bool :=
  (instruction =? 0x00E0) || (instruction =? 0x00EE)
  || (Z.land instruction 0xF000 =? 0x1000) || (Z.land instruction 0xF000 =? 0x2000)
  || (Z.land instruction 0xF000 =? 0x3000) || (Z.land instruction 0xF000 =? 0x4000)
  || (Z.land instruction 0xF00F =? 0x5000) || (Z.land instruction 0xF000 =? 0x6000)
  || (Z.land instruction 0xF000 =? 0x7000) || (Z.land instruction 0xF00F =? 0x8000)
  || (Z.land instruction 0xF00F =? 0x8001) || (Z.land instruction 0xF00F =? 0x8002)
  || (Z.land instruction 0xF00F =? 0x8003) || (Z.land instruction 0xF00F =? 0x8004)
  || (Z.land instruction 0xF00F =? 0x8005) || (Z.land instruction 0xF00F =? 0x8006)
  || (Z.land instruction 0xF00F =? 0x8007) || (Z.land instruction 0xF00F =? 0x800E)
  || (Z.land instruction 0xF00F =? 0x9000) || (Z.land instruction 0xF000 =? 0xA000)
  || (Z.land instruction 0xF000 =? 0xB000) || (Z.land instruction 0xF000 =? 0xC000)
  || (Z.land instruction 0xF000 =? 0xD000) || (Z.land instruction 0xF0FF =? 0xE09E)
  || (Z.land instruction 0xF0FF =? 0xE0A1) || (Z.land instruction 0xF0FF =? 0xF007)
  || (Z.land instruction 0xF0FF =? 0xF00A) || (Z.land instruction 0xF0FF =? 0xF015)
  || (Z.land instruction 0xF0FF =? 0xF018) || (Z.land instruction 0xF0FF =? 0xF01E)
  || (Z.land instruction 0xF0FF =? 0xF029) || (Z.land instruction 0xF0FF =? 0xF033)
  || (Z.land instruction 0xF0FF =? 0xF055) || (Z.land instruction 0xF0FF =? 0xF065).

(** lines 93-94, then the chain *)
Definition fetch_execute : M unit :=
  pc <- gets program_counter ;;
  bs <- load_range pc 2 ;;
  let instruction := from_bytes bs in
  advance ;;
  execute instruction.

(** lines 85-91: the first key of [range(16)] that is pressed, if any *)
Definition pressed_key : option Z := find is_key_pressed (range 16).

(** [self.v[self.keypress_target] = key]; indexing with [None] is a
    TypeError. *)
Definition latch_key (key : Z) : M unit :=
  target <- gets keypress_target ;;
  match target with
  | Some t => setv t key
  | None => raise TypeError
  end.

(** lines 83-91.  The result tells whether the call goes on to the fetch
    ([True]) or leaves through the [return] of the [for]/[else]. *)
Definition poll : M bool :=
  waiting <- gets waiting_for_keypress ;;
  if waiting : bool then
    match pressed_key with
    | Some key =>
        latch_key key ;;
        modify (set_waiting_for_keypress false) ;;
        ret true
    | None => ret false
    end
  else ret true.

Definition run_once : M unit :=
  go <- poll ;;
  if go : bool then fetch_execute else ret tt.

End Host.

(** ** Reading a state *)

(** The word at the program counter, as line 93 reads it. *)
Definition fetch (s : Emulator) : option Z :=
  from_bytes <$> mem_get_range (memory s) (program_counter s) 2.

(** Register [i] of a state ([0] outside the register file). *)
Definition reg (s : Emulator) (i : Z) : Z := default 0 (v s !! Z.to_nat i).

(** The register file has its sixteen cells (line 49; nothing resizes it). *)
Definition registers_ok (s : Emulator) : Prop := length (v s) = 16%nat.

(** ** Sample machines *)

(** Concrete machines on which the calls can be evaluated: the fields as
    lines 49-57 set them, a 64 x 32 framebuffer, and a 4 KiB store that
    holds [rom] at [PROGRAM_COUNTER_START] (no font: [FONT_DATA] is not
    among the sources, and no instruction below reads it). *)

Definition blank_video : VideoMemory := mkVideo 64 32 (replicate 2048 false).

Definition rom_memory (rom : list byte) : Memory :=
  replicate 512 x00 ++ rom ++ replicate (3584 - length rom) x00.

Definition boot (rom : list byte) : Emulator :=
  mkEmulator (replicate 16 0) PROGRAM_COUNTER_START 0 STACK_POINTER_START
    0 0 false None (rom_memory rom) blank_video.

Definition no_key : Z -> bool := fun _ => false.
Definition only_key (k : Z) : Z -> bool := fun key => key =? k.

(** V[0] = 128 and the word 800E at the program counter. *)
Definition shift_state : Emulator :=
  set_v [128; 0; 0; 0; 0; 0; 0; 0; 0; 0; 0; 0; 0; 0; 0; 0] (boot [x80; x0e]).

(** V[0] = 200, V[1] = 100, and 8014 (V[0] += V[1]) at the program
    counter. *)
Definition sum_state : Emulator :=
  set_v [200; 100; 0; 0; 0; 0; 0; 0; 0; 0; 0; 0; 0; 0; 0; 0] (boot [x80; x14]).

(** V[0] = 1, V[F] = 1, and 8F04 (V[F] += V[0]) at the program counter. *)
Definition flag_sum_state : Emulator :=
  set_v [1; 0; 0; 0; 0; 0; 0; 0; 0; 0; 0; 0; 0; 0; 0; 1] (boot [x8f; x04]).

(** V[2] = 157, the index register at 0x300, and F233 at the program
    counter. *)
Definition bcd_state : Emulator :=
  set_index_register 0x300
    (set_v [0; 0; 157; 0; 0; 0; 0; 0; 0; 0; 0; 0; 0; 0; 0; 0] (boot [xf2; x33])).

(** A call to 0x204, where a return waits. *)
Definition call_state : Emulator := boot [x22; x04; x00; x00; x00; xee].

(** The latch set on V[3], with 6A07 (V[A] = 7) at the program counter. *)
Definition waiting_state : Emulator :=
  set_keypress_target (Some 3) (set_waiting_for_keypress true (boot [x6a; x07])).

(** The latch set on V[3], with the word 0FFF at the program counter. *)
Definition waiting_at_0FFF : Emulator :=
  set_keypress_target (Some 3) (set_waiting_for_keypress true (boot [x0f; xff])).

(** ** Properties of calls *)

(** A call that never raises UnimplementedInstruction. *)
Definition never_unimplemented {A} (m : M A) : Prop :=
  forall s i a, outcome (m s) <> Raised (UnimplementedInstruction i a).

(** A call that leaves a register file of sixteen cells when given one. *)
Definition keeps_registers {A} (m : M A) : Prop :=
  forall s, registers_ok s -> registers_ok (final (m s)).

(** A call that never moves the program counter back. *)
Definition never_rewinds {A} (m : M A) : Prop :=
  forall s, program_counter s <= program_counter (final (m s)).

(** A call that is never a silent return to the state before the advance
    of line 94: it does not return with no signal emitted, the program
    counter 2 lower and everything else as it was. *)
Definition never_silent {A} (m : M A) : Prop :=
  forall s a, registers_ok s ->
    m s <> mkResult (set_program_counter (program_counter s - 2) s) [] (Returned a).

(** ** Timer ticks *)

(** The state after [n] calls of [decrement_timers]. *)
Definition ticks (n : nat) (s : Emulator) : Emulator :=
  Nat.iter n (fun s => final (decrement_timers s)) s.

(** ** More sample machines *)

(** V[0] = 10, V[1] = 20, and 8015 (V[0] -= V[1]) at the program counter. *)
Definition difference_state : Emulator :=
  set_v [10; 20; 0; 0; 0; 0; 0; 0; 0; 0; 0; 0; 0; 0; 0; 0] (boot [x80; x15]).

(** V[0] = 13 and 8006 (V[0] >>= 1) at the program counter. *)
Definition halve_state : Emulator :=
  set_v [13; 0; 0; 0; 0; 0; 0; 0; 0; 0; 0; 0; 0; 0; 0; 0] (boot [x80; x06]).

(** The index register at 0xFFA, V[0] = 15, and F01E at the program
    counter. *)
Definition index_state : Emulator :=
  set_index_register 0xFFA
    (set_v [15; 0; 0; 0; 0; 0; 0; 0; 0; 0; 0; 0; 0; 0; 0; 0] (boot [xf0; x1e])).

(** As [bcd_state], with the index register on the last cell of the
    store. *)
Definition bcd_edge_state : Emulator := set_index_register 4095 bcd_state.

(** V[0] = 10, with F015 (delay timer := V[0]) and then F107 (V[1] :=
    delay timer) at the program counter. *)
Definition timer_state : Emulator :=
  set_v [10; 0; 0; 0; 0; 0; 0; 0; 0; 0; 0; 0; 0; 0; 0; 0]
    (boot [xf0; x15; xf1; x07]).

(** V[0] = 11, V[1] = 22, the index register at 0x300, and F155 (dump
    V[0..1]) followed by F165 (restore V[0..1]) at the program counter. *)
Definition dump_state : Emulator :=
  set_index_register 0x300
    (set_v [11; 22; 0; 0; 0; 0; 0; 0; 0; 0; 0; 0; 0; 0; 0; 0]
       (boot [xf1; x55; xf1; x65])).

(** The index register on the program itself, and F165 at the program
    counter. *)
Definition restore_state : Emulator :=
  set_index_register 0x200 (boot [xf1; x65]).

(** ** Invariants *)

(** With [strict] set a value must be a byte; without it any value will
    do.  The flag lets one proof give both the invariant every call keeps
    and the stronger one kept by every call but a shift left. *)
Definition val_ok (strict : bool) (x : Z) : Prop :=
  strict = true -> 0 <= x <= 255.

(** The latch never points outside the register file, and it is set only
    once a target has been recorded. *)
Definition latch_ok (s : Emulator) : Prop :=
  match keypress_target s with
  | Some t => 0 <= t < 16
  | None => waiting_for_keypress s = false
  end.

Definition invariant (strict : bool) (s : Emulator) : Prop :=
  registers_ok s /\ latch_ok s
  /\ Forall (val_ok strict) (v s)
  /\ val_ok strict (delay_timer s) /\ val_ok strict (sound_timer s).

(** The exceptions a call may end with: never an IndexError or a
    TypeError, and under [strict] never a ValueError. *)
Definition exn_ok (strict : bool) (e : exn) : Prop :=
  e <> IndexError /\ e <> TypeError /\ (strict = true -> e <> ValueError).

(** A call that keeps the invariant, however it ends, returns a value
    satisfying [post] and raises only what [exn_ok] allows. *)
Definition sound (strict : bool) {A} (post : A -> Prop) (m : M A) : Prop :=
  forall s, invariant strict s ->
    invariant strict (final (m s))
    /\ match outcome (m s) with
       | Returned a => post a
       | Raised e => exn_ok strict e
       end.

(** ** The constructor and the host's calls *)

(** lines 49-60: the object [__init__] builds, given the store as
    [Memory()], [load_font] and [load_rom] leave it and the framebuffer
    as [VideoMemory()] makes it (those classes and [FONT_DATA] are not
    among the sources). *)
Definition init (m : Memory) (vm : VideoMemory) : Emulator :=
  mkEmulator (replicate 16 0) PROGRAM_COUNTER_START 0 STACK_POINTER_START
    0 0 false None m vm.

(** The two slots the host invokes (lines 72 and 81), the first with the
    key state and the random value of that moment. *)
Inductive call : Type :=
| call_run_once (keys : Z -> bool) (rand : Z)
| call_decrement_timers.

Definition perform (font : Z) (c : call) : M unit :=
  match c with
  | call_run_once keys rand => run_once keys font rand
  | call_decrement_timers => decrement_timers
  end.

(** The object after a sequence of calls; a call that raised leaves the
    object as it was at the raise, and the host may go on calling. *)
Definition after (font : Z) (cs : list call) (s : Emulator) : Emulator :=
  fold_left (fun s c => final (perform font c s)) cs s.

(** No call of the sequence finds an 8XYE word at the program counter. *)
Fixpoint no_shift_left (font : Z) (cs : list call) (s : Emulator) : Prop :=
  match cs with
  | [] => True
  | c :: rest =>
      match c with
      | call_run_once _ _ =>
          forall w, fetch s = Some w -> Z.land w 0xF00F <> 0x800E
      | call_decrement_timers => True
      end
      /\ no_shift_left font rest (final (perform font c s))
  end.

(** Every register and both timers hold a byte. *)
Definition all_bytes (s : Emulator) : Prop :=
  Forall (fun x => 0 <= x <= 255) (v s)
  /\ 0 <= delay_timer s <= 255 /\ 0 <= sound_timer s <= 255.

(** A small program run from the constructor's state: load V[0], add to
    it, tick the timers, store its digits. *)
Definition sample_calls : list call :=
  [call_run_once no_key 0; call_run_once no_key 0; call_decrement_timers;
   call_run_once no_key 0].

Definition sample_store : Memory :=
  rom_memory [x60; xc8; x70; x64; xa3; x00; xf0; x33].

(** V[0] = 200, V[1] = 100, and 8013 (V[0] ^= V[1]) at the program
    counter. *)
Definition sum_state_xor : Emulator :=
  set_v [200; 100; 0; 0; 0; 0; 0; 0; 0; 0; 0; 0; 0; 0; 0; 0] (boot [x80; x13]).

(** V[0] = 7 and F029 (index register := glyph of V[0]) at the program
    counter. *)
Definition digit_state : Emulator :=
  set_v [7; 0; 0; 0; 0; 0; 0; 0; 0; 0; 0; 0; 0; 0; 0; 0] (boot [xf0; x29]).

(** The index register on the program, which draws its own first byte as
    a one-row sprite at (0, 0), twice. *)
Definition draw_state : Emulator :=
  set_index_register 0x200 (boot [xd0; x01; xd0; x01]).

(** The machine after the dump of [dump_state], with its registers
    cleared. *)
Definition cleared_after_dump : Emulator :=
  set_v (replicate 16 0) (final (run_once no_key 0 0 dump_state)).

(** * Properties *)

(** ** Operand fields *)

Lemma X_spec w : X w = (w / 256) mod 16.
Proof.
  unfold X. rewrite Z.shiftr_land.
  change (Z.shiftr 0x0F00 8) with (Z.ones 4).
  rewrite Z.land_ones by lia. rewrite Z.shiftr_div_pow2 by lia. reflexivity.
Qed.

Lemma X_range w : 0 <= X w < 16.
Proof. rewrite X_spec. apply Z.mod_pos_bound. lia. Qed.

Lemma Y_spec w : Y w = (w / 16) mod 16.
Proof.
  unfold Y. rewrite Z.shiftr_land.
  change (Z.shiftr 0x00F0 4) with (Z.ones 4).
  rewrite Z.land_ones by lia. rewrite Z.shiftr_div_pow2 by lia. reflexivity.
Qed.

Lemma Y_range w : 0 <= Y w < 16.
Proof. rewrite Y_spec. apply Z.mod_pos_bound. lia. Qed.

Lemma NN_spec w : Z.land w 0x00FF = w mod 256.
Proof. change 0x00FF with (Z.ones 8). rewrite Z.land_ones by lia. reflexivity. Qed.

Lemma NNN_spec w : Z.land w 0x0FFF = w mod 4096.
Proof. change 0x0FFF with (Z.ones 12). rewrite Z.land_ones by lia. reflexivity. Qed.

(** ** Dispatch *)

(** A test under a wider mask decides the test under a narrower one. *)
Lemma land_narrow w m c m' :
  Z.land m m' = m' -> Z.land w m = c -> Z.land w m' = Z.land c m'.
Proof. intros Hm Hw. rewrite <- Hw, <- Z.land_assoc, Hm. reflexivity. Qed.

Lemma test_other_nibble w m c k :
  Z.land m 0xF000 = 0xF000 -> Z.land w 0xF000 = k ->
  (Z.land c 0xF000 =? k) = false -> (Z.land w m =? c) = false.
Proof.
  intros Hm Hk Hc. apply Z.eqb_neq. intros E.
  apply Z.eqb_neq in Hc. apply Hc.
  rewrite <- Hk. symmetry. exact (land_narrow w m c 0xF000 Hm E).
Qed.

Lemma test_word_other_nibble w c k :
  Z.land w 0xF000 = k -> (Z.land c 0xF000 =? k) = false -> (w =? c) = false.
Proof.
  intros Hk Hc. apply Z.eqb_neq. intros E. subst w.
  apply Z.eqb_neq in Hc. contradiction.
Qed.

Lemma test_same_mask w m c c' :
  Z.land w m = c -> (c =? c') = false -> (Z.land w m =? c') = false.
Proof. intros -> H. exact H. Qed.

Lemma else_branch {A} (c : bool) (t e r : A) :
  c = false -> e = r -> (if c then t else e) = r.
Proof. intros -> H. exact H. Qed.

Lemma then_branch {A} (c : bool) (t e : A) :
  c = true -> (if c then t else e) = t.
Proof. intros ->. reflexivity. Qed.

(** Walks the chain down to the branch chosen by [H : Z.land w m = c]:
    the tests before it fail, on the constant when the masks agree and on
    the leading nibble otherwise. *)
Ltac dispatch H :=
  let HF := fresh "HF" in
  lazymatch type of H with
  | Z.land ?w ?m = ?c =>
      let k := eval vm_compute in (Z.land c 0xF000) in
      assert (HF : Z.land w 0xF000 = k) by exact (land_narrow w m c 0xF000 eq_refl H)
  end;
  unfold execute;
  repeat lazymatch goal with
    | |- (if ?a =? ?b then _ else _) = _ =>
        lazymatch type of H with
        | a = b => apply then_branch, Z.eqb_eq, H
        | a = _ => apply else_branch; [exact (test_same_mask _ _ _ b H eq_refl) |]
        | _ =>
            apply else_branch;
            [ lazymatch a with
              | Z.land ?w ?m => exact (test_other_nibble w m b _ eq_refl HF eq_refl)
              | _ => exact (test_word_other_nibble a b _ HF eq_refl)
              end |]
        end
    end.

Section Dispatch.
Variables (is_key_pressed : Z -> bool) (FONT_START rand : Z).
Local Abbreviation execute := (execute is_key_pressed FONT_START rand).

Lemma execute_00EE : execute 0x00EE = op_00EE.
Proof. reflexivity. Qed.

Lemma execute_1NNN w : Z.land w 0xF000 = 0x1000 -> execute w = op_1NNN w.
Proof. intros H. dispatch H. Qed.

Lemma execute_2NNN w : Z.land w 0xF000 = 0x2000 -> execute w = op_2NNN w.
Proof. intros H. dispatch H. Qed.

Lemma execute_7XNN w : Z.land w 0xF000 = 0x7000 -> execute w = op_7XNN w.
Proof. intros H. dispatch H. Qed.

Lemma execute_8XY4 w : Z.land w 0xF00F = 0x8004 -> execute w = op_8XY4 w.
Proof. intros H. dispatch H. Qed.

Lemma execute_8XYE w : Z.land w 0xF00F = 0x800E -> execute w = op_8XYE w.
Proof. intros H. dispatch H. Qed.

Lemma execute_BNNN w : Z.land w 0xF000 = 0xB000 -> execute w = op_BNNN w.
Proof. intros H. dispatch H. Qed.

Lemma execute_FX33 w : Z.land w 0xF0FF = 0xF033 -> execute w = op_FX33 w.
Proof. intros H. dispatch H. Qed.

Lemma execute_unimplemented w :
  implemented w = false -> execute w = unimplemented w.
Proof.
  unfold implemented, execute. intros H.
  repeat (apply orb_false_elim in H; destruct H as [H ?]).
  repeat match goal with E : (_ =? _) = false |- _ => rewrite E; clear E end.
  reflexivity.
Qed.

End Dispatch.

(** ** Running a call *)

Lemma bind_pure {A B} (m : M A) (k : A -> M B) s s' a :
  m s = mkResult s' [] (Returned a) -> bind m k s = k a s'.
Proof. intros H. unfold bind. rewrite H. simpl. destruct (k a s'); reflexivity. Qed.

Lemma bind_emits {A B} (m : M A) (k : A -> M B) s s' ev a :
  m s = mkResult s' ev (Returned a) ->
  bind m k s = mkResult (final (k a s')) (ev ++ emitted (k a s')) (outcome (k a s')).
Proof. intros H. unfold bind. rewrite H. reflexivity. Qed.

Lemma bind_raised {A B} (m : M A) (k : A -> M B) s s' ev e :
  m s = mkResult s' ev (Raised e) -> bind m k s = mkResult s' ev (Raised e).
Proof. intros H. unfold bind. rewrite H. reflexivity. Qed.

(** *** The register file *)

Lemma registers_ok_set_v l s :
  length l = 16%nat -> registers_ok (set_v l s).
Proof. intros H. exact H. Qed.

Lemma registers_ok_insert n x s :
  registers_ok s -> registers_ok (set_v (<[n := x]> (v s)) s).
Proof. intros H. unfold registers_ok. simpl. rewrite length_insert. exact H. Qed.

Lemma list_index_ok i : 0 <= i < 16 -> list_index 16 i = Some (Z.to_nat i).
Proof.
  intros H. unfold list_index.
  destruct (Z.ltb_spec i 0); [lia |].
  destruct (Z.leb_spec 0 i); [| lia].
  destruct (Z.ltb_spec i (Z.of_nat 16)); [reflexivity | lia].
Qed.

Lemma lookup_reg s i :
  registers_ok s -> 0 <= i < 16 -> v s !! Z.to_nat i = Some (reg s i).
Proof.
  intros Hl Hi. unfold reg.
  destruct (v s !! Z.to_nat i) eqn:E; [reflexivity |].
  apply lookup_ge_None in E. unfold registers_ok in Hl. lia.
Qed.

Lemma getv_ok s i :
  registers_ok s -> 0 <= i < 16 -> getv i s = mkResult s [] (Returned (reg s i)).
Proof.
  intros Hl Hi. unfold getv. rewrite Hl, (list_index_ok i Hi). simpl.
  rewrite (lookup_reg s i Hl Hi). reflexivity.
Qed.

Lemma setv_ok s i x :
  registers_ok s -> 0 <= i < 16 ->
  setv i x s = mkResult (set_v (<[Z.to_nat i := x]> (v s)) s) [] (Returned tt).
Proof.
  intros Hl Hi. unfold setv, bind. rewrite Hl, (list_index_ok i Hi). reflexivity.
Qed.

Lemma reg_insert_eq s l i x :
  registers_ok s -> 0 <= i < 16 ->
  reg (set_v (<[Z.to_nat i := x]> (v s)) l) i = x.
Proof.
  intros Hl Hi. unfold reg. simpl.
  rewrite list_lookup_insert_eq; [reflexivity |]. unfold registers_ok in Hl. lia.
Qed.

Lemma reg_insert_ne s l i j x :
  0 <= i -> 0 <= j -> i <> j ->
  reg (set_v (<[Z.to_nat i := x]> (v s)) l) j = reg s j.
Proof.
  intros Hi Hj Hne. unfold reg. simpl.
  rewrite list_lookup_insert_ne; [reflexivity | lia].
Qed.

(** *** The wrap-around loops *)

Lemma while_above_255_run fuel : forall x c s,
  registers_ok s -> 0 <= x < 16 ->
  reg s x <= 255 + 256 * Z.of_nat fuel ->
  while_above_255 fuel x c s =
    mkResult
      (if reg s x >? 255
       then set_v (<[Z.to_nat x := reg s x mod 256]> (v s)) s else s)
      [] (Returned (c || (reg s x >? 255))).
Proof.
  induction fuel as [| fuel IH]; intros x c s Hl Hx Hb.
  - simpl. destruct (Z.gtb_spec (reg s x) 255); [lia |].
    rewrite orb_false_r. reflexivity.
  - cbn [while_above_255].
    rewrite (bind_pure _ _ _ _ _ (getv_ok s x Hl Hx)).
    destruct (Z.gtb_spec (reg s x) 255) as [Hgt | Hle].
    + rewrite (bind_pure _ _ _ _ _ (setv_ok s x _ Hl Hx)).
      rewrite IH; [| apply registers_ok_insert; exact Hl | exact Hx
                   | rewrite reg_insert_eq by assumption; lia].
      rewrite reg_insert_eq by assumption.
      rewrite orb_true_r. f_equal.
      destruct (Z.gtb_spec (reg s x - 256) 255).
      * unfold set_v. simpl. rewrite list_insert_insert_eq.
        replace ((reg s x - 256) mod 256) with (reg s x mod 256); [reflexivity |].
        replace (reg s x - 256) with (reg s x + (-1) * 256) by lia.
        rewrite Z.mod_add by lia. reflexivity.
      * replace (reg s x mod 256) with (reg s x - 256); [reflexivity |].
        apply Z.mod_unique with (q := 1); lia.
    + rewrite orb_false_r. reflexivity.
Qed.

(** The loop of lines 166-167 and 200-202 stops, leaves the register
    below 256, and reports whether it had to subtract. *)
Lemma wrap_above_255_run x s :
  registers_ok s -> 0 <= x < 16 ->
  wrap_above_255 x s =
    mkResult
      (if reg s x >? 255
       then set_v (<[Z.to_nat x := reg s x mod 256]> (v s)) s else s)
      [] (Returned (reg s x >? 255)).
Proof.
  intros Hl Hx. unfold wrap_above_255.
  rewrite (bind_pure _ _ _ _ _ (getv_ok s x Hl Hx)).
  rewrite while_above_255_run; [reflexivity | assumption | assumption |].
  destruct (Z.le_gt_cases (reg s x) 255); lia.
Qed.

Lemma while_below_0_run fuel : forall x c s,
  registers_ok s -> 0 <= x < 16 ->
  - reg s x <= 256 * Z.of_nat fuel ->
  while_below_0 fuel x c s =
    mkResult
      (if reg s x <? 0
       then set_v (<[Z.to_nat x := reg s x mod 256]> (v s)) s else s)
      [] (Returned (c || (reg s x <? 0))).
Proof.
  induction fuel as [| fuel IH]; intros x c s Hl Hx Hb.
  - simpl. destruct (Z.ltb_spec (reg s x) 0); [lia |].
    rewrite orb_false_r. reflexivity.
  - cbn [while_below_0].
    rewrite (bind_pure _ _ _ _ _ (getv_ok s x Hl Hx)).
    destruct (Z.ltb_spec (reg s x) 0) as [Hlt | Hge].
    + rewrite (bind_pure _ _ _ _ _ (setv_ok s x _ Hl Hx)).
      rewrite IH; [| apply registers_ok_insert; exact Hl | exact Hx
                   | rewrite reg_insert_eq by assumption; lia].
      rewrite reg_insert_eq by assumption.
      rewrite orb_true_r. f_equal.
      destruct (Z.ltb_spec (reg s x + 256) 0).
      * unfold set_v. simpl. rewrite list_insert_insert_eq.
        replace ((reg s x + 256) mod 256) with (reg s x mod 256); [reflexivity |].
        replace (reg s x + 256) with (reg s x + 1 * 256) by lia.
        rewrite Z.mod_add by lia. reflexivity.
      * replace (reg s x mod 256) with (reg s x + 256); [reflexivity |].
        apply Z.mod_unique with (q := -1); lia.
    + rewrite orb_false_r. reflexivity.
Qed.

(** The loop of lines 212-214 and 232-234 stops, leaves the register at
    or above 0, and reports whether it had to add. *)
Lemma wrap_below_0_run x s :
  registers_ok s -> 0 <= x < 16 ->
  wrap_below_0 x s =
    mkResult
      (if reg s x <? 0
       then set_v (<[Z.to_nat x := reg s x mod 256]> (v s)) s else s)
      [] (Returned (reg s x <? 0)).
Proof.
  intros Hl Hx. unfold wrap_below_0.
  rewrite (bind_pure _ _ _ _ _ (getv_ok s x Hl Hx)).
  rewrite while_below_0_run; [reflexivity | assumption | assumption |].
  destruct (Z.le_gt_cases 0 (reg s x)); lia.
Qed.

(** *** From [run_once] to the chosen branch *)

Lemma poll_running keys s :
  waiting_for_keypress s = false -> poll keys s = mkResult s [] (Returned true).
Proof. intros H. unfold poll, bind, gets. simpl. rewrite H. reflexivity. Qed.

Lemma fetch_inv s w :
  fetch s = Some w ->
  exists bs, mem_get_range (memory s) (program_counter s) 2 = Some bs
             /\ from_bytes bs = w.
Proof.
  unfold fetch. destruct (mem_get_range _ _ _) as [bs |]; [| discriminate].
  simpl. intros [= <-]. exists bs. split; reflexivity.
Qed.

(** A call that gets past the key poll in state [s0] and fetches [w]
    executes [w] with the program counter already advanced. *)
Lemma run_once_fetches keys font rand s s0 w :
  poll keys s = mkResult s0 [] (Returned true) ->
  fetch s0 = Some w ->
  run_once keys font rand s =
    execute keys font rand w (set_program_counter (program_counter s0 + 2) s0).
Proof.
  intros Hp Hf. destruct (fetch_inv s0 w Hf) as (bs & Hbs & Hw).
  unfold run_once. rewrite (bind_pure _ _ _ _ _ Hp).
  unfold fetch_execute.
  rewrite (bind_pure _ _ s0 s0 (program_counter s0)) by reflexivity.
  rewrite (bind_pure _ _ s0 s0 bs) by (unfold load_range; rewrite Hbs; reflexivity).
  rewrite Hw.
  rewrite (bind_pure _ _ s0 (set_program_counter (program_counter s0 + 2) s0) tt)
    by reflexivity.
  reflexivity.
Qed.

(** *** Straight-line code *)

Lemma registers_ok_set_program_counter x s :
  registers_ok s -> registers_ok (set_program_counter x s).
Proof. intros H. exact H. Qed.

Create HintDb chip8.
#[local] Hint Resolve registers_ok_insert registers_ok_set_program_counter : chip8.
#[local] Hint Extern 1 (_ <= _ < _) => lia : chip8.
#[local] Hint Extern 1 (_ <= _ < _) => apply X_range : chip8.
#[local] Hint Extern 1 (_ <= _ < _) => apply Y_range : chip8.

(** One statement of a body whose effect is known. *)
Ltac run_getv :=
  erewrite bind_pure by (apply getv_ok; auto with chip8).
Ltac run_setv :=
  erewrite bind_pure by (apply setv_ok; auto with chip8).
Ltac run_pure :=
  erewrite bind_pure by reflexivity.

(** ** Arithmetic instructions *)

(** 7XNN in full: the state a call leaves that fetches it with a register
    value in range. *)
Lemma op_7XNN_run w s :
  registers_ok s -> 0 <= reg s (X w) <= 255 ->
  op_7XNN w s =
    mkResult
      (set_v (<[Z.to_nat (X w) := (reg s (X w) + Z.land w 0x00FF) mod 256]> (v s)) s)
      [] (Returned tt).
Proof.
  intros Hl Ha. unfold op_7XNN.
  run_getv. run_setv.
  erewrite bind_pure by (apply wrap_above_255_run; auto with chip8).
  rewrite reg_insert_eq by auto with chip8.
  pose proof (NN_spec w) as Hn. pose proof (Z.mod_pos_bound w 256 ltac:(lia)).
  unfold ret. f_equal.
  destruct (Z.gtb_spec (reg s (X w) + Z.land w 255) 255).
  - unfold set_v. simpl. rewrite list_insert_insert_eq. reflexivity.
  - rewrite Z.mod_small by lia. reflexivity.
Qed.

(** C5 (amended).  A call that fetches 7XNN with V[X] in [0, 255] returns
    normally with V[X] = (old V[X] + NN) mod 256 and every other register
    as it was; in particular V[F] is unmodified whenever X is not F (when
    X is F, V[F] is the destination and receives the sum). *)
Theorem C5_add_immediate keys font rand s s0 w :
  poll keys s = mkResult s0 [] (Returned true) ->
  fetch s0 = Some w ->
  Z.land w 0xF000 = 0x7000 ->
  registers_ok s0 ->
  0 <= reg s0 (X w) <= 255 ->
  let r := run_once keys font rand s in
  outcome r = Returned tt
  /\ reg (final r) (X w) = (reg s0 (X w) + NN w) mod 256
  /\ (X w <> 0xF -> reg (final r) 0xF = reg s0 0xF)
  /\ (forall j, 0 <= j < 16 -> j <> X w -> reg (final r) j = reg s0 j).
Proof.
  intros Hp Hf Hw Hl Ha r. subst r.
  rewrite (run_once_fetches _ _ _ _ _ _ Hp Hf), (execute_7XNN _ _ _ _ Hw).
  rewrite op_7XNN_run by auto with chip8.
  pose proof (X_range w) as Hx. cbn [final outcome].
  split; [reflexivity |]. split; [| split].
  - apply reg_insert_eq; auto with chip8.
  - intros Hne. rewrite reg_insert_ne by lia. reflexivity.
  - intros j Hj Hne. rewrite reg_insert_ne by lia. reflexivity.
Qed.

Lemma C5_add_immediate_witness :
  reg (final (run_once no_key 0 0 (boot [x73; xff]))) 3 = 255.
Proof.
  pose proof (C5_add_immediate no_key 0 0 (boot [x73; xff]) (boot [x73; xff]) 0x73FF
                eq_refl eq_refl eq_refl eq_refl) as H.
  destruct H as (_ & H & _).
  - vm_compute. split; discriminate.
  - exact H.
Defined.

(** C5 as stated fails for X = F: the word fetched is 7F01, V[F] is in
    range, and the call changes V[F] (from 0 to 1). *)
Lemma C5_counterexample :
  fetch (boot [x7f; x01]) = Some 0x7F01
  /\ reg (final (run_once no_key 0 0 (boot [x7f; x01]))) 0xF
     <> reg (boot [x7f; x01]) 0xF.
Proof. split; [reflexivity | vm_compute; discriminate]. Qed.

(** 8XY4 in full, for register values in range. *)
Lemma op_8XY4_run w s :
  registers_ok s -> 0 <= reg s (X w) <= 255 -> 0 <= reg s (Y w) <= 255 ->
  op_8XY4 w s =
    mkResult
      (set_v (<[15%nat := if reg s (X w) + reg s (Y w) >? 255 then 1 else 0]>
                (<[Z.to_nat (X w) := (reg s (X w) + reg s (Y w)) mod 256]> (v s))) s)
      [] (Returned tt).
Proof.
  intros Hl Ha Hb. unfold op_8XY4.
  run_getv. run_getv. run_setv.
  erewrite bind_pure by (apply wrap_above_255_run; auto with chip8).
  rewrite reg_insert_eq by auto with chip8.
  destruct (Z.gtb_spec (reg s (X w) + reg s (Y w)) 255).
  - rewrite setv_ok by auto with chip8.
    unfold set_v. simpl. rewrite list_insert_insert_eq. reflexivity.
  - rewrite setv_ok by auto with chip8.
    rewrite Z.mod_small by lia. reflexivity.
Qed.

(** C4 (amended).  A call that fetches 8XY4 with V[X] = a and V[Y] = b,
    both in [0, 255], returns normally with V[F] = 1 if a + b > 255 and
    V[F] = 0 otherwise, and, when X is not F, with V[X] = (a + b) mod 256.
    (When X is F the flag is written last and is what V[F] holds.) *)
Theorem C4_add_carry keys font rand s s0 w a b :
  poll keys s = mkResult s0 [] (Returned true) ->
  fetch s0 = Some w ->
  Z.land w 0xF00F = 0x8004 ->
  registers_ok s0 ->
  reg s0 (X w) = a -> reg s0 (Y w) = b ->
  0 <= a <= 255 -> 0 <= b <= 255 ->
  let r := run_once keys font rand s in
  outcome r = Returned tt
  /\ reg (final r) 0xF = (if a + b >? 255 then 1 else 0)
  /\ (X w <> 0xF -> reg (final r) (X w) = (a + b) mod 256).
Proof.
  intros Hp Hf Hw Hl <- <- Ha Hb r. subst r.
  rewrite (run_once_fetches _ _ _ _ _ _ Hp Hf), (execute_8XY4 _ _ _ _ Hw).
  rewrite op_8XY4_run by auto with chip8.
  pose proof (X_range w) as Hx. cbn [final outcome].
  split; [reflexivity |]. split.
  - change 15%nat with (Z.to_nat 0xF).
    unfold reg at 1. cbn [v set_v set_program_counter].
    rewrite list_lookup_insert_eq; [reflexivity |].
    rewrite length_insert. unfold registers_ok in Hl. lia.
  - intros Hne. unfold reg at 1. cbn [v set_v set_program_counter].
    rewrite list_lookup_insert_ne by lia.
    rewrite list_lookup_insert_eq; [reflexivity |].
    unfold registers_ok in Hl. lia.
Qed.

Lemma C4_add_carry_witness :
  reg (final (run_once no_key 0 0 sum_state)) 0xF = 1
  /\ reg (final (run_once no_key 0 0 sum_state)) 0 = 44.
Proof.
  destruct (C4_add_carry no_key 0 0 sum_state sum_state 0x8014 200 100
              eq_refl eq_refl eq_refl eq_refl eq_refl eq_refl
              ltac:(lia) ltac:(lia)) as (_ & HF & HX).
  split; [exact HF | apply HX; vm_compute; discriminate].
Defined.

(** C4 as stated fails for X = F: 8F04 with V[F] = 1 and V[0] = 1 leaves
    V[F] = 0, the carry flag, not (1 + 1) mod 256. *)
Lemma C4_counterexample :
  fetch flag_sum_state = Some 0x8F04
  /\ reg flag_sum_state (X 0x8F04) = 1
  /\ reg flag_sum_state (Y 0x8F04) = 1
  /\ reg (final (run_once no_key 0 0 flag_sum_state)) (X 0x8F04) <> (1 + 1) mod 256.
Proof. repeat split; vm_compute; discriminate. Qed.

(** ** Shift left (8XYE) *)

(** 8XYE in full when X is not F: the flag receives bit 7 and the register
    its double, with nothing taken off. *)
Lemma op_8XYE_run w s :
  registers_ok s -> X w <> 0xF ->
  op_8XYE w s =
    mkResult
      (set_v (<[Z.to_nat (X w) := Z.shiftl (reg s (X w)) 1]>
                (<[15%nat := Z.shiftr (Z.land (reg s (X w)) 0x80) 7]> (v s))) s)
      [] (Returned tt).
Proof.
  intros Hl Hne. pose proof (X_range w) as Hx. unfold op_8XYE.
  run_getv. run_setv. run_getv.
  rewrite setv_ok by auto with chip8.
  rewrite reg_insert_ne by lia. reflexivity.
Qed.

(** C1 (evaluation at the failing input).  With V[0] = 128 the call that
    fetches 800E leaves V[F] = 1 and V[0] = 256, which is not an 8-bit
    value; (128 << 1) mod 256 is 0. *)
Theorem C1_shift_left_exceeds_byte :
  fetch shift_state = Some 0x800E
  /\ reg shift_state 0 = 128
  /\ outcome (run_once no_key 0 0 shift_state) = Returned tt
  /\ reg (final (run_once no_key 0 0 shift_state)) 0xF = 1
  /\ reg (final (run_once no_key 0 0 shift_state)) 0 = 256
  /\ Z.shiftl 128 1 mod 256 = 0.
Proof. repeat split; reflexivity. Qed.

(** ** Jumps (1NNN and BNNN) *)

Lemma op_1NNN_run w s :
  op_1NNN w s =
    mkResult (set_program_counter (Z.land w 0x0FFF) s)
      (if program_counter s - 2 =? Z.land w 0x0FFF
       then [actionPause_setChecked true] else [])
      (Returned tt).
Proof.
  unfold op_1NNN. run_pure.
  destruct (program_counter s - 2 =? Z.land w 0x0FFF); reflexivity.
Qed.

Lemma op_BNNN_run w s :
  registers_ok s ->
  op_BNNN w s =
    mkResult (set_program_counter (Z.land w 0x0FFF + reg s 0) s)
      (if program_counter s - 2 =? Z.land w 0x0FFF + reg s 0
       then [actionPause_setChecked true] else [])
      (Returned tt).
Proof.
  intros Hl. unfold op_BNNN. run_pure. run_getv.
  destruct (program_counter s - 2 =? Z.land w 0x0FFF + reg s 0).
  - erewrite bind_emits by reflexivity.
    rewrite (bind_pure _ _ _ _ _ (getv_ok s 0 Hl ltac:(lia))). reflexivity.
  - run_pure. run_getv. reflexivity.
Qed.

(** C7.  A call that fetches 1NNN at address [pc] returns with the
    program counter at NNN, and asks the host to pause exactly when
    NNN = [pc]; a call that fetches BNNN does the same with the target
    NNN + V[0].  The jump is made in both cases. *)
Theorem C7_jump_and_halt_signal keys font rand s s0 w :
  poll keys s = mkResult s0 [] (Returned true) ->
  fetch s0 = Some w ->
  let r := run_once keys font rand s in
  (Z.land w 0xF000 = 0x1000 ->
     outcome r = Returned tt
     /\ program_counter (final r) = NNN w
     /\ emitted r = (if NNN w =? program_counter s0
                     then [actionPause_setChecked true] else []))
  /\ (Z.land w 0xF000 = 0xB000 -> registers_ok s0 ->
     outcome r = Returned tt
     /\ program_counter (final r) = NNN w + reg s0 0
     /\ emitted r = (if NNN w + reg s0 0 =? program_counter s0
                     then [actionPause_setChecked true] else [])).
Proof.
  intros Hp Hf r. subst r. rewrite (run_once_fetches _ _ _ _ _ _ Hp Hf).
  split; [intros Hw | intros Hw Hl].
  - rewrite (execute_1NNN _ _ _ _ Hw), op_1NNN_run. cbn.
    replace (program_counter s0 + 2 - 2) with (program_counter s0) by lia.
    rewrite (Z.eqb_sym (program_counter s0)). repeat split; reflexivity.
  - rewrite (execute_BNNN _ _ _ _ Hw), op_BNNN_run by auto with chip8. cbn.
    replace (program_counter s0 + 2 - 2) with (program_counter s0) by lia.
    rewrite (Z.eqb_sym (program_counter s0)). repeat split; reflexivity.
Qed.

Lemma C7_jump_and_halt_signal_witness :
  program_counter (final (run_once no_key 0 0 (boot [x12; x00]))) = 0x200
  /\ emitted (run_once no_key 0 0 (boot [x12; x00])) = [actionPause_setChecked true]
  /\ program_counter (final (run_once no_key 0 0 (boot [x12; x08]))) = 0x208
  /\ emitted (run_once no_key 0 0 (boot [x12; x08])) = [].
Proof.
  destruct (C7_jump_and_halt_signal no_key 0 0 (boot [x12; x00]) (boot [x12; x00])
              0x1200 eq_refl eq_refl) as [H1 _].
  destruct (H1 eq_refl) as (_ & Hpc & Hev).
  destruct (C7_jump_and_halt_signal no_key 0 0 (boot [x12; x08]) (boot [x12; x08])
              0x1208 eq_refl eq_refl) as [H2 _].
  destruct (H2 eq_refl) as (_ & Hpc' & Hev').
  repeat split; assumption.
Defined.

(** ** Bytes and the store *)

Lemma byte_to_Z_range b : 0 <= byte_to_Z b < 256.
Proof. unfold byte_to_Z. pose proof (Byte.to_N_bounded b). lia. Qed.

Lemma byte_of_Z_ok z :
  0 <= z < 256 -> exists b, byte_of_Z z = Some b /\ byte_to_Z b = z.
Proof.
  intros Hz. unfold byte_of_Z, byte_to_Z.
  destruct (Z.leb_spec 0 z); [| lia].
  destruct (Byte.of_N (Z.to_N z)) as [b |] eqn:E.
  - exists b. split; [reflexivity |].
    apply Byte.to_of_N in E. rewrite E. lia.
  - apply Byte.of_N_None_iff in E. lia.
Qed.

Lemma in_span_true m a n :
  0 <= a -> 0 <= n -> a + n <= Z.of_nat (length m) -> in_span m a n = true.
Proof.
  intros Ha Hn Hl. unfold in_span.
  destruct (Z.leb_spec 0 a); [| lia].
  destruct (Z.leb_spec 0 n); [| lia].
  destruct (Z.leb_spec (a + n) (Z.of_nat (length m))); [reflexivity | lia].
Qed.

Lemma in_span_inv m a n :
  in_span m a n = true -> 0 <= a /\ 0 <= n /\ a + n <= Z.of_nat (length m).
Proof.
  unfold in_span. intros H.
  apply andb_true_iff in H as [H H3]. apply andb_true_iff in H as [H1 H2].
  apply Z.leb_le in H1, H2, H3. lia.
Qed.

Lemma store_ok s a x b :
  byte_of_Z x = Some b ->
  0 <= a < Z.of_nat (length (memory s)) ->
  store a x s =
    mkResult (set_memory (<[Z.to_nat a := b]> (memory s)) s) [] (Returned tt).
Proof.
  intros Hb Ha. unfold store. rewrite Hb.
  run_pure.
  erewrite bind_pure; [reflexivity |].
  unfold mem_set. rewrite in_span_true by lia. reflexivity.
Qed.

(** A range written is the range read back. *)
Lemma mem_set_get_range m a bs m' :
  mem_set_range m a bs = Some m' ->
  mem_get_range m' a (Z.of_nat (length bs)) = Some bs /\ length m' = length m.
Proof.
  unfold mem_set_range, mem_get_range.
  destruct (in_span m a (Z.of_nat (length bs))) eqn:E; [| discriminate].
  intros [= <-]. apply in_span_inv in E as (Ha & _ & Hl).
  assert (Hlen : length (take (Z.to_nat a) m ++ bs ++ drop (Z.to_nat a + length bs) m)
                 = length m).
  { rewrite !length_app, length_take, length_drop. lia. }
  rewrite Hlen, in_span_true by lia. split; [| reflexivity].
  f_equal. rewrite drop_app_length' by (rewrite length_take; lia).
  rewrite Nat2Z.id. apply take_app_length.
Qed.

Lemma from_to_bytes2 z bs :
  to_bytes2 z = Some bs -> from_bytes bs = z /\ length bs = 2%nat.
Proof.
  unfold to_bytes2.
  destruct ((0 <=? z) && (z <? 65536)) eqn:E; [| discriminate].
  apply andb_true_iff in E as [E1 E2]. apply Z.leb_le in E1. apply Z.ltb_lt in E2.
  destruct (byte_of_Z_ok (z / 256)) as (hi & Hhi & Hhi').
  { split; [apply Z.div_pos; lia | apply Z.div_lt_upper_bound; lia]. }
  destruct (byte_of_Z_ok (z mod 256)) as (lo & Hlo & Hlo').
  { apply Z.mod_pos_bound. lia. }
  rewrite Hhi, Hlo. intros [= <-]. split; [| reflexivity].
  unfold from_bytes. simpl. rewrite Hhi', Hlo'.
  rewrite (Z.div_mod z 256) at 3 by lia. lia.
Qed.

Lemma to_bytes2_ok z : 0 <= z < 65536 -> exists bs, to_bytes2 z = Some bs.
Proof.
  intros Hz. unfold to_bytes2.
  destruct (Z.leb_spec 0 z); [| lia]. destruct (Z.ltb_spec z 65536); [| lia].
  destruct (byte_of_Z_ok (z / 256)) as (hi & Hhi & _).
  { split; [apply Z.div_pos; lia | apply Z.div_lt_upper_bound; lia]. }
  destruct (byte_of_Z_ok (z mod 256)) as (lo & Hlo & _).
  { apply Z.mod_pos_bound. lia. }
  simpl. rewrite Hhi, Hlo. eauto.
Qed.

(** ** Binary-coded decimal (FX33) *)

(** C8.  A call that fetches FX33 with V[X] in [0, 255] and the three
    cells at the index register inside the store returns normally, having
    written V[X] div 100, (V[X] mod 100) div 10 and V[X] mod 10 at
    index_register, +1 and +2; besides those cells and the program
    counter, advanced past the instruction by the fetch, the state is as
    it was. *)
Theorem C8_bcd keys font rand s s0 w :
  poll keys s = mkResult s0 [] (Returned true) ->
  fetch s0 = Some w ->
  Z.land w 0xF0FF = 0xF033 ->
  registers_ok s0 ->
  0 <= reg s0 (X w) <= 255 ->
  0 <= index_register s0 ->
  index_register s0 + 3 <= Z.of_nat (length (memory s0)) ->
  exists hundreds tens ones : byte,
    byte_to_Z hundreds = reg s0 (X w) / 100
    /\ byte_to_Z tens = (reg s0 (X w) mod 100) / 10
    /\ byte_to_Z ones = reg s0 (X w) mod 10
    /\ run_once keys font rand s =
         mkResult
           (set_memory
              (<[Z.to_nat (index_register s0 + 2) := ones]>
                 (<[Z.to_nat (index_register s0 + 1) := tens]>
                    (<[Z.to_nat (index_register s0) := hundreds]> (memory s0))))
              (set_program_counter (program_counter s0 + 2) s0))
           [] (Returned tt).
Proof.
  intros Hp Hf Hw Hl Ha Hi Hm.
  set (a := reg s0 (X w)) in *.
  destruct (byte_of_Z_ok (a / 100)) as (h & Hh & Hh').
  { split; [apply Z.div_pos; lia | apply Z.div_lt_upper_bound; lia]. }
  destruct (byte_of_Z_ok ((a mod 100) / 10)) as (t & Ht & Ht').
  { pose proof (Z.mod_pos_bound a 100 ltac:(lia)).
    split; [apply Z.div_pos; lia | apply Z.div_lt_upper_bound; lia]. }
  destruct (byte_of_Z_ok ((a mod 100) mod 10)) as (o & Ho & Ho').
  { pose proof (Z.mod_pos_bound (a mod 100) 10 ltac:(lia)). lia. }
  exists h, t, o. repeat split; [assumption | assumption | |].
  - rewrite Ho'. change 100 with (10 * 10).
    rewrite Z.rem_mul_r by lia. rewrite (Z.mul_comm 10), Z.mod_add by lia.
    apply Z.mod_mod. lia.
  - rewrite (run_once_fetches _ _ _ _ _ _ Hp Hf), (execute_FX33 _ _ _ _ Hw).
    unfold op_FX33. run_getv. fold a. run_pure.
    erewrite bind_pure by (apply (store_ok _ _ _ h Hh); cbn [memory index_register set_memory set_program_counter]; lia).
    run_pure.
    erewrite bind_pure
      by (apply (store_ok _ _ _ t Ht); cbn [memory index_register set_memory set_program_counter];
          rewrite length_insert; lia).
    run_pure.
    rewrite (store_ok _ _ _ o Ho) by (cbn [memory index_register set_memory set_program_counter]; rewrite !length_insert; lia).
    reflexivity.
Qed.

Lemma C8_bcd_witness :
  exists hundreds tens ones : byte,
    byte_to_Z hundreds = 1 /\ byte_to_Z tens = 5 /\ byte_to_Z ones = 7
    /\ mem_get_range (memory (final (run_once no_key 0 0 bcd_state))) 0x300 3
       = Some [hundreds; tens; ones].
Proof.
  destruct (C8_bcd no_key 0 0 bcd_state bcd_state 0xF233
              eq_refl eq_refl eq_refl eq_refl)
    as (h & t & o & Hh & Ht & Ho & Hrun).
  - vm_compute. split; discriminate.
  - vm_compute. discriminate.
  - vm_compute. discriminate.
  - exists h, t, o. rewrite Hrun. repeat split; assumption.
Defined.

(** ** Call and return (2NNN, 00EE) *)

Lemma bind_returned_inv {A B} (m : M A) (k : A -> M B) s s' ev b :
  bind m k s = mkResult s' ev (Returned b) ->
  exists a s1 ev1 ev2,
    m s = mkResult s1 ev1 (Returned a)
    /\ k a s1 = mkResult s' ev2 (Returned b)
    /\ ev = ev1 ++ ev2.
Proof.
  unfold bind. destruct (m s) as [s1 ev1 [a | e]]; simpl; [| discriminate].
  destruct (k a s1) as [s2 ev2 o] eqn:Hk. simpl. intros [= <- <- ->].
  exists a, s1, ev1, ev2. rewrite Hk. repeat split; reflexivity.
Qed.

Lemma poll_clears keys s s0 ev :
  poll keys s = mkResult s0 ev (Returned true) -> waiting_for_keypress s0 = false.
Proof.
  unfold poll. rewrite (bind_pure _ _ s s (waiting_for_keypress s)) by reflexivity.
  destruct (waiting_for_keypress s) eqn:Hw.
  - destruct (pressed_key keys) as [key |]; [| discriminate].
    intros H. apply bind_returned_inv in H as (a & s1 & ev1 & ev2 & _ & H & _).
    rewrite (bind_pure _ _ s1 (set_waiting_for_keypress false s1) tt) in H
      by reflexivity.
    injection H as <- _. reflexivity.
  - intros [= <- _]. exact Hw.
Qed.

Lemma op_2NNN_run w s bs m' :
  to_bytes2 (program_counter s) = Some bs ->
  mem_set_range (memory s) (stack_pointer s) bs = Some m' ->
  op_2NNN w s =
    mkResult
      (set_program_counter (Z.land w 0x0FFF)
         (set_stack_pointer (stack_pointer s + 2) (set_memory m' s)))
      [] (Returned tt).
Proof.
  intros Hb Hm. unfold op_2NNN. run_pure. rewrite Hb. run_pure. run_pure.
  erewrite bind_pure
    by (unfold store_range; erewrite bind_pure by (rewrite Hm; reflexivity);
        reflexivity).
  run_pure. run_pure. reflexivity.
Qed.

Lemma op_00EE_run s bs :
  mem_get_range (memory s) (stack_pointer s - 2) 2 = Some bs ->
  op_00EE s =
    mkResult
      (set_program_counter (from_bytes bs)
         (set_stack_pointer (stack_pointer s - 2) s))
      [] (Returned tt).
Proof.
  intros Hm. unfold op_00EE. run_pure. run_pure. run_pure.
  erewrite bind_pure by (unfold load_range; cbn [memory stack_pointer set_stack_pointer];
        rewrite Hm; reflexivity).
  reflexivity.
Qed.

(** C6.  A call that fetches 2NNN at address [pc], with the two cells at
    the stack pointer inside the store, writes [pc + 2] there as two
    big-endian bytes, moves the stack pointer up by 2 and jumps to NNN;
    when the next call fetches 00EE it moves the stack pointer back down
    by 2 and reads those bytes: the program counter is [pc + 2] again and
    the stack pointer is where it was before the call. *)
Theorem C6_call_return keys font rand keys' font' rand' s s0 w :
  poll keys s = mkResult s0 [] (Returned true) ->
  fetch s0 = Some w ->
  Z.land w 0xF000 = 0x2000 ->
  0 <= stack_pointer s0 ->
  stack_pointer s0 + 2 <= Z.of_nat (length (memory s0)) ->
  program_counter s0 + 2 < 65536 ->
  let r1 := run_once keys font rand s in
  fetch (final r1) = Some 0x00EE ->
  let r2 := run_once keys' font' rand' (final r1) in
  outcome r1 = Returned tt
  /\ program_counter (final r1) = NNN w
  /\ stack_pointer (final r1) = stack_pointer s0 + 2
  /\ (from_bytes <$> mem_get_range (memory (final r1)) (stack_pointer s0) 2)
     = Some (program_counter s0 + 2)
  /\ outcome r2 = Returned tt
  /\ program_counter (final r2) = program_counter s0 + 2
  /\ stack_pointer (final r2) = stack_pointer s0.
Proof.
  intros Hp Hf Hw Hsp Hsp' Hpc r1.
  destruct (fetch_inv _ _ Hf) as (ibs & Hibs & _).
  unfold mem_get_range in Hibs.
  destruct (in_span _ _ _) eqn:Hspan in Hibs; [| discriminate].
  apply in_span_inv in Hspan as (Hpc0 & _).
  destruct (to_bytes2_ok (program_counter s0 + 2)) as (bs & Hbs); [lia |].
  destruct (from_to_bytes2 _ _ Hbs) as (Hfrom & Hlen).
  assert (Hset : exists m', mem_set_range (memory s0) (stack_pointer s0) bs = Some m').
  { unfold mem_set_range. rewrite Hlen, in_span_true by lia. eauto. }
  destruct Hset as (m' & Hm').
  destruct (mem_set_get_range _ _ _ _ Hm') as (Hget & _). rewrite Hlen in Hget.
  change (Z.of_nat 2) with 2 in Hget.
  assert (Hr1 : r1 = mkResult
                  (set_program_counter (Z.land w 0x0FFF)
                     (set_stack_pointer (stack_pointer s0 + 2)
                        (set_memory m' (set_program_counter (program_counter s0 + 2) s0))))
                  [] (Returned tt)).
  { subst r1. rewrite (run_once_fetches _ _ _ _ _ _ Hp Hf), (execute_2NNN _ _ _ _ Hw).
    rewrite (op_2NNN_run w _ bs m'); [reflexivity | exact Hbs | exact Hm']. }
  rewrite Hr1. cbn [final outcome]. intros Hf2.
  set (r2 := run_once keys' font' rand' _).
  assert (Hr2 : r2 = mkResult
                  (set_program_counter (program_counter s0 + 2)
                     (set_stack_pointer (stack_pointer s0)
                        (set_program_counter (Z.land w 0x0FFF + 2)
                           (set_program_counter (Z.land w 0x0FFF)
                              (set_stack_pointer (stack_pointer s0 + 2)
                                 (set_memory m'
                                    (set_program_counter (program_counter s0 + 2) s0)))))))
                  [] (Returned tt)).
  { subst r2.
    erewrite run_once_fetches;
      [| apply poll_running; cbn; exact (poll_clears _ _ _ _ Hp) | exact Hf2].
    rewrite execute_00EE. cbn [program_counter set_program_counter].
    erewrite op_00EE_run.
    - rewrite Hfrom. cbn [stack_pointer set_stack_pointer set_program_counter].
      replace (stack_pointer s0 + 2 - 2) with (stack_pointer s0) by lia.
      reflexivity.
    - cbn [memory stack_pointer set_stack_pointer set_program_counter set_memory].
      replace (stack_pointer s0 + 2 - 2) with (stack_pointer s0) by lia.
      exact Hget. }
  rewrite Hr2. cbn [final outcome program_counter stack_pointer memory
                    set_program_counter set_stack_pointer set_memory].
  rewrite Hget. cbn. rewrite Hfrom. repeat split; reflexivity.
Qed.

Lemma C6_call_return_witness :
  program_counter (final (run_once no_key 0 0 call_state)) = 0x204
  /\ program_counter
       (final (run_once no_key 0 0 (final (run_once no_key 0 0 call_state)))) = 0x202
  /\ stack_pointer
       (final (run_once no_key 0 0 (final (run_once no_key 0 0 call_state))))
     = STACK_POINTER_START.
Proof.
  destruct (C6_call_return no_key 0 0 no_key 0 0 call_state call_state 0x2204
              eq_refl eq_refl eq_refl)
    as (_ & H1 & _ & _ & _ & H2 & H3).
  - vm_compute. discriminate.
  - vm_compute. discriminate.
  - reflexivity.
  - reflexivity.
  - repeat split; assumption.
Defined.

(** ** The key poll *)

Lemma latch_key_cases key s :
  (exists e, latch_key key s = mkResult s [] (Raised e)
             /\ (e = TypeError \/ e = IndexError))
  \/ (exists t n,
        keypress_target s = Some t
        /\ list_index (length (v s)) t = Some n
        /\ latch_key key s =
             mkResult (set_v (<[n := key]> (v s)) s) [] (Returned tt)).
Proof.
  unfold latch_key.
  rewrite (bind_pure _ _ s s (keypress_target s)) by reflexivity.
  destruct (keypress_target s) as [t |] eqn:Ht.
  - unfold setv, bind.
    destruct (list_index (length (v s)) t) as [n |] eqn:Hn.
    + right. exists t, n. repeat split; first [assumption | reflexivity].
    + left. exists IndexError. split; [reflexivity | right; reflexivity].
  - left. exists TypeError. split; [reflexivity | left; reflexivity].
Qed.

(** What the poll of lines 83-91 can do: nothing in Running, nothing but
    leave when no key is pressed, fail on a latch target that is no
    register, or write the first pressed key and clear the latch. *)
Lemma poll_cases keys s :
  (waiting_for_keypress s = false
   /\ poll keys s = mkResult s [] (Returned true))
  \/ (waiting_for_keypress s = true /\ pressed_key keys = None
      /\ poll keys s = mkResult s [] (Returned false))
  \/ (waiting_for_keypress s = true
      /\ exists e, poll keys s = mkResult s [] (Raised e)
                   /\ (e = TypeError \/ e = IndexError))
  \/ (waiting_for_keypress s = true
      /\ exists key t n,
           pressed_key keys = Some key
           /\ keypress_target s = Some t
           /\ list_index (length (v s)) t = Some n
           /\ poll keys s =
                mkResult
                  (set_waiting_for_keypress false (set_v (<[n := key]> (v s)) s))
                  [] (Returned true)).
Proof.
  unfold poll. rewrite (bind_pure _ _ s s (waiting_for_keypress s)) by reflexivity.
  destruct (waiting_for_keypress s) eqn:Hw; [| left; split; reflexivity].
  right. destruct (pressed_key keys) as [key |] eqn:Hk;
    [| left; repeat split; reflexivity].
  right.
  destruct (latch_key_cases key s) as [(e & He & Hor) | (t & n & Ht & Hn & Hl)].
  - left. split; [reflexivity |]. exists e. split; [| exact Hor].
    apply bind_raised. exact He.
  - right. split; [reflexivity |]. exists key, t, n.
    repeat split; try assumption.
    rewrite (bind_pure _ _ _ _ _ Hl). reflexivity.
Qed.

(** The key written is the lowest pressed one. *)
Lemma pressed_key_first keys key :
  pressed_key keys = Some key ->
  0 <= key < 16 /\ keys key = true
  /\ forall j, 0 <= j < key -> keys j = false.
Proof.
  unfold pressed_key.
  change (range 16) with [0; 1; 2; 3; 4; 5; 6; 7; 8; 9; 10; 11; 12; 13; 14; 15].
  cbn [find].
  repeat (lazymatch goal with
          | |- (if keys ?k then _ else _) = _ -> _ => destruct (keys k) eqn:?
          end;
          [ intros [= <-]; split; [lia |]; split; [assumption |];
            intros j Hj;
            repeat match goal with
              | H : keys ?k = false |- _ =>
                  destruct (Z.eq_dec j k) as [-> |]; [intros; exact H |]; revert H
              end; intros; exfalso; lia
          | ]).
  discriminate.
Qed.

Lemma poll_idle keys s :
  waiting_for_keypress s = true -> pressed_key keys = None ->
  poll keys s = mkResult s [] (Returned false).
Proof.
  intros Hw Hk. unfold poll.
  rewrite (bind_pure _ _ s s (waiting_for_keypress s)) by reflexivity.
  rewrite Hw, Hk. reflexivity.
Qed.

Lemma poll_latches keys s key t :
  waiting_for_keypress s = true -> pressed_key keys = Some key ->
  keypress_target s = Some t -> 0 <= t < 16 -> registers_ok s ->
  poll keys s =
    mkResult (set_waiting_for_keypress false (set_v (<[Z.to_nat t := key]> (v s)) s))
      [] (Returned true).
Proof.
  intros Hw Hk Ht Hrange Hl.
  assert (Hlatch : latch_key key s =
                   mkResult (set_v (<[Z.to_nat t := key]> (v s)) s) [] (Returned tt)).
  { unfold latch_key.
    rewrite (bind_pure _ _ s s (keypress_target s)) by reflexivity.
    rewrite Ht. apply setv_ok; assumption. }
  unfold poll.
  rewrite (bind_pure _ _ s s (waiting_for_keypress s)) by reflexivity.
  rewrite Hw, Hk, (bind_pure _ _ _ _ _ Hlatch). reflexivity.
Qed.

(** *** What the instruction after the latch does *)

Lemma nr_ret {A} (a : A) : never_rewinds (ret a).
Proof. intros s. cbn. lia. Qed.

Lemma nr_raise {A} e : never_rewinds (@raise A e).
Proof. intros s. cbn. lia. Qed.

Lemma nr_gets {A} (f : Emulator -> A) : never_rewinds (gets f).
Proof. intros s. cbn. lia. Qed.

Lemma nr_emit e : never_rewinds (emit e).
Proof. intros s. cbn. lia. Qed.

Lemma nr_modify f :
  (forall s, program_counter s <= program_counter (f s)) ->
  never_rewinds (modify f).
Proof. intros Hf s. exact (Hf s). Qed.

Lemma nr_lift {A} e (o : option A) : never_rewinds (lift e o).
Proof. intros s. destruct o; cbn; lia. Qed.

Lemma nr_lift_at {A} e (f : Emulator -> option A) :
  never_rewinds (fun s => lift e (f s) s).
Proof. intros s. destruct (f s); cbn; lia. Qed.

Lemma nr_bind {A B} (m : M A) (k : A -> M B) :
  never_rewinds m -> (forall a, never_rewinds (k a)) ->
  never_rewinds (bind m k).
Proof.
  intros Hm Hk s. unfold bind. specialize (Hm s).
  destruct (outcome (m s)) as [a | e]; cbn [final]; [| exact Hm].
  specialize (Hk a (final (m s))). lia.
Qed.

Lemma nr_if {A} (c : bool) (m1 m2 : M A) :
  never_rewinds m1 -> never_rewinds m2 ->
  never_rewinds (if c then m1 else m2).
Proof. destruct c; auto. Qed.

Lemma nr_draw x y sprite : never_rewinds (draw x y sprite).
Proof. intros s. cbn. lia. Qed.

(** The one write of the program counter outside the jumps adds 2. *)
Lemma nr_advance : never_rewinds advance.
Proof. intros s. cbn. lia. Qed.

Ltac nr_step :=
  first
    [ apply nr_ret | apply nr_raise | apply nr_gets | apply nr_emit
    | apply nr_lift | apply nr_lift_at | apply nr_draw | apply nr_advance
    | apply nr_modify; intros ?; cbn; lia
    | apply nr_if
    | apply nr_bind; [| intros ?] ].

Lemma nr_getv i : never_rewinds (getv i).
Proof. unfold getv. nr_step. Qed.

Lemma nr_setv i x : never_rewinds (setv i x).
Proof. unfold setv. repeat nr_step. Qed.

Lemma nr_load a : never_rewinds (load a).
Proof. unfold load. nr_step. Qed.

Lemma nr_store a x : never_rewinds (store a x).
Proof. unfold store. repeat nr_step. Qed.

Lemma nr_load_range a n : never_rewinds (load_range a n).
Proof. unfold load_range. nr_step. Qed.

Lemma nr_store_range a bs : never_rewinds (store_range a bs).
Proof. unfold store_range. repeat nr_step. Qed.

Lemma nr_for_each l body :
  (forall i, never_rewinds (body i)) -> never_rewinds (for_each l body).
Proof.
  intros Hb. induction l as [| i l IH]; simpl.
  - apply nr_ret.
  - apply nr_bind; [apply Hb | intros _; exact IH].
Qed.

Lemma nr_while_above_255 fuel x c : never_rewinds (while_above_255 fuel x c).
Proof.
  revert c. induction fuel as [| fuel IH]; intros c; simpl.
  - apply nr_ret.
  - apply nr_bind; [apply nr_getv | intros a].
    apply nr_if; [| apply nr_ret].
    apply nr_bind; [apply nr_setv | intros _; apply IH].
Qed.

Lemma nr_while_below_0 fuel x c : never_rewinds (while_below_0 fuel x c).
Proof.
  revert c. induction fuel as [| fuel IH]; intros c; simpl.
  - apply nr_ret.
  - apply nr_bind; [apply nr_getv | intros a].
    apply nr_if; [| apply nr_ret].
    apply nr_bind; [apply nr_setv | intros _; apply IH].
Qed.

Ltac nr_solve :=
  repeat first
    [ apply nr_getv | apply nr_setv | apply nr_load | apply nr_store
    | apply nr_load_range | apply nr_store_range
    | apply nr_while_above_255 | apply nr_while_below_0
    | apply nr_for_each; intros ?
    | nr_step ].

(** An instruction that does not move the program counter back leaves
    it at least where the advance put it. *)
Lemma never_rewinds_never_silent {A} (m : M A) :
  never_rewinds m -> never_silent m.
Proof.
  intros H s a _ E. specialize (H s). rewrite E in H. cbn in H. lia.
Qed.

Lemma ns_if {A} (c : bool) (m1 m2 : M A) :
  never_silent m1 -> never_silent m2 -> never_silent (if c then m1 else m2).
Proof. destruct c; auto. Qed.

(** A jump back onto its own address emits the pause signal. *)
Lemma ns_op_1NNN w : never_silent (op_1NNN w).
Proof.
  intros s a _ E. rewrite op_1NNN_run in E.
  pose proof (f_equal (fun r => program_counter (final r)) E) as Hpc.
  pose proof (f_equal emitted E) as Hev. cbn in Hpc, Hev.
  rewrite <- Hpc, Z.eqb_refl in Hev. discriminate.
Qed.

Lemma ns_op_BNNN w : never_silent (op_BNNN w).
Proof.
  intros s a Hl E. rewrite (op_BNNN_run w s Hl) in E.
  pose proof (f_equal (fun r => program_counter (final r)) E) as Hpc.
  pose proof (f_equal emitted E) as Hev. cbn in Hpc, Hev.
  rewrite <- Hpc, Z.eqb_refl in Hev. discriminate.
Qed.

(** A return lowers the stack pointer, a call that returns has raised
    it. *)
Lemma ns_op_00EE : never_silent op_00EE.
Proof.
  intros s a _ E.
  pose proof (f_equal (fun r => stack_pointer (final r)) E) as Hsp.
  revert Hsp. unfold op_00EE, load_range, bind, gets, modify, lift. cbn.
  destruct (mem_get_range _ _ _); cbn; lia.
Qed.

Lemma ns_op_2NNN w : never_silent (op_2NNN w).
Proof.
  intros s a _ E.
  pose proof (f_equal (fun r => stack_pointer (final r)) E) as Hsp.
  pose proof (f_equal (fun r => match outcome r with
                                | Returned _ => true
                                | Raised _ => false
                                end) E) as Hout.
  revert Hsp Hout. unfold op_2NNN, store_range, bind, gets, modify, lift. cbn.
  destruct (to_bytes2 _); cbn; [| discriminate].
  destruct (mem_set_range _ _ _); cbn; [lia | discriminate].
Qed.

(** Whatever word is executed after the advance, the call is not a
    silent return to the state before it: it raises, or emits a signal,
    or leaves the program counter or the stack pointer elsewhere. *)
Lemma execute_never_silent keys font rand w :
  never_silent (execute keys font rand w).
Proof.
  unfold execute.
  repeat lazymatch goal with
    | |- never_silent (if ?c then _ else _) => apply ns_if
    end;
  lazymatch goal with
  | |- never_silent op_00EE => exact ns_op_00EE
  | |- never_silent (op_1NNN _) => apply ns_op_1NNN
  | |- never_silent (op_2NNN _) => apply ns_op_2NNN
  | |- never_silent (op_BNNN _) => apply ns_op_BNNN
  | |- _ =>
      apply never_rewinds_never_silent;
      unfold op_00E0, op_3XNN, op_4XNN, op_5XY0,
        op_6XNN, op_7XNN, op_8XY0, op_8XY1, op_8XY2, op_8XY3, op_8XY4,
        op_8XY5, op_8XY6, op_8XY7, op_8XYE, op_9XY0, op_ANNN,
        op_CXNN, op_DXYN, op_EX9E, op_EXA1, op_FX07, op_FX0A, op_FX15,
        op_FX18, op_FX1E, op_FX29, op_FX33, op_FX55, op_FX65, unimplemented,
        reset_video, wrap_above_255, wrap_below_0;
      solve [nr_solve]
  end.
Qed.

(** A call that gets past the key poll and cannot read the two cells at
    the program counter raises the store's error there. *)
Lemma run_once_fetch_fails keys font rand s s0 :
  poll keys s = mkResult s0 [] (Returned true) ->
  fetch s0 = None ->
  run_once keys font rand s = mkResult s0 [] (Raised OutOfBounds).
Proof.
  intros Hp Hf. unfold run_once. rewrite (bind_pure _ _ _ _ _ Hp).
  unfold fetch_execute.
  rewrite (bind_pure _ _ s0 s0 (program_counter s0)) by reflexivity.
  apply bind_raised. unfold load_range, fetch in *.
  destruct (mem_get_range _ _ _); [discriminate | reflexivity].
Qed.

(** C2 (amended).  While the latch is set, a call during which no key is
    pressed returns at once and changes nothing.  A call during which a
    key is pressed writes the lowest pressed key K into the recorded
    target register, clears the latch, and then goes on in the same call
    to fetch and execute the instruction at the program counter: it
    raises the store's error if the two cells there cannot be read, and
    otherwise ends as the chain of lines 96-394 does on the word read,
    run with the program counter already advanced by 2.  In particular
    the call never ends as the bare latch (key written, latch cleared,
    nothing else): it raises, emits a signal, or leaves the program
    counter or the stack pointer elsewhere. *)
Theorem C2_await_key keys font rand s :
  waiting_for_keypress s = true ->
  match pressed_key keys with
  | None => run_once keys font rand s = mkResult s [] (Returned tt)
  | Some K =>
      forall t, keypress_target s = Some t -> 0 <= t < 16 -> registers_ok s ->
        let s1 := set_waiting_for_keypress false
                    (set_v (<[Z.to_nat t := K]> (v s)) s) in
        let r := run_once keys font rand s in
        (0 <= K < 16 /\ keys K = true /\ forall j, 0 <= j < K -> keys j = false)
        /\ r = fetch_execute keys font rand s1
        /\ match fetch s1 with
           | None => r = mkResult s1 [] (Raised OutOfBounds)
           | Some w =>
               r = execute keys font rand w
                     (set_program_counter (program_counter s + 2) s1)
           end
        /\ r <> mkResult s1 [] (Returned tt)
  end.
Proof.
  intros Hw.
  destruct (pressed_key keys) as [K |] eqn:Hk.
  - intros t Ht Hrange Hl s1 r.
    pose proof (poll_latches keys s K t Hw Hk Ht Hrange Hl) as Hp.
    fold s1 in Hp.
    assert (Hl1 : registers_ok s1)
      by (unfold s1, registers_ok; cbn; rewrite length_insert; exact Hl).
    split; [exact (pressed_key_first keys K Hk) |].
    split; [unfold r, run_once; rewrite (bind_pure _ _ _ _ _ Hp); reflexivity |].
    destruct (fetch s1) as [w |] eqn:Hf.
    + assert (Hr : r = execute keys font rand w
                         (set_program_counter (program_counter s + 2) s1))
        by exact (run_once_fetches keys font rand s s1 w Hp Hf).
      split; [exact Hr |].
      rewrite Hr. intros E.
      apply (execute_never_silent keys font rand w
               (set_program_counter (program_counter s + 2) s1) tt Hl1).
      rewrite E. unfold s1, set_program_counter, set_waiting_for_keypress, set_v.
      cbn. do 2 f_equal. lia.
    + assert (Hr : r = mkResult s1 [] (Raised OutOfBounds))
        by exact (run_once_fetch_fails keys font rand s s1 Hp Hf).
      split; [exact Hr |]. rewrite Hr. discriminate.
  - unfold run_once.
    rewrite (bind_pure _ _ _ _ _ (poll_idle keys s Hw Hk)). reflexivity.
Qed.

(** With no key pressed the waiting machine stays as it is.  With key 5
    pressed and 6A07 at the program counter the same call leaves
    V[3] = 5, the latch cleared, the program counter at 514 and
    V[A] = 7. *)
Lemma C2_await_key_witness :
  run_once no_key 0 0 waiting_state = mkResult waiting_state [] (Returned tt)
  /\ outcome (run_once (only_key 5) 0 0 waiting_state) = Returned tt
  /\ reg (final (run_once (only_key 5) 0 0 waiting_state)) 3 = 5
  /\ waiting_for_keypress (final (run_once (only_key 5) 0 0 waiting_state)) = false
  /\ program_counter (final (run_once (only_key 5) 0 0 waiting_state)) = 514
  /\ reg (final (run_once (only_key 5) 0 0 waiting_state)) 0xA = 7.
Proof.
  split.
  - exact (C2_await_key no_key 0 0 waiting_state eq_refl).
  - pose proof (C2_await_key (only_key 5) 0 0 waiting_state eq_refl 3 eq_refl
                  ltac:(lia) eq_refl) as H.
    cbv zeta in H. destruct H as (_ & _ & Hrun & _).
    change (run_once (only_key 5) 0 0 waiting_state =
              execute (only_key 5) 0 0 0x6A07
                (set_program_counter (program_counter waiting_state + 2)
                   (set_waiting_for_keypress false
                      (set_v (<[Z.to_nat 3 := 5]> (v waiting_state))
                         waiting_state)))) in Hrun.
    rewrite Hrun. vm_compute. repeat split; reflexivity.
Defined.

(** C2 as stated fails: with the latch set on V[3], key 5 pressed and
    6A07 at the program counter, the call that latches the key also
    fetches and executes 6A07: the program counter moves and V[A] is
    loaded in that same call. *)
Lemma C2_counterexample :
  waiting_for_keypress waiting_state = true
  /\ pressed_key (only_key 5) = Some 5
  /\ reg (final (run_once (only_key 5) 0 0 waiting_state)) 3 = 5
  /\ waiting_for_keypress (final (run_once (only_key 5) 0 0 waiting_state)) = false
  /\ program_counter (final (run_once (only_key 5) 0 0 waiting_state))
     <> program_counter waiting_state
  /\ reg (final (run_once (only_key 5) 0 0 waiting_state)) 0xA
     <> reg waiting_state 0xA.
Proof. repeat split; vm_compute; discriminate. Qed.

(** ** Unimplemented instructions *)

(** C3 (amended).  A call that gets past the key poll in state [s0] and
    fetches a word no test of the chain accepts emits the error event
    and then raises UnimplementedInstruction, both carrying that word and
    the address it was fetched from.  The call leaves [s0] as it is but
    for the program counter, advanced by 2: no memory byte and no
    framebuffer pixel is changed, and a call that began in Running
    changes no register either (a call that began with the latch set has
    written the pressed key into the target register before the fetch). *)
Theorem C3_unimplemented keys font rand s s0 w :
  poll keys s = mkResult s0 [] (Returned true) ->
  fetch s0 = Some w ->
  implemented w = false ->
  let r := run_once keys font rand s in
  let e := UnimplementedInstruction w (program_counter s0) in
  outcome r = Raised e
  /\ emitted r = [emulation_error e]
  /\ final r = set_program_counter (program_counter s0 + 2) s0
  /\ program_counter s0 = program_counter s
  /\ memory (final r) = memory s
  /\ video_memory (final r) = video_memory s
  /\ (waiting_for_keypress s = false ->
      final r = set_program_counter (program_counter s + 2) s).
Proof.
  intros Hp Hf Hw r e. subst r e.
  rewrite (run_once_fetches _ _ _ _ _ _ Hp Hf), (execute_unimplemented _ _ _ _ Hw).
  unfold unimplemented.
  rewrite (bind_pure _ _ _ _ (program_counter s0 + 2)) by reflexivity.
  replace (program_counter s0 + 2 - 2) with (program_counter s0) by lia.
  cbn [bind emit raise final emitted outcome app].
  split; [reflexivity |]. split; [reflexivity |]. split; [reflexivity |].
  destruct (poll_cases keys s)
    as [(Hrun & Hp') | [(_ & _ & Hp') | [(_ & e & Hp' & _) | (Hwait & H)]]].
  - rewrite Hp in Hp'. injection Hp' as ->.
    repeat split; reflexivity.
  - rewrite Hp in Hp'. discriminate.
  - rewrite Hp in Hp'. discriminate.
  - destruct H as (key & t & n & _ & _ & _ & Hp').
    rewrite Hp in Hp'. injection Hp' as ->.
    repeat split; try reflexivity. congruence.
Qed.

Lemma C3_unimplemented_witness :
  outcome (run_once no_key 0 0 (boot [x0f; xff]))
    = Raised (UnimplementedInstruction 0x0FFF 0x200)
  /\ emitted (run_once no_key 0 0 (boot [x0f; xff]))
     = [emulation_error (UnimplementedInstruction 0x0FFF 0x200)]
  /\ final (run_once no_key 0 0 (boot [x0f; xff]))
     = set_program_counter 0x202 (boot [x0f; xff]).
Proof.
  destruct (C3_unimplemented no_key 0 0 (boot [x0f; xff]) (boot [x0f; xff]) 0x0FFF
              eq_refl eq_refl eq_refl) as (Ho & He & Hs & _).
  repeat split; assumption.
Defined.

(** C3 as stated fails when the call begins with the latch set: with the
    latch on V[3], key 5 pressed and 0FFF at the program counter, the call
    raises UnimplementedInstruction and has changed V[3]. *)
Lemma C3_counterexample :
  fetch waiting_at_0FFF = Some 0x0FFF
  /\ implemented 0x0FFF = false
  /\ outcome (run_once (only_key 5) 0 0 waiting_at_0FFF)
     = Raised (UnimplementedInstruction 0x0FFF 0x200)
  /\ reg (final (run_once (only_key 5) 0 0 waiting_at_0FFF)) 3
     <> reg waiting_at_0FFF 3.
Proof. repeat split; vm_compute; discriminate. Qed.

(** ** No other branch raises UnimplementedInstruction *)

Lemma nu_ret {A} (a : A) : never_unimplemented (ret a).
Proof. intros s i a'. discriminate. Qed.

Lemma nu_gets {A} (f : Emulator -> A) : never_unimplemented (gets f).
Proof. intros s i a. discriminate. Qed.

Lemma nu_modify f : never_unimplemented (modify f).
Proof. intros s i a. discriminate. Qed.

Lemma nu_emit e : never_unimplemented (emit e).
Proof. intros s i a. discriminate. Qed.

Lemma nu_raise {A} e :
  (forall i a, e <> UnimplementedInstruction i a) ->
  never_unimplemented (@raise A e).
Proof. intros He s i a [= H]. exact (He i a H). Qed.

Lemma nu_lift {A} e (o : option A) :
  (forall i a, e <> UnimplementedInstruction i a) -> never_unimplemented (lift e o).
Proof.
  intros He s i a. destruct o; simpl; [discriminate |].
  intros [= H]. exact (He i a H).
Qed.

Lemma nu_lift_at {A} e (f : Emulator -> option A) :
  (forall i a, e <> UnimplementedInstruction i a) ->
  never_unimplemented (fun s => lift e (f s) s).
Proof. intros He s. apply nu_lift. exact He. Qed.

Lemma nu_bind {A B} (m : M A) (k : A -> M B) :
  never_unimplemented m -> (forall a, never_unimplemented (k a)) ->
  never_unimplemented (bind m k).
Proof.
  intros Hm Hk s i a. unfold bind.
  destruct (outcome (m s)) as [x | e] eqn:E; simpl.
  - apply Hk.
  - intros [= ->]. exact (Hm s i a E).
Qed.

Lemma nu_if {A} (c : bool) (m1 m2 : M A) :
  never_unimplemented m1 -> never_unimplemented m2 ->
  never_unimplemented (if c then m1 else m2).
Proof. destruct c; auto. Qed.

Ltac nu_step :=
  first
    [ apply nu_ret | apply nu_gets | apply nu_modify | apply nu_emit
    | apply nu_raise; discriminate
    | apply nu_lift; discriminate
    | apply nu_lift_at; discriminate
    | apply nu_if
    | apply nu_bind; [| intros ?] ].

Lemma nu_getv i : never_unimplemented (getv i).
Proof. unfold getv. nu_step. Qed.

Lemma nu_setv i x : never_unimplemented (setv i x).
Proof. unfold setv. repeat nu_step. Qed.

Lemma nu_load a : never_unimplemented (load a).
Proof. unfold load. nu_step. Qed.

Lemma nu_store a x : never_unimplemented (store a x).
Proof. unfold store. repeat nu_step. Qed.

Lemma nu_load_range a n : never_unimplemented (load_range a n).
Proof. unfold load_range. nu_step. Qed.

Lemma nu_store_range a bs : never_unimplemented (store_range a bs).
Proof. unfold store_range. repeat nu_step. Qed.

Lemma nu_advance : never_unimplemented advance.
Proof. unfold advance. repeat nu_step. Qed.

Lemma nu_draw x y sprite : never_unimplemented (draw x y sprite).
Proof. intros s i a. discriminate. Qed.

Lemma nu_for_each l body :
  (forall i, never_unimplemented (body i)) -> never_unimplemented (for_each l body).
Proof.
  intros Hb. induction l as [| i l IH]; simpl.
  - apply nu_ret.
  - apply nu_bind; [apply Hb | intros _; exact IH].
Qed.

Lemma nu_while_above_255 fuel x c : never_unimplemented (while_above_255 fuel x c).
Proof.
  revert c. induction fuel as [| fuel IH]; intros c; simpl.
  - apply nu_ret.
  - apply nu_bind; [apply nu_getv | intros a].
    apply nu_if; [| apply nu_ret].
    apply nu_bind; [apply nu_setv | intros _; apply IH].
Qed.

Lemma nu_while_below_0 fuel x c : never_unimplemented (while_below_0 fuel x c).
Proof.
  revert c. induction fuel as [| fuel IH]; intros c; simpl.
  - apply nu_ret.
  - apply nu_bind; [apply nu_getv | intros a].
    apply nu_if; [| apply nu_ret].
    apply nu_bind; [apply nu_setv | intros _; apply IH].
Qed.

Ltac nu_solve :=
  repeat first
    [ apply nu_getv | apply nu_setv | apply nu_load | apply nu_store
    | apply nu_load_range | apply nu_store_range | apply nu_advance
    | apply nu_draw | apply nu_while_above_255 | apply nu_while_below_0
    | apply nu_for_each; intros ?
    | nu_step ].

(** Every branch of the chain but the last one. *)
Lemma execute_cases keys font rand w :
  never_unimplemented (execute keys font rand w)
  \/ execute keys font rand w = unimplemented w.
Proof.
  unfold execute.
  repeat lazymatch goal with
    | |- never_unimplemented (if ?c then _ else _) \/ _ =>
        destruct c;
        [ left;
          unfold op_00E0, op_00EE, op_1NNN, op_2NNN, op_3XNN, op_4XNN, op_5XY0,
            op_6XNN, op_7XNN, op_8XY0, op_8XY1, op_8XY2, op_8XY3, op_8XY4,
            op_8XY5, op_8XY6, op_8XY7, op_8XYE, op_9XY0, op_ANNN, op_BNNN,
            op_CXNN, op_DXYN, op_EX9E, op_EXA1, op_FX07, op_FX0A, op_FX15,
            op_FX18, op_FX1E, op_FX29, op_FX33, op_FX55, op_FX65,
            reset_video, wrap_above_255, wrap_below_0;
          solve [nu_solve]
        | ]
    end.
  right. reflexivity.
Qed.

Lemma fetch_execute_unimplemented_inv keys font rand s i a :
  outcome (fetch_execute keys font rand s) = Raised (UnimplementedInstruction i a) ->
  program_counter (final (fetch_execute keys font rand s)) = a + 2
  /\ a = program_counter s
  /\ fetch s = Some i.
Proof.
  unfold fetch_execute, fetch.
  rewrite (bind_pure _ _ s s (program_counter s)) by reflexivity.
  destruct (mem_get_range (memory s) (program_counter s) 2) as [bs |] eqn:Hm.
  - rewrite (bind_pure _ _ s s bs) by (unfold load_range; rewrite Hm; reflexivity).
    rewrite (bind_pure _ _ s (set_program_counter (program_counter s + 2) s) tt)
      by reflexivity.
    destruct (execute_cases keys font rand (from_bytes bs)) as [Hnu | ->].
    + intros H. exfalso. exact (Hnu _ _ _ H).
    + unfold unimplemented.
      rewrite (bind_pure _ _ _ _ (program_counter s + 2)) by reflexivity.
      cbn [bind emit raise final emitted outcome program_counter set_program_counter].
      intros [= <- <-]. simpl. repeat split; lia.
  - erewrite bind_raised by (unfold load_range; rewrite Hm; reflexivity).
    discriminate.
Qed.

(** C9.  Whenever a call fails with UnimplementedInstruction, the address
    it reports is the program counter the call started with, the word it
    reports is the one stored there, and the program counter is left at
    that address + 2: the advance of line 94 is not undone. *)
Theorem C9_program_counter_stays_advanced keys font rand s i a :
  outcome (run_once keys font rand s) = Raised (UnimplementedInstruction i a) ->
  program_counter (final (run_once keys font rand s)) = a + 2
  /\ a = program_counter s
  /\ fetch s = Some i.
Proof.
  unfold run_once.
  destruct (poll_cases keys s)
    as [(_ & Hp) | [(_ & _ & Hp) | [(_ & e & Hp & He) | (_ & H)]]].
  - rewrite (bind_pure _ _ _ _ _ Hp). apply fetch_execute_unimplemented_inv.
  - rewrite (bind_pure _ _ _ _ _ Hp). discriminate.
  - rewrite (bind_raised _ _ _ _ _ _ Hp). cbn [outcome].
    intros [= ->]. destruct He; discriminate.
  - destruct H as (key & t & n & _ & _ & _ & Hp).
    rewrite (bind_pure _ _ _ _ _ Hp). intros H.
    apply fetch_execute_unimplemented_inv in H. exact H.
Qed.

Lemma C9_program_counter_stays_advanced_witness :
  program_counter (final (run_once no_key 0 0 (boot [x0f; xff]))) = 0x200 + 2.
Proof.
  exact (proj1 (C9_program_counter_stays_advanced no_key 0 0 (boot [x0f; xff])
                  0x0FFF 0x200 eq_refl)).
Defined.

(** ** Determinism *)

(** Only the CXNN branch looks at the random value. *)
Lemma execute_rand_irrelevant keys font rand rand' w :
  Z.land w 0xF000 <> 0xC000 ->
  execute keys font rand w = execute keys font rand' w.
Proof.
  intros Hw. unfold execute.
  repeat lazymatch goal with
    | |- (if ?c then _ else _) = _ =>
        destruct c eqn:?; [first [reflexivity | exfalso; apply Hw, Z.eqb_eq; assumption] |]
    end.
  reflexivity.
Qed.

Lemma fetch_execute_rand_irrelevant keys font rand rand' s :
  (forall w, fetch s = Some w -> Z.land w 0xF000 <> 0xC000) ->
  fetch_execute keys font rand s = fetch_execute keys font rand' s.
Proof.
  intros Hw. unfold fetch_execute.
  rewrite !(bind_pure _ _ s s (program_counter s)) by reflexivity.
  destruct (mem_get_range (memory s) (program_counter s) 2) as [bs |] eqn:Hm.
  - rewrite !(bind_pure _ _ s s bs) by (unfold load_range; rewrite Hm; reflexivity).
    rewrite !(bind_pure _ _ s (set_program_counter (program_counter s + 2) s) tt)
      by reflexivity.
    rewrite (execute_rand_irrelevant keys font rand rand'); [reflexivity |].
    apply Hw. unfold fetch. rewrite Hm. reflexivity.
  - rewrite !(bind_raised _ _ s s [] OutOfBounds)
      by (unfold load_range; rewrite Hm; reflexivity).
    reflexivity.
Qed.

(** C10.  The call is a function of the emulator state (registers,
    memory, framebuffer, latch), the key predicate and the value drawn by
    [randint]; when the word at the program counter is not of the CXNN
    family the value drawn does not matter either: two calls from the same
    state with the same key predicate end in the same state, with the
    same signals and the same outcome. *)
Theorem C10_deterministic_outside_random keys font rand rand' s :
  (forall w, fetch s = Some w -> Z.land w 0xF000 <> 0xC000) ->
  run_once keys font rand s = run_once keys font rand' s.
Proof.
  intros Hw. unfold run_once.
  destruct (poll_cases keys s)
    as [(_ & Hp) | [(_ & _ & Hp) | [(_ & e & Hp & He) | (_ & H)]]].
  - rewrite !(bind_pure _ _ _ _ _ Hp).
    apply fetch_execute_rand_irrelevant. exact Hw.
  - rewrite !(bind_pure _ _ _ _ _ Hp). reflexivity.
  - rewrite !(bind_raised _ _ _ _ _ _ Hp). reflexivity.
  - destruct H as (key & t & n & _ & _ & _ & Hp).
    rewrite !(bind_pure _ _ _ _ _ Hp).
    apply fetch_execute_rand_irrelevant. exact Hw.
Qed.

Lemma C10_deterministic_outside_random_witness :
  run_once (only_key 5) 0 0 waiting_state = run_once (only_key 5) 0 255 waiting_state.
Proof.
  apply C10_deterministic_outside_random.
  intros w Hw. vm_compute in Hw. injection Hw as <-. vm_compute. discriminate.
Defined.

(** The exclusion is needed: C0FF stores the value drawn. *)
Lemma CXNN_depends_on_random :
  reg (final (run_once no_key 0 0 (boot [xc0; xff]))) 0 = 0
  /\ reg (final (run_once no_key 0 255 (boot [xc0; xff]))) 0 = 255.
Proof. split; reflexivity. Qed.

(** ** The register file keeps its sixteen cells *)

Lemma kr_ret {A} (a : A) : keeps_registers (ret a).
Proof. intros s H. exact H. Qed.

Lemma kr_raise {A} e : keeps_registers (@raise A e).
Proof. intros s H. exact H. Qed.

Lemma kr_gets {A} (f : Emulator -> A) : keeps_registers (gets f).
Proof. intros s H. exact H. Qed.

Lemma kr_emit e : keeps_registers (emit e).
Proof. intros s H. exact H. Qed.

Lemma kr_modify f :
  (forall s, registers_ok s -> registers_ok (f s)) -> keeps_registers (modify f).
Proof. intros Hf s H. exact (Hf s H). Qed.

Lemma kr_lift {A} e (o : option A) : keeps_registers (lift e o).
Proof. intros s H. destruct o; exact H. Qed.

Lemma kr_lift_at {A} e (f : Emulator -> option A) :
  keeps_registers (fun s => lift e (f s) s).
Proof. intros s H. destruct (f s); exact H. Qed.

Lemma kr_bind {A B} (m : M A) (k : A -> M B) :
  keeps_registers m -> (forall a, keeps_registers (k a)) ->
  keeps_registers (bind m k).
Proof.
  intros Hm Hk s H. unfold bind. specialize (Hm s H).
  destruct (outcome (m s)) as [a | e]; simpl; [apply Hk |]; exact Hm.
Qed.

Lemma kr_if {A} (c : bool) (m1 m2 : M A) :
  keeps_registers m1 -> keeps_registers m2 ->
  keeps_registers (if c then m1 else m2).
Proof. destruct c; auto. Qed.

Lemma kr_draw x y sprite : keeps_registers (draw x y sprite).
Proof. intros s H. exact H. Qed.

Ltac kr_step :=
  first
    [ apply kr_ret | apply kr_raise | apply kr_gets | apply kr_emit
    | apply kr_lift | apply kr_lift_at | apply kr_draw
    | apply kr_modify; intros ? ?;
      first [ assumption | apply registers_ok_insert; assumption ]
    | apply kr_if
    | apply kr_bind; [| intros ?] ].

Lemma kr_getv i : keeps_registers (getv i).
Proof. unfold getv. kr_step. Qed.

Lemma kr_setv i x : keeps_registers (setv i x).
Proof. unfold setv. repeat kr_step. Qed.

Lemma kr_load a : keeps_registers (load a).
Proof. unfold load. kr_step. Qed.

Lemma kr_store a x : keeps_registers (store a x).
Proof. unfold store. repeat kr_step. Qed.

Lemma kr_load_range a n : keeps_registers (load_range a n).
Proof. unfold load_range. kr_step. Qed.

Lemma kr_store_range a bs : keeps_registers (store_range a bs).
Proof. unfold store_range. repeat kr_step. Qed.

Lemma kr_for_each l body :
  (forall i, keeps_registers (body i)) -> keeps_registers (for_each l body).
Proof.
  intros Hb. induction l as [| i l IH]; simpl.
  - apply kr_ret.
  - apply kr_bind; [apply Hb | intros _; exact IH].
Qed.

Lemma kr_while_above_255 fuel x c : keeps_registers (while_above_255 fuel x c).
Proof.
  revert c. induction fuel as [| fuel IH]; intros c; simpl.
  - apply kr_ret.
  - apply kr_bind; [apply kr_getv | intros a].
    apply kr_if; [| apply kr_ret].
    apply kr_bind; [apply kr_setv | intros _; apply IH].
Qed.

Lemma kr_while_below_0 fuel x c : keeps_registers (while_below_0 fuel x c).
Proof.
  revert c. induction fuel as [| fuel IH]; intros c; simpl.
  - apply kr_ret.
  - apply kr_bind; [apply kr_getv | intros a].
    apply kr_if; [| apply kr_ret].
    apply kr_bind; [apply kr_setv | intros _; apply IH].
Qed.

Ltac kr_solve :=
  repeat first
    [ apply kr_getv | apply kr_setv | apply kr_load | apply kr_store
    | apply kr_load_range | apply kr_store_range
    | apply kr_while_above_255 | apply kr_while_below_0
    | apply kr_for_each; intros ?
    | kr_step ].

Lemma kr_execute keys font rand w : keeps_registers (execute keys font rand w).
Proof.
  unfold execute.
  repeat lazymatch goal with
    | |- keeps_registers (if ?c then _ else _) => apply kr_if
    end;
  unfold op_00E0, op_00EE, op_1NNN, op_2NNN, op_3XNN, op_4XNN, op_5XY0,
    op_6XNN, op_7XNN, op_8XY0, op_8XY1, op_8XY2, op_8XY3, op_8XY4,
    op_8XY5, op_8XY6, op_8XY7, op_8XYE, op_9XY0, op_ANNN, op_BNNN,
    op_CXNN, op_DXYN, op_EX9E, op_EXA1, op_FX07, op_FX0A, op_FX15,
    op_FX18, op_FX1E, op_FX29, op_FX33, op_FX55, op_FX65, unimplemented,
    reset_video, advance, wrap_above_255, wrap_below_0;
  solve [kr_solve].
Qed.

(** Whatever a call does, and however it ends, the register file it
    leaves has sixteen cells again. *)
Lemma run_once_keeps_registers keys font rand :
  keeps_registers (run_once keys font rand).
Proof.
  unfold run_once, poll, latch_key, fetch_execute, advance.
  apply kr_bind; [| intros go; apply kr_if; [| apply kr_ret]].
  - apply kr_bind; [kr_solve | intros w].
    destruct w; [| kr_solve]. destruct (pressed_key keys); [| kr_solve].
    apply kr_bind; [| intros; kr_solve].
    apply kr_bind; [kr_solve | intros t]. destruct t; kr_solve.
  - apply kr_bind; [kr_solve | intros pc].
    apply kr_bind; [kr_solve | intros bs].
    apply kr_bind; [kr_solve | intros _]. apply kr_execute.
Qed.

Lemma boot_registers_ok rom : registers_ok (boot rom).
Proof. reflexivity. Qed.

(** * Further properties *)

(** ** Dispatch of the remaining branches *)

Section DispatchMore.
Variables (is_key_pressed : Z -> bool) (FONT_START rand : Z).
Local Abbreviation execute := (execute is_key_pressed FONT_START rand).

Lemma execute_00E0 : execute 0x00E0 = op_00E0.
Proof. reflexivity. Qed.

Lemma execute_3XNN w : Z.land w 0xF000 = 0x3000 -> execute w = op_3XNN w.
Proof. intros H. dispatch H. Qed.

Lemma execute_4XNN w : Z.land w 0xF000 = 0x4000 -> execute w = op_4XNN w.
Proof. intros H. dispatch H. Qed.

Lemma execute_5XY0 w : Z.land w 0xF00F = 0x5000 -> execute w = op_5XY0 w.
Proof. intros H. dispatch H. Qed.

Lemma execute_6XNN w : Z.land w 0xF000 = 0x6000 -> execute w = op_6XNN w.
Proof. intros H. dispatch H. Qed.

Lemma execute_8XY5 w : Z.land w 0xF00F = 0x8005 -> execute w = op_8XY5 w.
Proof. intros H. dispatch H. Qed.

Lemma execute_8XY6 w : Z.land w 0xF00F = 0x8006 -> execute w = op_8XY6 w.
Proof. intros H. dispatch H. Qed.

Lemma execute_8XY7 w : Z.land w 0xF00F = 0x8007 -> execute w = op_8XY7 w.
Proof. intros H. dispatch H. Qed.

Lemma execute_9XY0 w : Z.land w 0xF00F = 0x9000 -> execute w = op_9XY0 w.
Proof. intros H. dispatch H. Qed.

Lemma execute_CXNN w :
  Z.land w 0xF000 = 0xC000 -> execute w = op_CXNN rand w.
Proof. intros H. dispatch H. Qed.

Lemma execute_EX9E w :
  Z.land w 0xF0FF = 0xE09E -> execute w = op_EX9E is_key_pressed w.
Proof. intros H. dispatch H. Qed.

Lemma execute_EXA1 w :
  Z.land w 0xF0FF = 0xE0A1 -> execute w = op_EXA1 is_key_pressed w.
Proof. intros H. dispatch H. Qed.

Lemma execute_FX07 w : Z.land w 0xF0FF = 0xF007 -> execute w = op_FX07 w.
Proof. intros H. dispatch H. Qed.

Lemma execute_FX0A w : Z.land w 0xF0FF = 0xF00A -> execute w = op_FX0A w.
Proof. intros H. dispatch H. Qed.

Lemma execute_FX15 w : Z.land w 0xF0FF = 0xF015 -> execute w = op_FX15 w.
Proof. intros H. dispatch H. Qed.

Lemma execute_FX1E w : Z.land w 0xF0FF = 0xF01E -> execute w = op_FX1E w.
Proof. intros H. dispatch H. Qed.

Lemma execute_FX55 w : Z.land w 0xF0FF = 0xF055 -> execute w = op_FX55 w.
Proof. intros H. dispatch H. Qed.

Lemma execute_FX65 w : Z.land w 0xF0FF = 0xF065 -> execute w = op_FX65 w.
Proof. intros H. dispatch H. Qed.

End DispatchMore.

(** ** Timers *)

Lemma decrement_timers_run s :
  decrement_timers s =
    mkResult
      (set_sound_timer (if sound_timer s >? 0 then sound_timer s - 1 else sound_timer s)
         (set_delay_timer (if delay_timer s >? 0 then delay_timer s - 1 else delay_timer s) s))
      [] (Returned tt).
Proof.
  unfold decrement_timers. run_pure.
  destruct s as [rv pc ir sp dt st wk kt mem vid]. cbn [delay_timer].
  destruct (dt >? 0); run_pure; run_pure; cbn [sound_timer set_delay_timer];
    destruct (st >? 0); reflexivity.
Qed.

Lemma ticks_run n s :
  ticks n s =
    set_sound_timer
      (if sound_timer s >? 0 then Z.max (sound_timer s - Z.of_nat n) 0 else sound_timer s)
      (set_delay_timer
         (if delay_timer s >? 0 then Z.max (delay_timer s - Z.of_nat n) 0 else delay_timer s)
         s).
Proof.
  unfold ticks. induction n as [| n IH].
  - destruct s as [rv pc ir sp dt st wk kt mem vid]. simpl.
    unfold set_sound_timer, set_delay_timer. simpl.
    destruct (Z.gtb_spec dt 0), (Z.gtb_spec st 0); f_equal; lia.
  - rewrite Nat.iter_succ, IH, decrement_timers_run.
    destruct s as [rv pc ir sp dt st wk kt mem vid].
    unfold set_sound_timer, set_delay_timer. cbn.
    f_equal.
    + destruct (Z.gtb_spec dt 0).
      * destruct (Z.gtb_spec (Z.max (dt - Z.of_nat n) 0) 0); lia.
      * destruct (Z.gtb_spec dt 0); lia.
    + destruct (Z.gtb_spec st 0).
      * destruct (Z.gtb_spec (Z.max (st - Z.of_nat n) 0) 0); lia.
      * destruct (Z.gtb_spec st 0); lia.
Qed.

(** After [n] ticks a timer that was positive has gone down by [n] but
    not below 0, a timer that was not positive has not moved, and nothing
    else in the machine has changed. *)
Theorem ticks_count_down n s :
  ticks n s =
    set_sound_timer
      (if sound_timer s >? 0 then Z.max (sound_timer s - Z.of_nat n) 0 else sound_timer s)
      (set_delay_timer
         (if delay_timer s >? 0 then Z.max (delay_timer s - Z.of_nat n) 0 else delay_timer s)
         s).
Proof. exact (ticks_run n s). Qed.

(** ** Subtraction (8XY5, 8XY7) and shift right (8XY6) *)

Lemma op_8XY5_run w s :
  registers_ok s -> 0 <= reg s (X w) <= 255 -> 0 <= reg s (Y w) <= 255 ->
  op_8XY5 w s =
    mkResult
      (set_v (<[15%nat := if reg s (X w) - reg s (Y w) <? 0 then 0 else 1]>
                (<[Z.to_nat (X w) := (reg s (X w) - reg s (Y w)) mod 256]> (v s))) s)
      [] (Returned tt).
Proof.
  intros Hl Ha Hb. unfold op_8XY5.
  run_getv. run_getv. run_setv.
  erewrite bind_pure by (apply wrap_below_0_run; auto with chip8).
  rewrite reg_insert_eq by auto with chip8.
  destruct (Z.ltb_spec (reg s (X w) - reg s (Y w)) 0).
  - rewrite setv_ok by auto with chip8.
    unfold set_v. simpl. rewrite list_insert_insert_eq. reflexivity.
  - rewrite setv_ok by auto with chip8.
    rewrite Z.mod_small by lia. reflexivity.
Qed.

Lemma op_8XY7_run w s :
  registers_ok s -> 0 <= reg s (X w) <= 255 -> 0 <= reg s (Y w) <= 255 ->
  op_8XY7 w s =
    mkResult
      (set_v (<[15%nat := if reg s (Y w) - reg s (X w) <? 0 then 0 else 1]>
                (<[Z.to_nat (X w) := (reg s (Y w) - reg s (X w)) mod 256]> (v s))) s)
      [] (Returned tt).
Proof.
  intros Hl Ha Hb. unfold op_8XY7.
  run_getv. run_getv. run_setv.
  erewrite bind_pure by (apply wrap_below_0_run; auto with chip8).
  rewrite reg_insert_eq by auto with chip8.
  destruct (Z.ltb_spec (reg s (Y w) - reg s (X w)) 0).
  - rewrite setv_ok by auto with chip8.
    unfold set_v. simpl. rewrite list_insert_insert_eq. reflexivity.
  - rewrite setv_ok by auto with chip8.
    rewrite Z.mod_small by lia. reflexivity.
Qed.

Lemma reg_set_program_counter x s i : reg (set_program_counter x s) i = reg s i.
Proof. reflexivity. Qed.

Lemma reg_flag_written s l x :
  registers_ok s -> length l = 16%nat -> reg (set_v (<[15%nat := x]> l) s) 0xF = x.
Proof.
  intros Hl Hlen. unfold reg. cbn [v set_v].
  change (Z.to_nat 0xF) with 15%nat.
  rewrite list_lookup_insert_eq; [reflexivity | lia].
Qed.

Lemma reg_under_flag s l i x y :
  registers_ok s -> 0 <= i < 16 -> i <> 0xF ->
  reg (set_v (<[15%nat := x]> (<[Z.to_nat i := y]> (v s))) l) i = y.
Proof.
  intros Hl Hi Hne. unfold reg. cbn [v set_v].
  rewrite list_lookup_insert_ne by lia.
  rewrite list_lookup_insert_eq; [reflexivity |]. unfold registers_ok in Hl. lia.
Qed.

(** Subtraction borrow law.  A call that fetches 8XY5 with V[X] = a and
    V[Y] = b in [0, 255] leaves V[F] = 0 when a < b and V[F] = 1
    otherwise, and, when X is not F, V[X] = (a - b) mod 256.  8XY7 is the
    same with b - a. *)
Theorem subtract_borrow keys font rand s s0 w a b :
  poll keys s = mkResult s0 [] (Returned true) ->
  fetch s0 = Some w ->
  registers_ok s0 ->
  reg s0 (X w) = a -> reg s0 (Y w) = b ->
  0 <= a <= 255 -> 0 <= b <= 255 ->
  let r := run_once keys font rand s in
  (Z.land w 0xF00F = 0x8005 ->
     outcome r = Returned tt
     /\ reg (final r) 0xF = (if a <? b then 0 else 1)
     /\ (X w <> 0xF -> reg (final r) (X w) = (a - b) mod 256))
  /\ (Z.land w 0xF00F = 0x8007 ->
     outcome r = Returned tt
     /\ reg (final r) 0xF = (if b <? a then 0 else 1)
     /\ (X w <> 0xF -> reg (final r) (X w) = (b - a) mod 256)).
Proof.
  intros Hp Hf Hl <- <- Ha Hb r. subst r.
  rewrite (run_once_fetches _ _ _ _ _ _ Hp Hf).
  pose proof (X_range w) as Hx.
  split; intros Hw.
  - rewrite (execute_8XY5 _ _ _ _ Hw), op_8XY5_run by auto with chip8.
    cbn [final outcome]. split; [reflexivity |]. split.
    + rewrite reg_flag_written
        by (try rewrite length_insert; auto with chip8).
      rewrite !reg_set_program_counter.
      destruct (Z.ltb_spec (reg s0 (X w) - reg s0 (Y w)) 0),
               (Z.ltb_spec (reg s0 (X w)) (reg s0 (Y w))); try lia;
        reflexivity.
    + intros Hne. apply reg_under_flag; auto with chip8.
  - rewrite (execute_8XY7 _ _ _ _ Hw), op_8XY7_run by auto with chip8.
    cbn [final outcome]. split; [reflexivity |]. split.
    + rewrite reg_flag_written
        by (try rewrite length_insert; auto with chip8).
      rewrite !reg_set_program_counter.
      destruct (Z.ltb_spec (reg s0 (Y w) - reg s0 (X w)) 0),
               (Z.ltb_spec (reg s0 (Y w)) (reg s0 (X w))); try lia;
        reflexivity.
    + intros Hne. apply reg_under_flag; auto with chip8.
Qed.

Lemma subtract_borrow_witness :
  reg (final (run_once no_key 0 0 difference_state)) 0xF = 0
  /\ reg (final (run_once no_key 0 0 difference_state)) 0 = 246.
Proof.
  destruct (subtract_borrow no_key 0 0 difference_state difference_state 0x8015 10 20
              eq_refl eq_refl eq_refl eq_refl eq_refl ltac:(lia) ltac:(lia))
    as [H _].
  destruct (H eq_refl) as (_ & HF & HX).
  split; [exact HF | apply HX; vm_compute; discriminate].
Defined.

(** Shift right.  A call that fetches 8XY6 with V[X] = a leaves, when X is
    not F, V[F] = a mod 2 and V[X] = a div 2; when X is F the flag is
    written first and then shifted out, so V[F] = 0.  V[Y] is not read. *)
Theorem shift_right keys font rand s s0 w a :
  poll keys s = mkResult s0 [] (Returned true) ->
  fetch s0 = Some w ->
  Z.land w 0xF00F = 0x8006 ->
  registers_ok s0 ->
  reg s0 (X w) = a ->
  let r := run_once keys font rand s in
  outcome r = Returned tt
  /\ (X w <> 0xF -> reg (final r) 0xF = a mod 2 /\ reg (final r) (X w) = a / 2)
  /\ (X w = 0xF -> reg (final r) 0xF = 0)
  /\ (forall j, 0 <= j < 16 -> j <> X w -> j <> 0xF -> reg (final r) j = reg s0 j).
Proof.
  intros Hp Hf Hw Hl <- r. subst r.
  rewrite (run_once_fetches _ _ _ _ _ _ Hp Hf), (execute_8XY6 _ _ _ _ Hw).
  pose proof (X_range w) as Hx. unfold op_8XY6.
  run_getv. run_setv. run_getv.
  rewrite setv_ok by auto with chip8.
  cbn [final outcome]. split; [reflexivity |].
  assert (Hlsb : forall z, Z.land z 1 = z mod 2).
  { intros z. change 1 with (Z.ones 1). rewrite Z.land_ones by lia. reflexivity. }
  assert (Hhalf : forall z, Z.shiftr z 1 = z / 2).
  { intros z. rewrite Z.shiftr_div_pow2 by lia. reflexivity. }
  split; [| split].
  - intros Hne. split.
    + rewrite reg_insert_ne by lia.
      change 15 with (Z.of_nat 15) at 1. unfold reg at 1. cbn [v set_v set_program_counter].
      rewrite Nat2Z.id, list_lookup_insert_eq by (unfold registers_ok in Hl; lia).
      apply Hlsb.
    + rewrite reg_insert_eq
        by (auto with chip8; apply (registers_ok_insert 15); auto with chip8).
      change 15%nat with (Z.to_nat 15). rewrite reg_insert_ne by lia.
      apply Hhalf.
  - intros HeqF. rewrite HeqF.
    rewrite reg_insert_eq
      by (try lia; apply (registers_ok_insert 15); auto with chip8).
    rewrite (reg_insert_eq _ _ 15) by (auto with chip8; lia).
    rewrite Hhalf, Hlsb. apply Z.div_small. apply Z.mod_pos_bound. lia.
  - intros j Hj Hne HneF.
    rewrite reg_insert_ne by lia.
    change 15%nat with (Z.to_nat 15). rewrite reg_insert_ne by lia. reflexivity.
Qed.

Lemma shift_right_witness :
  reg (final (run_once no_key 0 0 halve_state)) 0xF = 1
  /\ reg (final (run_once no_key 0 0 halve_state)) 0 = 6.
Proof.
  destruct (shift_right no_key 0 0 halve_state halve_state 0x8006 13
              eq_refl eq_refl eq_refl eq_refl eq_refl)
    as (_ & H & _).
  apply H. vm_compute. discriminate.
Defined.

(** ** Conditional skips *)

Lemma advance_run s :
  advance s = mkResult (set_program_counter (program_counter s + 2) s) [] (Returned tt).
Proof. reflexivity. Qed.

(** What a call that only decides whether to skip leaves behind. *)
Lemma skip_result (c : bool) s0 :
  (if c then advance else ret tt) (set_program_counter (program_counter s0 + 2) s0) =
    mkResult (set_program_counter (program_counter s0 + (if c then 4 else 2)) s0)
      [] (Returned tt).
Proof.
  destruct c; [| reflexivity]. rewrite advance_run.
  unfold set_program_counter. cbn. do 2 f_equal. lia.
Qed.

(** Skips on an immediate.  A call that fetches 3XNN moves the program
    counter 4 past the instruction when V[X] = NN and 2 past it otherwise;
    4XNN does the opposite; neither changes anything else. *)
Theorem skip_on_immediate keys font rand s s0 w :
  poll keys s = mkResult s0 [] (Returned true) ->
  fetch s0 = Some w ->
  registers_ok s0 ->
  let r := run_once keys font rand s in
  let target n := mkResult (set_program_counter (program_counter s0 + n) s0)
                    [] (Returned tt) in
  (Z.land w 0xF000 = 0x3000 ->
     r = target (if reg s0 (X w) =? NN w then 4 else 2))
  /\ (Z.land w 0xF000 = 0x4000 ->
     r = target (if reg s0 (X w) =? NN w then 2 else 4)).
Proof.
  intros Hp Hf Hl r target. subst r target.
  rewrite (run_once_fetches _ _ _ _ _ _ Hp Hf).
  split; intros Hw.
  - rewrite (execute_3XNN _ _ _ _ Hw). unfold op_3XNN. run_getv.
    rewrite reg_set_program_counter. apply skip_result.
  - rewrite (execute_4XNN _ _ _ _ Hw). unfold op_4XNN. run_getv.
    rewrite reg_set_program_counter, skip_result.
    unfold NN. destruct (reg s0 (X w) =? Z.land w 255); reflexivity.
Qed.

Lemma skip_on_immediate_witness :
  program_counter (final (run_once no_key 0 0 (boot [x30; x00]))) = 0x204
  /\ program_counter (final (run_once no_key 0 0 (boot [x40; x00]))) = 0x202.
Proof.
  destruct (skip_on_immediate no_key 0 0 (boot [x30; x00]) (boot [x30; x00]) 0x3000
              eq_refl eq_refl eq_refl) as [H3 _].
  destruct (skip_on_immediate no_key 0 0 (boot [x40; x00]) (boot [x40; x00]) 0x4000
              eq_refl eq_refl eq_refl) as [_ H4].
  rewrite (H3 eq_refl), (H4 eq_refl). split; reflexivity.
Defined.

(** Skips on two registers.  5XY0 skips exactly when V[X] = V[Y], 9XY0
    exactly when they differ; neither changes anything else. *)
Theorem skip_on_registers keys font rand s s0 w :
  poll keys s = mkResult s0 [] (Returned true) ->
  fetch s0 = Some w ->
  registers_ok s0 ->
  let r := run_once keys font rand s in
  let target n := mkResult (set_program_counter (program_counter s0 + n) s0)
                    [] (Returned tt) in
  (Z.land w 0xF00F = 0x5000 ->
     r = target (if reg s0 (X w) =? reg s0 (Y w) then 4 else 2))
  /\ (Z.land w 0xF00F = 0x9000 ->
     r = target (if reg s0 (X w) =? reg s0 (Y w) then 2 else 4)).
Proof.
  intros Hp Hf Hl r target. subst r target.
  rewrite (run_once_fetches _ _ _ _ _ _ Hp Hf).
  split; intros Hw.
  - rewrite (execute_5XY0 _ _ _ _ Hw). unfold op_5XY0. run_getv. run_getv.
    rewrite !reg_set_program_counter. apply skip_result.
  - rewrite (execute_9XY0 _ _ _ _ Hw). unfold op_9XY0. run_getv. run_getv.
    rewrite !reg_set_program_counter, skip_result.
    destruct (reg s0 (X w) =? reg s0 (Y w)); reflexivity.
Qed.

Lemma skip_on_registers_witness :
  program_counter (final (run_once no_key 0 0 (boot [x50; x10]))) = 0x204
  /\ program_counter (final (run_once no_key 0 0 (boot [x90; x10]))) = 0x202.
Proof.
  destruct (skip_on_registers no_key 0 0 (boot [x50; x10]) (boot [x50; x10]) 0x5010
              eq_refl eq_refl eq_refl) as [H5 _].
  destruct (skip_on_registers no_key 0 0 (boot [x90; x10]) (boot [x90; x10]) 0x9010
              eq_refl eq_refl eq_refl) as [_ H9].
  rewrite (H5 eq_refl), (H9 eq_refl). split; reflexivity.
Defined.

(** Skips on a key.  EX9E skips exactly when the host reports key V[X]
    pressed, EXA1 exactly when it does not; the key asked for is the
    register value as it is, and nothing else changes. *)
Theorem skip_on_key keys font rand s s0 w :
  poll keys s = mkResult s0 [] (Returned true) ->
  fetch s0 = Some w ->
  registers_ok s0 ->
  let r := run_once keys font rand s in
  let target n := mkResult (set_program_counter (program_counter s0 + n) s0)
                    [] (Returned tt) in
  (Z.land w 0xF0FF = 0xE09E ->
     r = target (if keys (reg s0 (X w)) then 4 else 2))
  /\ (Z.land w 0xF0FF = 0xE0A1 ->
     r = target (if keys (reg s0 (X w)) then 2 else 4)).
Proof.
  intros Hp Hf Hl r target. subst r target.
  rewrite (run_once_fetches _ _ _ _ _ _ Hp Hf).
  split; intros Hw.
  - rewrite (execute_EX9E _ _ _ _ Hw). unfold op_EX9E. run_getv.
    rewrite reg_set_program_counter. apply skip_result.
  - rewrite (execute_EXA1 _ _ _ _ Hw). unfold op_EXA1. run_getv.
    rewrite reg_set_program_counter, skip_result.
    destruct (keys (reg s0 (X w))); reflexivity.
Qed.

Lemma skip_on_key_witness :
  program_counter (final (run_once (only_key 0) 0 0 (boot [xe0; x9e]))) = 0x204
  /\ program_counter (final (run_once (only_key 0) 0 0 (boot [xe0; xa1]))) = 0x202.
Proof.
  destruct (skip_on_key (only_key 0) 0 0 (boot [xe0; x9e]) (boot [xe0; x9e]) 0xE09E
              eq_refl eq_refl eq_refl) as [H1 _].
  destruct (skip_on_key (only_key 0) 0 0 (boot [xe0; xa1]) (boot [xe0; xa1]) 0xE0A1
              eq_refl eq_refl eq_refl) as [_ H2].
  rewrite (H1 eq_refl), (H2 eq_refl). split; reflexivity.
Defined.

(** ** Random byte (CXNN) *)

Lemma land_byte_mask a b : 0 <= Z.land a (Z.land b 0x00FF) <= 255.
Proof.
  rewrite Z.land_assoc.
  change (Z.land (Z.land a b) 0x00FF) with (Z.land (Z.land a b) (Z.ones 8)).
  rewrite Z.land_ones by lia. change (2 ^ 8) with 256.
  pose proof (Z.mod_pos_bound (Z.land a b) 256 ltac:(lia)). lia.
Qed.

(** Whatever value the generator hands back, a call that fetches CXNN
    leaves in V[X] that value masked by NN: a value in [0, 255] with no
    bit set outside NN, and no other register touched. *)
Theorem random_is_masked keys font rand s s0 w :
  poll keys s = mkResult s0 [] (Returned true) ->
  fetch s0 = Some w ->
  Z.land w 0xF000 = 0xC000 ->
  registers_ok s0 ->
  let r := run_once keys font rand s in
  outcome r = Returned tt
  /\ reg (final r) (X w) = Z.land rand (NN w)
  /\ 0 <= reg (final r) (X w) <= 255
  /\ Z.land (reg (final r) (X w)) (NN w) = reg (final r) (X w)
  /\ (forall j, 0 <= j < 16 -> j <> X w -> reg (final r) j = reg s0 j).
Proof.
  intros Hp Hf Hw Hl r. subst r.
  rewrite (run_once_fetches _ _ _ _ _ _ Hp Hf), (execute_CXNN _ _ _ _ Hw).
  pose proof (X_range w) as Hx. unfold op_CXNN.
  rewrite setv_ok by auto with chip8. cbn [final outcome].
  rewrite reg_insert_eq by auto with chip8.
  split; [reflexivity |]. split; [reflexivity |]. split; [apply land_byte_mask |].
  split.
  - unfold NN. rewrite <- Z.land_assoc, Z.land_diag. reflexivity.
  - intros j Hj Hne. rewrite reg_insert_ne by lia. reflexivity.
Qed.

Lemma random_is_masked_witness :
  reg (final (run_once no_key 0 1000 (boot [xc0; x0f]))) 0 = 8.
Proof.
  destruct (random_is_masked no_key 0 1000 (boot [xc0; x0f]) (boot [xc0; x0f]) 0xC00F
              eq_refl eq_refl eq_refl eq_refl) as (_ & H & _).
  exact H.
Defined.

(** ** Index register arithmetic (FX1E) *)

(** A call that fetches FX1E with the index register in [0, 0xFFF] and
    V[X] in [0, 255] leaves the index register at (I + V[X]) mod 0x1000,
    again in [0, 0xFFF], and V[F] = 1 exactly when I + V[X] went past
    0xFFF; the other registers keep their values. *)
Theorem index_add_wraps keys font rand s s0 w :
  poll keys s = mkResult s0 [] (Returned true) ->
  fetch s0 = Some w ->
  Z.land w 0xF0FF = 0xF01E ->
  registers_ok s0 ->
  0 <= index_register s0 <= 0xFFF ->
  0 <= reg s0 (X w) <= 255 ->
  let r := run_once keys font rand s in
  outcome r = Returned tt
  /\ index_register (final r) = (index_register s0 + reg s0 (X w)) mod 0x1000
  /\ 0 <= index_register (final r) <= 0xFFF
  /\ reg (final r) 0xF = (if index_register s0 + reg s0 (X w) >? 0xFFF then 1 else 0)
  /\ (forall j, 0 <= j < 16 -> j <> 0xF -> reg (final r) j = reg s0 j).
Proof.
  intros Hp Hf Hw Hl Hi Ha r. subst r.
  rewrite (run_once_fetches _ _ _ _ _ _ Hp Hf), (execute_FX1E _ _ _ _ Hw).
  pose proof (X_range w) as Hx. unfold op_FX1E.
  run_pure. run_getv. run_pure. run_pure.
  cbn [index_register set_index_register set_program_counter].
  rewrite reg_set_program_counter.
  destruct (Z.gtb_spec (index_register s0 + reg s0 (X w)) 0xFFF) as [Hgt | Hle].
  - run_pure. rewrite setv_ok by (try lia; exact Hl).
    cbn [final outcome index_register set_v set_index_register set_program_counter].
    assert (Hmod : (index_register s0 + reg s0 (X w)) mod 4096
                   = index_register s0 + reg s0 (X w) - 4096).
    { symmetry. apply Z.mod_unique with (q := 1); lia. }
    rewrite Hmod. repeat split; try lia.
    + apply (reg_insert_eq _ _ 15); [exact Hl | lia].
    + intros j Hj Hne. rewrite reg_insert_ne by lia. reflexivity.
  - rewrite setv_ok by (try lia; exact Hl).
    cbn [final outcome index_register set_v set_index_register set_program_counter].
    rewrite Z.mod_small by lia. repeat split; try lia.
    + apply (reg_insert_eq _ _ 15); [exact Hl | lia].
    + intros j Hj Hne. rewrite reg_insert_ne by lia. reflexivity.
Qed.

Lemma index_add_wraps_witness :
  index_register (final (run_once no_key 0 0 index_state)) = 0x009
  /\ reg (final (run_once no_key 0 0 index_state)) 0xF = 1.
Proof.
  destruct (index_add_wraps no_key 0 0 index_state index_state 0xF01E
              eq_refl eq_refl eq_refl eq_refl ltac:(vm_compute; split; discriminate)
              ltac:(vm_compute; split; discriminate))
    as (_ & HI & _ & HF & _).
  split; [exact HI | exact HF].
Defined.

(** ** Return without range check (00EE) *)

(** A call that fetches 00EE always leaves the stack pointer 2 lower.
    When the two cells below the old stack pointer are in the store it
    returns with the program counter read from them, whether or not a
    call put them there; otherwise it raises OutOfBounds with the stack
    pointer already lowered. *)
Theorem return_pops_unchecked keys font rand s s0 :
  poll keys s = mkResult s0 [] (Returned true) ->
  fetch s0 = Some 0x00EE ->
  let r := run_once keys font rand s in
  stack_pointer (final r) = stack_pointer s0 - 2
  /\ memory (final r) = memory s0
  /\ (2 <= stack_pointer s0 <= Z.of_nat (length (memory s0)) ->
      outcome r = Returned tt
      /\ (from_bytes <$> mem_get_range (memory s0) (stack_pointer s0 - 2) 2)
         = Some (program_counter (final r)))
  /\ (stack_pointer s0 < 2 \/ Z.of_nat (length (memory s0)) < stack_pointer s0 ->
      outcome r = Raised OutOfBounds
      /\ program_counter (final r) = program_counter s0 + 2).
Proof.
  intros Hp Hf r. subst r.
  rewrite (run_once_fetches _ _ _ _ _ _ Hp Hf), execute_00EE.
  destruct (mem_get_range (memory s0) (stack_pointer s0 - 2) 2) as [bs |] eqn:Hm.
  - rewrite (op_00EE_run _ bs) by exact Hm. cbn.
    split; [reflexivity |]. split; [reflexivity |]. split.
    + intros _. split; reflexivity.
    + intros Hout. exfalso. unfold mem_get_range in Hm.
      destruct (in_span _ _ _) eqn:E in Hm; [| discriminate].
      apply in_span_inv in E. lia.
  - unfold op_00EE. run_pure. run_pure. run_pure.
    erewrite bind_raised
      by (unfold load_range; cbn [memory stack_pointer set_stack_pointer set_program_counter];
          rewrite Hm; reflexivity).
    cbn. split; [reflexivity |]. split; [reflexivity |]. split.
    + intros Hin. exfalso. unfold mem_get_range in Hm.
      rewrite in_span_true in Hm by lia. discriminate.
    + intros _. split; reflexivity.
Qed.

Lemma return_pops_unchecked_witness :
  stack_pointer (final (run_once no_key 0 0 (boot [x00; xee]))) = 80
  /\ outcome (run_once no_key 0 0 (boot [x00; xee])) = Returned tt
  /\ program_counter (final (run_once no_key 0 0 (boot [x00; xee]))) = 0.
Proof.
  destruct (return_pops_unchecked no_key 0 0 (boot [x00; xee]) (boot [x00; xee])
              eq_refl eq_refl) as (Hsp & _ & Hin & _).
  destruct Hin as (Ho & Hpc); [vm_compute; split; discriminate |].
  split; [exact Hsp |]. split; [exact Ho |].
  assert (E : Some 0 = Some (program_counter (final (run_once no_key 0 0 (boot [x00; xee])))))
    by exact Hpc.
  apply (f_equal (default 1)) in E. symmetry. exact E.
Defined.

(** ** Binary-coded decimal at the end of the store *)

Lemma store_out_of_bounds s a x b :
  byte_of_Z x = Some b ->
  ~ (0 <= a < Z.of_nat (length (memory s))) ->
  store a x s = mkResult s [] (Raised OutOfBounds).
Proof.
  intros Hb Hout. unfold store. rewrite Hb. run_pure.
  apply bind_raised. unfold mem_set.
  destruct (in_span (memory s) a 1) eqn:E; [| reflexivity].
  apply in_span_inv in E. lia.
Qed.

(** FX33 is three separate stores: when the index register is in the
    store but index_register + 2 is not, the call raises OutOfBounds
    after the hundreds digit has been written. *)
Theorem bcd_partial_write keys font rand s s0 w :
  poll keys s = mkResult s0 [] (Returned true) ->
  fetch s0 = Some w ->
  Z.land w 0xF0FF = 0xF033 ->
  registers_ok s0 ->
  0 <= reg s0 (X w) <= 255 ->
  0 <= index_register s0 < Z.of_nat (length (memory s0)) ->
  Z.of_nat (length (memory s0)) < index_register s0 + 3 ->
  let r := run_once keys font rand s in
  outcome r = Raised OutOfBounds
  /\ (byte_to_Z <$> memory (final r) !! Z.to_nat (index_register s0))
     = Some (reg s0 (X w) / 100).
Proof.
  intros Hp Hf Hw Hl Ha Hi Hend r. subst r.
  set (a := reg s0 (X w)) in *.
  destruct (byte_of_Z_ok (a / 100)) as (h & Hh & Hh').
  { split; [apply Z.div_pos; lia | apply Z.div_lt_upper_bound; lia]. }
  destruct (byte_of_Z_ok ((a mod 100) / 10)) as (t & Ht & Ht').
  { pose proof (Z.mod_pos_bound a 100 ltac:(lia)).
    split; [apply Z.div_pos; lia | apply Z.div_lt_upper_bound; lia]. }
  destruct (byte_of_Z_ok ((a mod 100) mod 10)) as (o & Ho & Ho').
  { pose proof (Z.mod_pos_bound (a mod 100) 10 ltac:(lia)). lia. }
  rewrite (run_once_fetches _ _ _ _ _ _ Hp Hf), (execute_FX33 _ _ _ _ Hw).
  unfold op_FX33. run_getv. fold a. run_pure.
  erewrite bind_pure
    by (apply (store_ok _ _ _ h Hh);
        cbn [memory index_register set_memory set_program_counter]; lia).
  run_pure. cbn [memory index_register set_memory set_program_counter].
  destruct (Z.lt_ge_cases (index_register s0 + 1) (Z.of_nat (length (memory s0))))
    as [Hin1 | Hout1].
  - erewrite bind_pure
      by (apply (store_ok _ _ _ t Ht);
          cbn [memory index_register set_memory set_program_counter];
          rewrite length_insert; lia).
    run_pure. cbn [memory index_register set_memory set_program_counter].
    rewrite (store_out_of_bounds _ _ _ o Ho)
      by (cbn [memory set_memory]; rewrite !length_insert; lia).
    cbn [final outcome memory set_memory]. split; [reflexivity |].
    rewrite list_lookup_insert_ne by lia.
    rewrite list_lookup_insert_eq by lia. cbn. rewrite Hh'. reflexivity.
  - erewrite bind_raised
      by (apply (store_out_of_bounds _ _ _ t Ht);
          cbn [memory set_memory]; rewrite length_insert; lia).
    cbn [final outcome memory set_memory]. split; [reflexivity |].
    rewrite list_lookup_insert_eq by lia. cbn. rewrite Hh'. reflexivity.
Qed.

Lemma bcd_partial_write_witness :
  outcome (run_once no_key 0 0 bcd_edge_state) = Raised OutOfBounds
  /\ (byte_to_Z <$> memory (final (run_once no_key 0 0 bcd_edge_state)) !! 4095%nat)
     = Some 1.
Proof.
  destruct (bcd_partial_write no_key 0 0 bcd_edge_state bcd_edge_state 0xF233
              eq_refl eq_refl eq_refl eq_refl
              ltac:(vm_compute; split; discriminate)
              ltac:(vm_compute; split; [discriminate | reflexivity])
              ltac:(vm_compute; reflexivity)) as (Ho & Hm).
  split; [exact Ho | exact Hm].
Defined.

(** ** Timer round trip (FX15, ticks, FX07) *)

(** Loading the delay timer from V[X] >= 0 with FX15, letting [n] timer
    ticks pass, and reading it back with FX07 puts max(V[X] - n, 0) in
    the register read into. *)
Theorem delay_timer_round_trip keys font rand keys' font' rand' n s s0 w w' :
  poll keys s = mkResult s0 [] (Returned true) ->
  fetch s0 = Some w ->
  Z.land w 0xF0FF = 0xF015 ->
  registers_ok s0 ->
  0 <= reg s0 (X w) ->
  let s1 := ticks n (final (run_once keys font rand s)) in
  fetch s1 = Some w' ->
  Z.land w' 0xF0FF = 0xF007 ->
  let r := run_once keys' font' rand' s1 in
  outcome r = Returned tt
  /\ reg (final r) (X w') = Z.max (reg s0 (X w) - Z.of_nat n) 0.
Proof.
  intros Hp Hf Hw Hl Ha s1.
  assert (Hs1 : s1 = set_sound_timer
                  (if sound_timer s0 >? 0
                   then Z.max (sound_timer s0 - Z.of_nat n) 0 else sound_timer s0)
                  (set_delay_timer (Z.max (reg s0 (X w) - Z.of_nat n) 0)
                     (set_program_counter (program_counter s0 + 2) s0))).
  { subst s1.
    rewrite (run_once_fetches _ _ _ _ _ _ Hp Hf), (execute_FX15 _ _ _ _ Hw).
    unfold op_FX15. run_getv. cbn [modify final]. rewrite ticks_run.
    cbn [sound_timer delay_timer set_delay_timer set_program_counter].
    rewrite reg_set_program_counter.
    unfold set_sound_timer, set_delay_timer. cbn. f_equal.
    destruct (Z.gtb_spec (reg s0 (X w)) 0); lia. }
  rewrite Hs1. clear Hs1 s1. intros Hf' Hw' r. subst r.
  pose proof (X_range w') as Hx.
  erewrite run_once_fetches;
    [| apply poll_running; exact (poll_clears _ _ _ _ Hp) | exact Hf'].
  rewrite (execute_FX07 _ _ _ _ Hw'). unfold op_FX07. run_pure.
  rewrite setv_ok by (try lia; exact Hl).
  cbn [final outcome]. split; [reflexivity |].
  rewrite reg_insert_eq by (try lia; exact Hl). reflexivity.
Qed.

Lemma delay_timer_round_trip_witness :
  reg (final (run_once no_key 0 0 (ticks 3 (final (run_once no_key 0 0 timer_state))))) 1
  = 7.
Proof.
  destruct (delay_timer_round_trip no_key 0 0 no_key 0 0 3 timer_state timer_state
              0xF015 0xF107 eq_refl eq_refl eq_refl eq_refl
              ltac:(vm_compute; discriminate) eq_refl eq_refl) as (_ & H).
  exact H.
Defined.

(** ** Waiting for a key (FX0A and the calls after it) *)

(** A call that fetches FX0A only sets the latch on V[X] and moves on.
    Every later call during which no key is pressed leaves the machine as
    it is; the first call during which a key is pressed writes the lowest
    pressed key into V[X], clears the latch, and carries on with the
    instruction after the FX0A. *)
Theorem wait_for_key_sequence keys font rand s s0 w :
  poll keys s = mkResult s0 [] (Returned true) ->
  fetch s0 = Some w ->
  Z.land w 0xF0FF = 0xF00A ->
  registers_ok s0 ->
  let r := run_once keys font rand s in
  let s1 := final r in
  r = mkResult
        (set_waiting_for_keypress true
           (set_keypress_target (Some (X w))
              (set_program_counter (program_counter s0 + 2) s0)))
        [] (Returned tt)
  /\ (forall keys' font' rand',
        pressed_key keys' = None ->
        run_once keys' font' rand' s1 = mkResult s1 [] (Returned tt))
  /\ (forall keys' font' rand' key,
        pressed_key keys' = Some key ->
        run_once keys' font' rand' s1 =
          fetch_execute keys' font' rand'
            (set_waiting_for_keypress false
               (set_v (<[Z.to_nat (X w) := key]> (v s0)) s1))).
Proof.
  intros Hp Hf Hw Hl r s1.
  assert (Hr : r = mkResult
                 (set_waiting_for_keypress true
                    (set_keypress_target (Some (X w))
                       (set_program_counter (program_counter s0 + 2) s0)))
                 [] (Returned tt)).
  { subst r. rewrite (run_once_fetches _ _ _ _ _ _ Hp Hf), (execute_FX0A _ _ _ _ Hw).
    reflexivity. }
  subst s1. rewrite Hr. cbn [final]. split; [reflexivity |]. split.
  - intros keys' font' rand' Hk. unfold run_once.
    erewrite bind_pure by (apply poll_idle; [reflexivity | exact Hk]).
    reflexivity.
  - intros keys' font' rand' key Hk. unfold run_once.
    erewrite bind_pure
      by (apply (poll_latches _ _ key (X w));
          [reflexivity | exact Hk | reflexivity | apply X_range | exact Hl]).
    reflexivity.
Qed.

Lemma wait_for_key_sequence_witness :
  waiting_for_keypress (final (run_once no_key 0 0 (boot [xf3; x0a]))) = true
  /\ run_once no_key 0 0 (final (run_once no_key 0 0 (boot [xf3; x0a])))
     = mkResult (final (run_once no_key 0 0 (boot [xf3; x0a]))) [] (Returned tt).
Proof.
  destruct (wait_for_key_sequence no_key 0 0 (boot [xf3; x0a]) (boot [xf3; x0a]) 0xF30A
              eq_refl eq_refl eq_refl eq_refl) as (Hr & Hidle & _).
  split; [rewrite Hr; reflexivity | exact (Hidle no_key 0 0 eq_refl)].
Defined.

(** ** Register dump and restore (FX55, FX65) *)

Lemma in_range i n : In i (range n) <-> 0 <= i < n.
Proof.
  unfold range. rewrite in_map_iff. split.
  - intros (k & <- & Hk). apply in_seq in Hk. lia.
  - intros Hi. exists (Z.to_nat i). split; [lia |]. apply in_seq. lia.
Qed.

Lemma set_memory_same s : set_memory (memory s) s = s.
Proof. destruct s. reflexivity. Qed.

Lemma set_v_same s : set_v (v s) s = s.
Proof. destruct s. reflexivity. Qed.

Lemma load_ok s a b :
  0 <= a -> memory s !! Z.to_nat a = Some b ->
  load a s = mkResult s [] (Returned (byte_to_Z b)).
Proof.
  intros Ha Hb. unfold load, mem_get.
  assert (Hlt : (Z.to_nat a < length (memory s))%nat)
    by (apply lookup_lt_is_Some; eauto).
  rewrite in_span_true by lia. rewrite Hb. reflexivity.
Qed.

(** The loop of lines 381-382 on any list of register indices. *)
Lemma for_each_store l : forall s,
  registers_ok s ->
  (forall i, In i l ->
     0 <= i < 16 /\ 0 <= reg s i <= 255
     /\ 0 <= index_register s + i < Z.of_nat (length (memory s))) ->
  exists m',
    for_each l
      (fun i => a <- getv i ;; idx <- gets index_register ;; store (idx + i) a) s
    = mkResult (set_memory m' s) [] (Returned tt)
    /\ length m' = length (memory s)
    /\ (forall i, In i l ->
          byte_to_Z <$> m' !! Z.to_nat (index_register s + i) = Some (reg s i))
    /\ (forall n, (forall i, In i l -> n <> Z.to_nat (index_register s + i)) ->
          m' !! n = memory s !! n).
Proof.
  induction l as [| i l IH]; intros s Hl Hall.
  - exists (memory s). rewrite set_memory_same.
    repeat split; try reflexivity. intros i [].
  - destruct (Hall i (or_introl eq_refl)) as (Hi & Hbyte & Hin).
    destruct (byte_of_Z_ok (reg s i)) as (b & Hb & Hb'); [lia |].
    set (s1 := set_memory (<[Z.to_nat (index_register s + i) := b]> (memory s)) s).
    destruct (IH s1) as (m' & Hrun & Hlen & Hcells & Hframe).
    { exact Hl. }
    { intros j Hj. destruct (Hall j (or_intror Hj)) as (H1 & H2 & H3).
      subst s1. cbn [memory set_memory index_register]. rewrite length_insert.
      repeat split; try lia; apply H2. }
    exists m'. split; [| split; [| split]].
    + cbn [for_each].
      erewrite bind_pure; [exact Hrun |].
      run_getv. run_pure. apply store_ok; [exact Hb | exact Hin].
    + rewrite Hlen. subst s1. cbn [memory set_memory]. apply length_insert.
    + intros j [<- | Hj].
      * destruct (in_dec Z.eq_dec i l) as [Hil | Hnil]; [exact (Hcells i Hil) |].
        change (index_register s) with (index_register s1).
        rewrite Hframe.
        -- subst s1. cbn [memory set_memory index_register].
           rewrite list_lookup_insert_eq by lia. cbn. rewrite Hb'. reflexivity.
        -- intros k Hk Heq. subst s1. cbn [index_register set_memory] in Heq.
           destruct (Hall k (or_intror Hk)) as (_ & _ & H3).
           assert (i = k) by lia. subst k. contradiction.
      * exact (Hcells j Hj).
    + intros n Hn. rewrite Hframe.
      * subst s1. cbn [memory set_memory].
        apply list_lookup_insert_ne. intros Heq. apply (Hn i (or_introl eq_refl)).
        symmetry. exact Heq.
      * intros k Hk. exact (Hn k (or_intror Hk)).
Qed.

(** The loop of lines 389-390 on any list of register indices. *)
Lemma for_each_load l : forall s,
  registers_ok s ->
  (forall i, In i l ->
     0 <= i < 16 /\ 0 <= index_register s + i < Z.of_nat (length (memory s))) ->
  exists v',
    for_each l
      (fun i => idx <- gets index_register ;; b <- load (idx + i) ;; setv i b) s
    = mkResult (set_v v' s) [] (Returned tt)
    /\ length v' = 16%nat
    /\ (forall i, In i l ->
          v' !! Z.to_nat i
          = byte_to_Z <$> memory s !! Z.to_nat (index_register s + i))
    /\ (forall n, (forall i, In i l -> n <> Z.to_nat i) -> v' !! n = v s !! n).
Proof.
  induction l as [| i l IH]; intros s Hl Hall.
  - exists (v s). rewrite set_v_same.
    repeat split; try reflexivity; [exact Hl | intros i []].
  - destruct (Hall i (or_introl eq_refl)) as (Hi & Hin).
    destruct (memory s !! Z.to_nat (index_register s + i)) as [b |] eqn:Hb.
    2:{ apply lookup_ge_None in Hb. lia. }
    set (s1 := set_v (<[Z.to_nat i := byte_to_Z b]> (v s)) s).
    destruct (IH s1) as (v' & Hrun & Hlen & Hcells & Hframe).
    { apply registers_ok_insert. exact Hl. }
    { intros j Hj. exact (Hall j (or_intror Hj)). }
    exists v'. split; [| split; [| split]].
    + cbn [for_each].
      erewrite bind_pure; [exact Hrun |].
      run_pure. erewrite bind_pure by (apply (load_ok _ _ b); [lia | exact Hb]).
      apply setv_ok; assumption.
    + exact Hlen.
    + intros j [<- | Hj].
      * destruct (in_dec Z.eq_dec i l) as [Hil | Hnil].
        -- rewrite (Hcells i Hil). reflexivity.
        -- rewrite Hframe.
           ++ subst s1. cbn [v set_v]. rewrite Hb.
              apply list_lookup_insert_eq. unfold registers_ok in Hl. lia.
           ++ intros k Hk Heq. destruct (Hall k (or_intror Hk)) as (H1 & _).
              assert (i = k) by lia. subst k. contradiction.
      * rewrite (Hcells j Hj). reflexivity.
    + intros n Hn. rewrite Hframe.
      * subst s1. cbn [v set_v].
        apply list_lookup_insert_ne. intros Heq. apply (Hn i (or_introl eq_refl)).
        symmetry. exact Heq.
      * intros k Hk. exact (Hn k (or_intror Hk)).
Qed.

Lemma dump_registers_run keys font rand s s0 w :
  poll keys s = mkResult s0 [] (Returned true) ->
  fetch s0 = Some w ->
  Z.land w 0xF0FF = 0xF055 ->
  registers_ok s0 ->
  (forall i, 0 <= i <= X w -> 0 <= reg s0 i <= 255) ->
  0 <= index_register s0 ->
  index_register s0 + X w + 1 <= Z.of_nat (length (memory s0)) ->
  exists m',
    run_once keys font rand s =
      mkResult (set_memory m' (set_program_counter (program_counter s0 + 2) s0))
        [] (Returned tt)
    /\ length m' = length (memory s0)
    /\ (forall i, 0 <= i <= X w ->
          byte_to_Z <$> m' !! Z.to_nat (index_register s0 + i) = Some (reg s0 i))
    /\ (forall n : nat,
          Z.of_nat n < index_register s0 \/ index_register s0 + X w < Z.of_nat n ->
          m' !! n = memory s0 !! n).
Proof.
  intros Hp Hf Hw Hl Hbytes Hi Hend.
  pose proof (X_range w) as Hx.
  rewrite (run_once_fetches _ _ _ _ _ _ Hp Hf), (execute_FX55 _ _ _ _ Hw).
  unfold op_FX55.
  destruct (for_each_store (range (X w + 1))
              (set_program_counter (program_counter s0 + 2) s0))
    as (m' & Hrun & Hlen & Hcells & Hframe).
  { exact Hl. }
  { intros i Hin. apply in_range in Hin.
    rewrite reg_set_program_counter. cbn [index_register memory set_program_counter].
    pose proof (Hbytes i ltac:(lia)). lia. }
  exists m'. split; [exact Hrun |]. split; [exact Hlen |]. split.
  - intros i Hin. apply (Hcells i). apply in_range. lia.
  - intros n Hn. apply Hframe. intros i Hin. apply in_range in Hin.
    cbn [index_register set_program_counter]. lia.
Qed.

(** Register dump.  A call that fetches FX55 with V[0..X] in [0, 255]
    and the X + 1 cells at the index register inside the store returns
    normally with V[i] in cell index_register + i for every i <= X.  No
    other cell changes, and neither do the registers nor the index
    register (it is not advanced). *)
Theorem dump_registers keys font rand s s0 w :
  poll keys s = mkResult s0 [] (Returned true) ->
  fetch s0 = Some w ->
  Z.land w 0xF0FF = 0xF055 ->
  registers_ok s0 ->
  (forall i, 0 <= i <= X w -> 0 <= reg s0 i <= 255) ->
  0 <= index_register s0 ->
  index_register s0 + X w + 1 <= Z.of_nat (length (memory s0)) ->
  exists m',
    run_once keys font rand s =
      mkResult (set_memory m' (set_program_counter (program_counter s0 + 2) s0))
        [] (Returned tt)
    /\ length m' = length (memory s0)
    /\ (forall i, 0 <= i <= X w ->
          byte_to_Z <$> m' !! Z.to_nat (index_register s0 + i) = Some (reg s0 i))
    /\ (forall n : nat,
          Z.of_nat n < index_register s0 \/ index_register s0 + X w < Z.of_nat n ->
          m' !! n = memory s0 !! n).
Proof. exact (dump_registers_run keys font rand s s0 w). Qed.

Lemma dump_registers_witness :
  exists m',
    memory (final (run_once no_key 0 0 dump_state)) = m'
    /\ byte_to_Z <$> m' !! 0x300%nat = Some 11
    /\ byte_to_Z <$> m' !! 0x301%nat = Some 22.
Proof.
  destruct (dump_registers no_key 0 0 dump_state dump_state 0xF155
              eq_refl eq_refl eq_refl eq_refl) as (m' & Hrun & _ & Hcells & _).
  - intros i Hi. change (X 0xF155) with 1 in Hi.
    assert (i = 0 \/ i = 1) as [-> | ->] by lia; vm_compute; split; discriminate.
  - vm_compute. discriminate.
  - vm_compute. discriminate.
  - exists m'. rewrite Hrun. split; [reflexivity |]. split.
    + exact (Hcells 0 ltac:(vm_compute; split; discriminate)).
    + exact (Hcells 1 ltac:(vm_compute; split; discriminate)).
Defined.

Lemma restore_registers_run keys font rand s s0 w :
  poll keys s = mkResult s0 [] (Returned true) ->
  fetch s0 = Some w ->
  Z.land w 0xF0FF = 0xF065 ->
  registers_ok s0 ->
  0 <= index_register s0 ->
  index_register s0 + X w + 1 <= Z.of_nat (length (memory s0)) ->
  exists v',
    run_once keys font rand s =
      mkResult (set_v v' (set_program_counter (program_counter s0 + 2) s0))
        [] (Returned tt)
    /\ length v' = 16%nat
    /\ (forall i, 0 <= i <= X w ->
          v' !! Z.to_nat i
          = byte_to_Z <$> memory s0 !! Z.to_nat (index_register s0 + i))
    /\ (forall j, X w < j < 16 -> v' !! Z.to_nat j = v s0 !! Z.to_nat j).
Proof.
  intros Hp Hf Hw Hl Hi Hend.
  pose proof (X_range w) as Hx.
  rewrite (run_once_fetches _ _ _ _ _ _ Hp Hf), (execute_FX65 _ _ _ _ Hw).
  unfold op_FX65.
  destruct (for_each_load (range (X w + 1))
              (set_program_counter (program_counter s0 + 2) s0))
    as (v' & Hrun & Hlen & Hcells & Hframe).
  { exact Hl. }
  { intros i Hin. apply in_range in Hin.
    cbn [index_register memory set_program_counter]. lia. }
  exists v'. split; [exact Hrun |]. split; [exact Hlen |]. split.
  - intros i Hin. apply (Hcells i). apply in_range. lia.
  - intros j Hj. apply Hframe. intros i Hin. apply in_range in Hin. lia.
Qed.

(** Register restore.  A call that fetches FX65 with the X + 1 cells at
    the index register inside the store returns normally with V[i] equal
    to cell index_register + i for every i <= X; the registers above X,
    the store and the index register are not touched. *)
Theorem restore_registers keys font rand s s0 w :
  poll keys s = mkResult s0 [] (Returned true) ->
  fetch s0 = Some w ->
  Z.land w 0xF0FF = 0xF065 ->
  registers_ok s0 ->
  0 <= index_register s0 ->
  index_register s0 + X w + 1 <= Z.of_nat (length (memory s0)) ->
  exists v',
    run_once keys font rand s =
      mkResult (set_v v' (set_program_counter (program_counter s0 + 2) s0))
        [] (Returned tt)
    /\ length v' = 16%nat
    /\ (forall i, 0 <= i <= X w ->
          v' !! Z.to_nat i
          = byte_to_Z <$> memory s0 !! Z.to_nat (index_register s0 + i))
    /\ (forall j, X w < j < 16 -> v' !! Z.to_nat j = v s0 !! Z.to_nat j).
Proof. exact (restore_registers_run keys font rand s s0 w). Qed.

Lemma restore_registers_witness :
  reg (final (run_once no_key 0 0 restore_state)) 0 = 0xF1
  /\ reg (final (run_once no_key 0 0 restore_state)) 1 = 0x65.
Proof.
  destruct (restore_registers no_key 0 0 restore_state restore_state 0xF165
              eq_refl eq_refl eq_refl eq_refl) as (v' & Hrun & _ & Hcells & _).
  - vm_compute. discriminate.
  - vm_compute. discriminate.
  - rewrite Hrun. unfold reg. cbn [final v set_v]. split.
    + rewrite (Hcells 0 ltac:(vm_compute; split; discriminate)). reflexivity.
    + rewrite (Hcells 1 ltac:(vm_compute; split; discriminate)). reflexivity.
Defined.

(** Round trip.  What FX55 has dumped, FX65 brings back: after a dump of
    V[0..X], a restore of as many registers from the same index register
    and the same store, in whatever state the registers are by then,
    leaves V[0..X] as they were at the dump. *)
Theorem dump_then_restore keys font rand keys' font' rand' s s0 w s' s0' w' :
  poll keys s = mkResult s0 [] (Returned true) ->
  fetch s0 = Some w ->
  Z.land w 0xF0FF = 0xF055 ->
  registers_ok s0 ->
  (forall i, 0 <= i <= X w -> 0 <= reg s0 i <= 255) ->
  0 <= index_register s0 ->
  index_register s0 + X w + 1 <= Z.of_nat (length (memory s0)) ->
  poll keys' s' = mkResult s0' [] (Returned true) ->
  fetch s0' = Some w' ->
  Z.land w' 0xF0FF = 0xF065 ->
  registers_ok s0' ->
  X w' = X w ->
  index_register s0' = index_register s0 ->
  memory s0' = memory (final (run_once keys font rand s)) ->
  forall i, 0 <= i <= X w ->
    reg (final (run_once keys' font' rand' s')) i = reg s0 i.
Proof.
  intros Hp Hf Hw Hl Hbytes Hi Hend Hp' Hf' Hw' Hl' HX HI Hmem i Hin.
  destruct (dump_registers_run keys font rand s s0 w Hp Hf Hw Hl Hbytes Hi Hend)
    as (m' & Hrun & Hlen & Hcells & _).
  rewrite Hrun in Hmem. cbn [final memory set_memory] in Hmem.
  destruct (restore_registers_run keys' font' rand' s' s0' w' Hp' Hf' Hw' Hl')
    as (v' & Hrun' & _ & Hcells' & _).
  { lia. }
  { rewrite Hmem, Hlen, HX, HI. exact Hend. }
  rewrite Hrun'. unfold reg at 1. cbn [final v set_v].
  rewrite (Hcells' i) by lia. rewrite Hmem, HI, (Hcells i Hin). reflexivity.
Qed.

Lemma dump_then_restore_witness :
  reg (final (run_once no_key 0 0 cleared_after_dump)) 0 = 11
  /\ reg (final (run_once no_key 0 0 cleared_after_dump)) 1 = 22.
Proof.
  assert (H : forall i, 0 <= i <= X 0xF155 ->
                reg (final (run_once no_key 0 0 cleared_after_dump)) i
                = reg dump_state i).
  { apply (dump_then_restore no_key 0 0 no_key 0 0 dump_state dump_state 0xF155
             cleared_after_dump cleared_after_dump 0xF165).
    - reflexivity.
    - reflexivity.
    - reflexivity.
    - reflexivity.
    - intros i Hi. change (X 0xF155) with 1 in Hi.
      assert (i = 0 \/ i = 1) as [-> | ->] by lia; vm_compute; split; discriminate.
    - vm_compute. discriminate.
    - vm_compute. discriminate.
    - apply poll_running. vm_compute. reflexivity.
    - vm_compute. reflexivity.
    - reflexivity.
    - reflexivity.
    - reflexivity.
    - vm_compute. reflexivity.
    - unfold cleared_after_dump. cbn [memory set_v]. reflexivity. }
  split; [exact (H 0 ltac:(vm_compute; split; discriminate))
         | exact (H 1 ltac:(vm_compute; split; discriminate))].
Defined.

(** ** Invariants of the machine *)

Section Sound.
Variable strict : bool.

Lemma val_ok_byte x : 0 <= x <= 255 -> val_ok strict x.
Proof. intros H _. exact H. Qed.

Lemma val_ok_byte_to_Z b : val_ok strict (byte_to_Z b).
Proof. apply val_ok_byte. pose proof (byte_to_Z_range b). lia. Qed.

(** A state that differs only in fields the invariant does not read. *)
Lemma invariant_frame s s' :
  v s' = v s -> delay_timer s' = delay_timer s -> sound_timer s' = sound_timer s ->
  waiting_for_keypress s' = waiting_for_keypress s ->
  keypress_target s' = keypress_target s ->
  invariant strict s -> invariant strict s'.
Proof.
  unfold invariant, registers_ok, latch_ok.
  intros -> -> -> -> ->. exact id.
Qed.

Lemma invariant_insert s n x :
  val_ok strict x -> invariant strict s ->
  invariant strict (set_v (<[n := x]> (v s)) s).
Proof.
  intros Hx (Hl & Hk & Hv & Hd & Hs).
  split; [| split; [| split; [| split]]]; try assumption.
  - apply registers_ok_insert. exact Hl.
  - cbn [v set_v]. apply Forall_insert; assumption.
Qed.

Lemma invariant_reg s i :
  invariant strict s -> 0 <= i < 16 -> val_ok strict (reg s i).
Proof.
  intros (Hl & _ & Hv & _) Hi.
  exact (Forall_lookup_1 _ _ _ _ Hv (lookup_reg s i Hl Hi)).
Qed.

Lemma sound_ret {A} (post : A -> Prop) a : post a -> sound strict post (ret a).
Proof. intros Ha s Hs. split; [exact Hs | exact Ha]. Qed.

Lemma sound_raise {A} (post : A -> Prop) e :
  exn_ok strict e -> sound strict post (raise e).
Proof. intros He s Hs. split; [exact Hs | exact He]. Qed.

Lemma sound_bind {A B} (post : A -> Prop) (post' : B -> Prop) m k :
  sound strict post m -> (forall a, post a -> sound strict post' (k a)) ->
  sound strict post' (bind m k).
Proof.
  intros Hm Hk s Hs. destruct (Hm s Hs) as (Hinv & Hout). unfold bind.
  destruct (outcome (m s)) as [a | e]; cbn [final outcome].
  - exact (Hk a Hout _ Hinv).
  - split; assumption.
Qed.

Lemma sound_weaken {A} (post post' : A -> Prop) m :
  sound strict post m -> (forall a, post a -> post' a) -> sound strict post' m.
Proof.
  intros Hm Hw s Hs. destruct (Hm s Hs) as (Hinv & Hout). split; [exact Hinv |].
  destruct (outcome (m s)); auto.
Qed.

Lemma sound_if {A} (post : A -> Prop) (c : bool) m1 m2 :
  sound strict post m1 -> sound strict post m2 ->
  sound strict post (if c then m1 else m2).
Proof. destruct c; auto. Qed.

Lemma sound_gets {A} (f : Emulator -> A) : sound strict (fun _ => True) (gets f).
Proof. intros s Hs. split; [exact Hs | exact I]. Qed.

Lemma sound_gets_delay_timer : sound strict (val_ok strict) (gets delay_timer).
Proof. intros s Hs. split; [exact Hs |]. apply Hs. Qed.

Lemma sound_emit e : sound strict (fun _ => True) (emit e).
Proof. intros s Hs. split; [exact Hs | exact I]. Qed.

Lemma sound_modify f :
  (forall s, invariant strict s -> invariant strict (f s)) ->
  sound strict (fun _ => True) (modify f).
Proof. intros Hf s Hs. split; [exact (Hf s Hs) | exact I]. Qed.

Lemma sound_lift {A} e (f : Emulator -> option A) (post : A -> Prop) :
  exn_ok strict e -> (forall s a, f s = Some a -> post a) ->
  sound strict post (fun s => lift e (f s) s).
Proof.
  intros He Hp s Hs. destruct (f s) as [a |] eqn:E; (split; [exact Hs |]).
  - exact (Hp s a E).
  - exact He.
Qed.

Lemma exn_ok_OutOfBounds : exn_ok strict OutOfBounds.
Proof. repeat split; discriminate. Qed.

Lemma exn_ok_OverflowError : exn_ok strict OverflowError.
Proof. repeat split; discriminate. Qed.

Lemma exn_ok_Unimplemented i a : exn_ok strict (UnimplementedInstruction i a).
Proof. repeat split; discriminate. Qed.

Lemma sound_getv i : 0 <= i < 16 -> sound strict (val_ok strict) (getv i).
Proof.
  intros Hi s Hs. rewrite (getv_ok s i (proj1 Hs) Hi). split; [exact Hs |].
  apply invariant_reg; assumption.
Qed.

Lemma sound_setv i x :
  0 <= i < 16 -> val_ok strict x -> sound strict (fun _ => True) (setv i x).
Proof.
  intros Hi Hx s Hs. rewrite (setv_ok s i x (proj1 Hs) Hi).
  split; [apply invariant_insert; assumption | exact I].
Qed.

Lemma sound_load a : sound strict (val_ok strict) (load a).
Proof.
  unfold load. apply sound_lift; [apply exn_ok_OutOfBounds |].
  intros s x Hx. destruct (mem_get (memory s) a); [| discriminate].
  injection Hx as <-. apply val_ok_byte_to_Z.
Qed.

Lemma sound_load_range a n : sound strict (fun _ => True) (load_range a n).
Proof. unfold load_range. apply sound_lift; [apply exn_ok_OutOfBounds | auto]. Qed.

Lemma sound_set_memory m : sound strict (fun _ => True) (modify (set_memory m)).
Proof. apply sound_modify. intros s. apply invariant_frame; reflexivity. Qed.

Lemma sound_store a x : val_ok strict x -> sound strict (fun _ => True) (store a x).
Proof.
  intros Hx. unfold store.
  apply sound_bind with (post := fun _ => True).
  - destruct (byte_of_Z x) as [b |] eqn:E; [apply sound_ret; exact I |].
    apply sound_raise. split; [discriminate |]. split; [discriminate |].
    intros Hstrict. exfalso.
    destruct (byte_of_Z_ok x) as (b & Hb & _); [specialize (Hx Hstrict); lia |].
    congruence.
  - intros b _. apply sound_bind with (post := fun _ => True).
    + apply sound_lift; [apply exn_ok_OutOfBounds | auto].
    + intros m _. apply sound_set_memory.
Qed.

Lemma sound_store_range a bs : sound strict (fun _ => True) (store_range a bs).
Proof.
  unfold store_range. apply sound_bind with (post := fun _ => True).
  - apply sound_lift; [apply exn_ok_OutOfBounds | auto].
  - intros m _. apply sound_set_memory.
Qed.

Lemma sound_set_program_counter x :
  sound strict (fun _ => True) (modify (set_program_counter x)).
Proof. apply sound_modify. intros s. apply invariant_frame; reflexivity. Qed.

Lemma sound_set_stack_pointer x :
  sound strict (fun _ => True) (modify (set_stack_pointer x)).
Proof. apply sound_modify. intros s. apply invariant_frame; reflexivity. Qed.

Lemma sound_set_index_register x :
  sound strict (fun _ => True) (modify (set_index_register x)).
Proof. apply sound_modify. intros s. apply invariant_frame; reflexivity. Qed.

Lemma sound_set_delay_timer x :
  val_ok strict x -> sound strict (fun _ => True) (modify (set_delay_timer x)).
Proof.
  intros Hx. apply sound_modify. intros s (Hl & Hk & Hv & Hd & Hs).
  split; [| split; [| split; [| split]]]; assumption.
Qed.

Lemma sound_set_sound_timer x :
  val_ok strict x -> sound strict (fun _ => True) (modify (set_sound_timer x)).
Proof.
  intros Hx. apply sound_modify. intros s (Hl & Hk & Hv & Hd & Hs).
  split; [| split; [| split; [| split]]]; assumption.
Qed.

Lemma sound_advance : sound strict (fun _ => True) advance.
Proof.
  unfold advance. apply sound_bind with (post := fun _ => True);
    [apply sound_gets | intros pc _; apply sound_set_program_counter].
Qed.

Lemma sound_reset_video : sound strict (fun _ => True) reset_video.
Proof.
  unfold reset_video. apply sound_bind with (post := fun _ => True);
    [| intros; apply sound_emit].
  apply sound_modify. intros s. apply invariant_frame; reflexivity.
Qed.

Lemma sound_draw x y sprite : sound strict (fun _ => True) (draw x y sprite).
Proof.
  intros s Hs. split; [| exact I]. cbn [draw final].
  revert Hs. apply invariant_frame; reflexivity.
Qed.

Lemma sound_for_each l body :
  (forall i, In i l -> sound strict (fun _ => True) (body i)) ->
  sound strict (fun _ => True) (for_each l body).
Proof.
  induction l as [| i l IH]; intros Hb; cbn [for_each].
  - apply sound_ret. exact I.
  - apply sound_bind with (post := fun _ => True).
    + apply Hb. left. reflexivity.
    + intros _ _. apply IH. intros j Hj. apply Hb. right. exact Hj.
Qed.

End Sound.

(** *** Values that stay bytes *)

Lemma val_ok_loose x : val_ok false x.
Proof. intros H. discriminate. Qed.

Lemma byte_iff_mask x : 0 <= x <= 255 <-> Z.land x 255 = x.
Proof.
  change 255 with (Z.ones 8) at 2. rewrite Z.land_ones by lia.
  change (2 ^ 8) with 256. split.
  - intros H. apply Z.mod_small. lia.
  - intros H. pose proof (Z.mod_pos_bound x 256 ltac:(lia)). lia.
Qed.

Lemma val_ok_mask strict w : val_ok strict (Z.land w 0x00FF).
Proof.
  apply val_ok_byte. rewrite NN_spec.
  pose proof (Z.mod_pos_bound w 256 ltac:(lia)). lia.
Qed.

Lemma val_ok_masked strict a w : val_ok strict (Z.land a (Z.land w 0x00FF)).
Proof. apply val_ok_byte, land_byte_mask. Qed.

Lemma val_ok_lor strict a b :
  val_ok strict a -> val_ok strict b -> val_ok strict (Z.lor a b).
Proof.
  intros Ha Hb Hs. specialize (Ha Hs). specialize (Hb Hs).
  apply byte_iff_mask in Ha, Hb. apply byte_iff_mask.
  rewrite Z.land_lor_distr_l, Ha, Hb. reflexivity.
Qed.

Lemma val_ok_land strict a b :
  val_ok strict a -> val_ok strict b -> val_ok strict (Z.land a b).
Proof.
  intros Ha Hb Hs. specialize (Hb Hs).
  apply byte_iff_mask in Hb. apply byte_iff_mask.
  rewrite <- Z.land_assoc, Hb. reflexivity.
Qed.

Lemma val_ok_lxor strict a b :
  val_ok strict a -> val_ok strict b -> val_ok strict (Z.lxor a b).
Proof.
  intros Ha Hb Hs. specialize (Ha Hs). specialize (Hb Hs).
  apply byte_iff_mask in Ha, Hb. apply byte_iff_mask.
  rewrite <- Ha, <- Hb at 2. apply Z.bits_inj'. intros n Hn.
  rewrite !Z.land_spec, !Z.lxor_spec, !Z.land_spec.
  destruct (Z.testbit a n), (Z.testbit b n), (Z.testbit 255 n); reflexivity.
Qed.

Lemma val_ok_shiftr strict a : val_ok strict a -> val_ok strict (Z.shiftr a 1).
Proof.
  intros Ha Hs. specialize (Ha Hs). rewrite Z.shiftr_div_pow2 by lia.
  change (2 ^ 1) with 2. split; [apply Z.div_pos; lia |].
  apply Z.lt_succ_r. apply Z.div_lt_upper_bound; lia.
Qed.

Lemma val_ok_lsb strict a : val_ok strict (Z.land a 1).
Proof.
  apply val_ok_byte. change 1 with (Z.ones 1). rewrite Z.land_ones by lia.
  change (2 ^ 1) with 2. pose proof (Z.mod_pos_bound a 2 ltac:(lia)). lia.
Qed.

Lemma val_ok_bit7 strict a : val_ok strict (Z.shiftr (Z.land a 0x80) 7).
Proof.
  apply val_ok_byte. rewrite Z.shiftr_land.
  change (Z.shiftr 0x80 7) with (Z.ones 1). rewrite Z.land_ones by lia.
  change (2 ^ 1) with 2. pose proof (Z.mod_pos_bound (Z.shiftr a 7) 2 ltac:(lia)). lia.
Qed.

Lemma val_ok_0 strict : val_ok strict 0.
Proof. apply val_ok_byte. lia. Qed.

Lemma val_ok_1 strict : val_ok strict 1.
Proof. apply val_ok_byte. lia. Qed.

Lemma val_ok_flag strict (c : bool) x y :
  val_ok strict x -> val_ok strict y -> val_ok strict (if c then x else y).
Proof. destruct c; auto. Qed.

Lemma val_ok_hundreds strict a : val_ok strict a -> val_ok strict (a / 100).
Proof.
  intros Ha Hs. specialize (Ha Hs). split; [apply Z.div_pos; lia |].
  apply Z.lt_succ_r. apply Z.div_lt_upper_bound; lia.
Qed.

Lemma val_ok_tens strict a : val_ok strict ((a mod 100) / 10).
Proof.
  apply val_ok_byte. pose proof (Z.mod_pos_bound a 100 ltac:(lia)).
  split; [apply Z.div_pos; lia |].
  apply Z.lt_succ_r. apply Z.div_lt_upper_bound; lia.
Qed.

Lemma val_ok_ones strict a : val_ok strict ((a mod 100) mod 10).
Proof.
  apply val_ok_byte. pose proof (Z.mod_pos_bound (a mod 100) 10 ltac:(lia)). lia.
Qed.

Lemma val_ok_mod256 strict a : val_ok strict (a mod 256).
Proof. apply val_ok_byte. pose proof (Z.mod_pos_bound a 256 ltac:(lia)). lia. Qed.

Create HintDb vals.
#[local] Hint Resolve val_ok_mask val_ok_masked val_ok_lor val_ok_land val_ok_lxor
  val_ok_shiftr val_ok_lsb val_ok_bit7 val_ok_0 val_ok_1 val_ok_flag
  val_ok_hundreds val_ok_tens val_ok_ones val_ok_mod256 val_ok_byte_to_Z
  val_ok_loose : vals.

Lemma sound_lift_const strict {A} e (o : option A) :
  exn_ok strict e -> sound strict (fun _ => True) (lift e o).
Proof.
  intros He. destruct o; [apply sound_ret; exact I | apply sound_raise; exact He].
Qed.

(** One statement of a body, by the rule for its shape. *)
Ltac snd_step :=
  lazymatch goal with
  | |- sound _ _ (bind _ _) => eapply sound_bind; [| intros ? ?]
  | |- sound _ _ (if _ then _ else _) => apply sound_if
  | |- sound _ _ (getv _) => apply sound_getv; solve [auto with chip8]
  | |- sound _ _ (setv _ _) =>
      apply sound_setv; [solve [auto with chip8] | solve [auto with vals]]
  | |- sound _ _ (gets delay_timer) => apply sound_gets_delay_timer
  | |- sound _ _ (gets _) => apply sound_gets
  | |- sound _ _ (load _) => apply sound_load
  | |- sound _ _ (store _ _) => apply sound_store; solve [auto with vals]
  | |- sound _ _ (load_range _ _) => apply sound_load_range
  | |- sound _ _ (store_range _ _) => apply sound_store_range
  | |- sound _ _ (emit _) => apply sound_emit
  | |- sound _ _ advance => apply sound_advance
  | |- sound _ _ reset_video => apply sound_reset_video
  | |- sound _ _ (draw _ _ _) => apply sound_draw
  | |- sound _ _ (modify (set_program_counter _)) => apply sound_set_program_counter
  | |- sound _ _ (modify (set_stack_pointer _)) => apply sound_set_stack_pointer
  | |- sound _ _ (modify (set_index_register _)) => apply sound_set_index_register
  | |- sound _ _ (modify (set_delay_timer _)) =>
      apply sound_set_delay_timer; solve [auto with vals]
  | |- sound _ _ (modify (set_sound_timer _)) =>
      apply sound_set_sound_timer; solve [auto with vals]
  | |- sound _ _ (lift _ _) =>
      apply sound_lift_const;
      first [apply exn_ok_OverflowError | apply exn_ok_OutOfBounds]
  | |- sound _ _ (ret _) => apply sound_ret; exact I
  | |- sound _ _ (raise (UnimplementedInstruction _ _)) =>
      apply sound_raise; apply exn_ok_Unimplemented
  end.

Ltac snd_solve := cbv zeta; repeat snd_step.

(** *** The branches of the chain *)

Section SoundOps.
Variable strict : bool.
Variables (keys : Z -> bool) (font rand : Z).
Local Abbreviation ok := (sound strict (fun _ : unit => True)).

Lemma sound_op_00E0 : ok op_00E0.
Proof. unfold op_00E0. snd_solve. Qed.

Lemma sound_op_00EE : ok op_00EE.
Proof. unfold op_00EE. snd_solve. Qed.

Lemma sound_op_1NNN w : ok (op_1NNN w).
Proof. unfold op_1NNN. snd_solve. Qed.

Lemma sound_op_2NNN w : ok (op_2NNN w).
Proof. unfold op_2NNN. snd_solve. Qed.

Lemma sound_op_3XNN w : ok (op_3XNN w).
Proof. unfold op_3XNN. snd_solve. Qed.

Lemma sound_op_4XNN w : ok (op_4XNN w).
Proof. unfold op_4XNN. snd_solve. Qed.

Lemma sound_op_5XY0 w : ok (op_5XY0 w).
Proof. unfold op_5XY0. snd_solve. Qed.

Lemma sound_op_6XNN w : ok (op_6XNN w).
Proof. unfold op_6XNN. snd_solve. Qed.

Lemma sound_op_8XY0 w : ok (op_8XY0 w).
Proof. unfold op_8XY0. snd_solve. Qed.

Lemma sound_op_8XY1 w : ok (op_8XY1 w).
Proof. unfold op_8XY1. snd_solve. Qed.

Lemma sound_op_8XY2 w : ok (op_8XY2 w).
Proof. unfold op_8XY2. snd_solve. Qed.

Lemma sound_op_8XY3 w : ok (op_8XY3 w).
Proof. unfold op_8XY3. snd_solve. Qed.

Lemma sound_op_8XY6 w : ok (op_8XY6 w).
Proof. unfold op_8XY6. snd_solve. Qed.

Lemma sound_op_9XY0 w : ok (op_9XY0 w).
Proof. unfold op_9XY0. snd_solve. Qed.

Lemma sound_op_ANNN w : ok (op_ANNN w).
Proof. unfold op_ANNN. snd_solve. Qed.

Lemma sound_op_BNNN w : ok (op_BNNN w).
Proof. unfold op_BNNN. snd_solve. Qed.

Lemma sound_op_CXNN w : ok (op_CXNN rand w).
Proof. unfold op_CXNN. snd_solve. Qed.

Lemma sound_op_DXYN w : ok (op_DXYN w).
Proof. unfold op_DXYN. snd_solve. Qed.

Lemma sound_op_EX9E w : ok (op_EX9E keys w).
Proof. unfold op_EX9E. snd_solve. Qed.

Lemma sound_op_EXA1 w : ok (op_EXA1 keys w).
Proof. unfold op_EXA1. snd_solve. Qed.

Lemma sound_op_FX07 w : ok (op_FX07 w).
Proof. unfold op_FX07. snd_solve. Qed.

Lemma sound_op_FX15 w : ok (op_FX15 w).
Proof. unfold op_FX15. snd_solve. Qed.

Lemma sound_op_FX18 w : ok (op_FX18 w).
Proof. unfold op_FX18. snd_solve. Qed.

Lemma sound_op_FX1E w : ok (op_FX1E w).
Proof. unfold op_FX1E. snd_solve. Qed.

Lemma sound_op_FX29 w : ok (op_FX29 font w).
Proof. unfold op_FX29. snd_solve. Qed.

Lemma sound_op_FX33 w : ok (op_FX33 w).
Proof. unfold op_FX33. snd_solve. Qed.

Lemma sound_op_FX55 w : ok (op_FX55 w).
Proof.
  unfold op_FX55. apply sound_for_each. intros i Hi.
  apply in_range in Hi. pose proof (X_range w). snd_solve.
Qed.

Lemma sound_op_FX65 w : ok (op_FX65 w).
Proof.
  unfold op_FX65. apply sound_for_each. intros i Hi.
  apply in_range in Hi. pose proof (X_range w). snd_solve.
Qed.

Lemma sound_unimplemented w : ok (unimplemented w).
Proof. unfold unimplemented. snd_solve. Qed.

End SoundOps.

(** *** The branches that wrap around, shift, or set the latch *)

Lemma sound_while_above_255 fuel x c :
  0 <= x < 16 -> sound false (fun _ => True) (while_above_255 fuel x c).
Proof.
  intros Hx. revert c. induction fuel as [| fuel IH]; intros c; cbn [while_above_255].
  - apply sound_ret. exact I.
  - eapply sound_bind; [apply sound_getv; exact Hx | intros a _].
    apply sound_if; [| apply sound_ret; exact I].
    eapply sound_bind; [apply sound_setv; [exact Hx | apply val_ok_loose] |].
    intros _ _. apply IH.
Qed.

Lemma sound_while_below_0 fuel x c :
  0 <= x < 16 -> sound false (fun _ => True) (while_below_0 fuel x c).
Proof.
  intros Hx. revert c. induction fuel as [| fuel IH]; intros c; cbn [while_below_0].
  - apply sound_ret. exact I.
  - eapply sound_bind; [apply sound_getv; exact Hx | intros a _].
    apply sound_if; [| apply sound_ret; exact I].
    eapply sound_bind; [apply sound_setv; [exact Hx | apply val_ok_loose] |].
    intros _ _. apply IH.
Qed.

Lemma invariant_insert2 strict s n k x y :
  val_ok strict x -> val_ok strict y -> invariant strict s ->
  invariant strict (set_v (<[n := x]> (<[k := y]> (v s))) s).
Proof.
  intros Hx Hy Hs.
  exact (invariant_insert strict (set_v (<[k := y]> (v s)) s) n x Hx
           (invariant_insert strict s k y Hy Hs)).
Qed.

Lemma invariant_byte_reg s i :
  invariant true s -> 0 <= i < 16 -> 0 <= reg s i <= 255.
Proof. intros Hs Hi. exact (invariant_reg true s i Hs Hi eq_refl). Qed.

Ltac snd_loose :=
  cbv zeta;
  repeat lazymatch goal with
    | |- sound _ _ (while_above_255 _ _ _) =>
        apply sound_while_above_255; solve [auto with chip8]
    | |- sound _ _ (while_below_0 _ _ _) =>
        apply sound_while_below_0; solve [auto with chip8]
    | |- _ => snd_step
    end.

Lemma sound_op_7XNN strict w : sound strict (fun _ => True) (op_7XNN w).
Proof.
  destruct strict.
  - intros s Hs. pose proof (X_range w) as Hx.
    rewrite op_7XNN_run by (try apply invariant_byte_reg; auto; apply Hs).
    split; [| exact I]. apply invariant_insert; [apply val_ok_mod256 | exact Hs].
  - unfold op_7XNN, wrap_above_255. snd_loose.
Qed.

Lemma sound_op_8XY4 strict w : sound strict (fun _ => True) (op_8XY4 w).
Proof.
  destruct strict.
  - intros s Hs. pose proof (X_range w) as Hx. pose proof (Y_range w) as Hy.
    rewrite op_8XY4_run by (try apply invariant_byte_reg; auto; apply Hs).
    split; [| exact I].
    apply invariant_insert2; [| apply val_ok_mod256 | exact Hs].
    apply val_ok_flag; auto with vals.
  - unfold op_8XY4, wrap_above_255. snd_loose.
Qed.

Lemma sound_op_8XY5 strict w : sound strict (fun _ => True) (op_8XY5 w).
Proof.
  destruct strict.
  - intros s Hs. pose proof (X_range w) as Hx. pose proof (Y_range w) as Hy.
    rewrite op_8XY5_run by (try apply invariant_byte_reg; auto; apply Hs).
    split; [| exact I].
    apply invariant_insert2; [| apply val_ok_mod256 | exact Hs].
    apply val_ok_flag; auto with vals.
  - unfold op_8XY5, wrap_below_0. snd_loose.
Qed.

Lemma sound_op_8XY7 strict w : sound strict (fun _ => True) (op_8XY7 w).
Proof.
  destruct strict.
  - intros s Hs. pose proof (X_range w) as Hx. pose proof (Y_range w) as Hy.
    rewrite op_8XY7_run by (try apply invariant_byte_reg; auto; apply Hs).
    split; [| exact I].
    apply invariant_insert2; [| apply val_ok_mod256 | exact Hs].
    apply val_ok_flag; auto with vals.
  - unfold op_8XY7, wrap_below_0. snd_loose.
Qed.

(** The shift left keeps the loose invariant only. *)
Lemma sound_op_8XYE w : sound false (fun _ => True) (op_8XYE w).
Proof. unfold op_8XYE. snd_loose. Qed.

Lemma sound_op_FX0A strict w : sound strict (fun _ => True) (op_FX0A w).
Proof.
  intros s (Hl & Hk & Hv & Hd & Hs). split; [| exact I].
  split; [| split; [| split; [| split]]]; try assumption.
  exact (X_range w).
Qed.

(** *** The chain, the fetch and the poll *)

(** The branch named by the goal. *)
Ltac snd_op :=
  lazymatch goal with
  | |- sound _ _ op_00E0 => apply sound_op_00E0
  | |- sound _ _ op_00EE => apply sound_op_00EE
  | |- sound _ _ (op_1NNN _) => apply sound_op_1NNN
  | |- sound _ _ (op_2NNN _) => apply sound_op_2NNN
  | |- sound _ _ (op_3XNN _) => apply sound_op_3XNN
  | |- sound _ _ (op_4XNN _) => apply sound_op_4XNN
  | |- sound _ _ (op_5XY0 _) => apply sound_op_5XY0
  | |- sound _ _ (op_6XNN _) => apply sound_op_6XNN
  | |- sound _ _ (op_7XNN _) => apply sound_op_7XNN
  | |- sound _ _ (op_8XY0 _) => apply sound_op_8XY0
  | |- sound _ _ (op_8XY1 _) => apply sound_op_8XY1
  | |- sound _ _ (op_8XY2 _) => apply sound_op_8XY2
  | |- sound _ _ (op_8XY3 _) => apply sound_op_8XY3
  | |- sound _ _ (op_8XY4 _) => apply sound_op_8XY4
  | |- sound _ _ (op_8XY5 _) => apply sound_op_8XY5
  | |- sound _ _ (op_8XY6 _) => apply sound_op_8XY6
  | |- sound _ _ (op_8XY7 _) => apply sound_op_8XY7
  | |- sound _ _ (op_9XY0 _) => apply sound_op_9XY0
  | |- sound _ _ (op_ANNN _) => apply sound_op_ANNN
  | |- sound _ _ (op_BNNN _) => apply sound_op_BNNN
  | |- sound _ _ (op_CXNN _ _) => apply sound_op_CXNN
  | |- sound _ _ (op_DXYN _) => apply sound_op_DXYN
  | |- sound _ _ (op_EX9E _ _) => apply sound_op_EX9E
  | |- sound _ _ (op_EXA1 _ _) => apply sound_op_EXA1
  | |- sound _ _ (op_FX07 _) => apply sound_op_FX07
  | |- sound _ _ (op_FX0A _) => apply sound_op_FX0A
  | |- sound _ _ (op_FX15 _) => apply sound_op_FX15
  | |- sound _ _ (op_FX18 _) => apply sound_op_FX18
  | |- sound _ _ (op_FX1E _) => apply sound_op_FX1E
  | |- sound _ _ (op_FX29 _ _) => apply sound_op_FX29
  | |- sound _ _ (op_FX33 _) => apply sound_op_FX33
  | |- sound _ _ (op_FX55 _) => apply sound_op_FX55
  | |- sound _ _ (op_FX65 _) => apply sound_op_FX65
  end.

Lemma sound_execute strict keys font rand w :
  (strict = true -> Z.land w 0xF00F <> 0x800E) ->
  sound strict (fun _ => True) (execute keys font rand w).
Proof.
  intros Hw. unfold execute.
  repeat lazymatch goal with
    | |- sound _ _ (if ?c then op_8XYE _ else _) =>
        destruct c eqn:?;
        [ destruct strict;
          [ exfalso; apply Hw; [reflexivity | apply Z.eqb_eq; assumption]
          | apply sound_op_8XYE ]
        | ]
    | |- sound _ _ (if ?c then _ else _) => destruct c; [snd_op |]
    end.
  apply sound_unimplemented.
Qed.

Lemma sound_fetch_execute strict keys font rand s :
  (strict = true -> forall w, fetch s = Some w -> Z.land w 0xF00F <> 0x800E) ->
  invariant strict s ->
  invariant strict (final (fetch_execute keys font rand s))
  /\ match outcome (fetch_execute keys font rand s) with
     | Returned _ => True
     | Raised e => exn_ok strict e
     end.
Proof.
  intros Hw Hs. unfold fetch_execute.
  rewrite (bind_pure _ _ s s (program_counter s)) by reflexivity.
  destruct (mem_get_range (memory s) (program_counter s) 2) as [bs |] eqn:Hm.
  - rewrite (bind_pure _ _ s s bs) by (unfold load_range; rewrite Hm; reflexivity).
    rewrite (bind_pure _ _ s (set_program_counter (program_counter s + 2) s) tt)
      by reflexivity.
    refine (sound_execute strict keys font rand (from_bytes bs) _ _ _).
    + intros Hstrict. apply (Hw Hstrict). unfold fetch. rewrite Hm. reflexivity.
    + revert Hs. apply invariant_frame; reflexivity.
  - erewrite bind_raised by (unfold load_range; rewrite Hm; reflexivity).
    split; [exact Hs | apply exn_ok_OutOfBounds].
Qed.

Lemma sound_poll strict keys : sound strict (fun _ => True) (poll keys).
Proof.
  intros s Hs. destruct (waiting_for_keypress s) eqn:Hw.
  - destruct (pressed_key keys) as [key |] eqn:Hk.
    + destruct Hs as (Hl & Hlatch & Hv & Hd & Hsd).
      unfold latch_ok in Hlatch.
      destruct (keypress_target s) as [t |] eqn:Ht; [| congruence].
      rewrite (poll_latches keys s key t Hw Hk Ht Hlatch Hl).
      split; [| exact I].
      split; [| split; [| split; [| split]]]; try assumption.
      * apply registers_ok_insert. exact Hl.
      * unfold latch_ok. cbn. rewrite Ht. exact Hlatch.
      * cbn. apply Forall_insert; [exact Hv |].
        apply val_ok_byte. destruct (pressed_key_first keys key Hk) as (Hrange & _).
        lia.
    + rewrite (poll_idle keys s Hw Hk). split; [exact Hs | exact I].
  - rewrite (poll_running keys s Hw). split; [exact Hs | exact I].
Qed.

Lemma poll_keeps_fetch keys s : fetch (final (poll keys s)) = fetch s.
Proof.
  destruct (poll_cases keys s)
    as [(_ & Hp) | [(_ & _ & Hp) | [(_ & e & Hp & _) | (_ & key & t & n & _ & _ & _ & Hp)]]];
    rewrite Hp; reflexivity.
Qed.

Lemma sound_run_once strict keys font rand s :
  (strict = true -> forall w, fetch s = Some w -> Z.land w 0xF00F <> 0x800E) ->
  invariant strict s ->
  invariant strict (final (run_once keys font rand s))
  /\ match outcome (run_once keys font rand s) with
     | Returned _ => True
     | Raised e => exn_ok strict e
     end.
Proof.
  intros Hw Hs. unfold run_once, bind.
  destruct (sound_poll strict keys s Hs) as (Hinv & Hout).
  pose proof (poll_keeps_fetch keys s) as Hfetch.
  destruct (outcome (poll keys s)) as [go | e]; cbn [final outcome].
  - destruct go.
    + refine (sound_fetch_execute strict keys font rand _ _ Hinv).
      rewrite Hfetch. exact Hw.
    + split; [exact Hinv | exact I].
  - split; assumption.
Qed.

Lemma sound_decrement_timers strict : sound strict (fun _ => True) decrement_timers.
Proof.
  intros s (Hl & Hk & Hv & Hd & Hs). rewrite decrement_timers_run.
  split; [| exact I].
  split; [| split; [| split; [| split]]]; try assumption.
  - cbn. intros Hstrict. specialize (Hd Hstrict).
    destruct (Z.gtb_spec (delay_timer s) 0); lia.
  - cbn. intros Hstrict. specialize (Hs Hstrict).
    destruct (Z.gtb_spec (sound_timer s) 0); lia.
Qed.

(** *** What every call keeps *)

Lemma invariant_loose s : invariant false s <-> registers_ok s /\ latch_ok s.
Proof.
  unfold invariant. split.
  - intros (Hl & Hk & _). split; assumption.
  - intros (Hl & Hk).
    split; [exact Hl |]. split; [exact Hk |].
    split; [| split; apply val_ok_loose].
    apply Forall_forall. intros x _. apply val_ok_loose.
Qed.

Lemma invariant_strict s :
  invariant true s <-> registers_ok s /\ latch_ok s /\ all_bytes s.
Proof.
  unfold invariant, all_bytes, val_ok. split.
  - intros (Hl & Hk & Hv & Hd & Hs).
    split; [exact Hl |]. split; [exact Hk |].
    split; [| split; [exact (Hd eq_refl) | exact (Hs eq_refl)]].
    eapply Forall_impl; [exact Hv |]. intros x Hx. exact (Hx eq_refl).
  - intros (Hl & Hk & Hv & Hd & Hs).
    split; [exact Hl |]. split; [exact Hk |].
    split; [| split; intros _; assumption].
    eapply Forall_impl; [exact Hv |]. intros x Hx _. exact Hx.
Qed.

(** Well-formedness is kept by every call.  From a state with sixteen
    registers whose latch, if set, names a register, a call of [run_once]
    leaves such a state again, however it ends, and it never raises
    IndexError or TypeError: the only failures left are OutOfBounds,
    ValueError, OverflowError and UnimplementedInstruction. *)
Theorem run_once_well_formed keys font rand s :
  registers_ok s -> latch_ok s ->
  let r := run_once keys font rand s in
  registers_ok (final r) /\ latch_ok (final r)
  /\ outcome r <> Raised IndexError /\ outcome r <> Raised TypeError.
Proof.
  intros Hl Hk r. subst r.
  destruct (sound_run_once false keys font rand s) as (Hinv & Hout).
  { discriminate. }
  { apply invariant_loose. split; assumption. }
  apply invariant_loose in Hinv as (Hl' & Hk').
  split; [exact Hl' |]. split; [exact Hk' |].
  destruct (outcome (run_once keys font rand s)) as [[] | e].
  - split; discriminate.
  - destruct Hout as (H1 & H2 & _). split; intros [= ->]; contradiction.
Qed.

Lemma run_once_well_formed_witness :
  registers_ok (final (run_once (only_key 5) 0 0 waiting_state))
  /\ latch_ok (final (run_once (only_key 5) 0 0 waiting_state)).
Proof.
  destruct (run_once_well_formed (only_key 5) 0 0 waiting_state eq_refl
              ltac:(unfold latch_ok; cbn; lia)) as (H1 & H2 & _).
  split; assumption.
Defined.

(** Only the shift left takes a value out of a byte.  From a well-formed
    state whose registers and timers are all in [0, 255], a call that
    does not find an 8XYE word at the program counter leaves them all in
    [0, 255], and never raises ValueError, IndexError or TypeError. *)
Theorem bytes_kept_unless_shift_left keys font rand s :
  registers_ok s -> latch_ok s -> all_bytes s ->
  (forall w, fetch s = Some w -> Z.land w 0xF00F <> 0x800E) ->
  let r := run_once keys font rand s in
  all_bytes (final r)
  /\ outcome r <> Raised ValueError
  /\ outcome r <> Raised IndexError /\ outcome r <> Raised TypeError.
Proof.
  intros Hl Hk Hb Hw r. subst r.
  destruct (sound_run_once true keys font rand s) as (Hinv & Hout).
  { intros _. exact Hw. }
  { apply invariant_strict. split; [exact Hl |]. split; [exact Hk | exact Hb]. }
  apply invariant_strict in Hinv as (_ & _ & Hb').
  split; [exact Hb' |].
  destruct (outcome (run_once keys font rand s)) as [[] | e].
  - split; [| split]; discriminate.
  - destruct Hout as (H1 & H2 & H3). specialize (H3 eq_refl).
    split; [| split]; intros [= ->]; contradiction.
Qed.

Lemma bytes_kept_unless_shift_left_witness :
  all_bytes (final (run_once no_key 0 0 sum_state)).
Proof.
  refine (proj1 (bytes_kept_unless_shift_left no_key 0 0 sum_state eq_refl eq_refl _ _)).
  - repeat split; try (vm_compute; discriminate).
    repeat constructor; vm_compute; discriminate.
  - intros w Hw. vm_compute in Hw. injection Hw as <-. vm_compute. discriminate.
Defined.

(** *** From the constructor on *)

Lemma init_invariant strict m vm : invariant strict (init m vm).
Proof.
  split; [reflexivity |]. split; [reflexivity |].
  split; [| split; apply val_ok_0].
  apply Forall_replicate, val_ok_0.
Qed.

Lemma sound_perform_loose font c s :
  invariant false s ->
  invariant false (final (perform font c s))
  /\ match outcome (perform font c s) with
     | Returned _ => True
     | Raised e => exn_ok false e
     end.
Proof.
  intros Hs. destruct c as [keys rand |]; cbn [perform].
  - refine (sound_run_once false keys font rand s _ Hs). discriminate.
  - exact (sound_decrement_timers false s Hs).
Qed.

Lemma after_app font cs c s :
  after font (cs ++ [c]) s = final (perform font c (after font cs s)).
Proof. unfold after. rewrite fold_left_app. reflexivity. Qed.

(** Whatever sequence of [run_once] and [decrement_timers] calls the host
    makes on an emulator as the constructor built it, with whatever keys
    and random values, carrying on after failures or not, the register
    file has its sixteen cells, the latch names a register whenever it is
    set, and no call raises IndexError or TypeError. *)
Theorem reachable_well_formed font m vm cs c :
  let s := after font cs (init m vm) in
  registers_ok s /\ latch_ok s
  /\ outcome (perform font c s) <> Raised IndexError
  /\ outcome (perform font c s) <> Raised TypeError.
Proof.
  intros s.
  assert (Hinv : invariant false s).
  { subst s. induction cs as [| c' cs IH] using rev_ind.
    - apply init_invariant.
    - rewrite after_app. exact (proj1 (sound_perform_loose font c' _ IH)). }
  destruct (sound_perform_loose font c s Hinv) as (_ & Hout).
  apply invariant_loose in Hinv as (Hl & Hk).
  split; [exact Hl |]. split; [exact Hk |].
  destruct (outcome (perform font c s)) as [[] | e].
  - split; discriminate.
  - destruct Hout as (H1 & H2 & _). split; intros [= ->]; contradiction.
Qed.

(** As long as no call finds an 8XYE word at the program counter, every
    register and both timers of an emulator as the constructor built it
    stay in [0, 255] through any sequence of calls. *)
Theorem reachable_bytes font m vm cs :
  no_shift_left font cs (init m vm) ->
  all_bytes (after font cs (init m vm)).
Proof.
  intros Hns.
  assert (Hinv : forall s, invariant true s -> no_shift_left font cs s ->
                           invariant true (after font cs s)).
  { clear Hns. induction cs as [| c cs IH]; intros s Hs Hn; [exact Hs |].
    cbn [after fold_left]. destruct Hn as (Hc & Hrest).
    apply (IH (final (perform font c s))); [| exact Hrest].
    destruct c as [keys rand |]; cbn [perform].
    - exact (proj1 (sound_run_once true keys font rand s (fun _ => Hc) Hs)).
    - exact (proj1 (sound_decrement_timers true s Hs)). }
  apply invariant_strict. apply Hinv; [apply init_invariant | exact Hns].
Qed.

Lemma reachable_bytes_witness :
  all_bytes (after 0 sample_calls (init sample_store blank_video))
  /\ reg (after 0 sample_calls (init sample_store blank_video)) 0 = 44.
Proof.
  split; [| reflexivity].
  apply reachable_bytes.
  repeat split; intros w Hw; vm_compute in Hw; injection Hw as <-;
    vm_compute; discriminate.
Defined.

(** ** Loads, moves and logic (6XNN, 8XY0-8XY3) *)

Section DispatchRest.
Variables (is_key_pressed : Z -> bool) (FONT_START rand : Z).
Local Abbreviation execute := (execute is_key_pressed FONT_START rand).

Lemma execute_8XY0 w : Z.land w 0xF00F = 0x8000 -> execute w = op_8XY0 w.
Proof. intros H. dispatch H. Qed.

Lemma execute_8XY1 w : Z.land w 0xF00F = 0x8001 -> execute w = op_8XY1 w.
Proof. intros H. dispatch H. Qed.

Lemma execute_8XY2 w : Z.land w 0xF00F = 0x8002 -> execute w = op_8XY2 w.
Proof. intros H. dispatch H. Qed.

Lemma execute_8XY3 w : Z.land w 0xF00F = 0x8003 -> execute w = op_8XY3 w.
Proof. intros H. dispatch H. Qed.

Lemma execute_ANNN w : Z.land w 0xF000 = 0xA000 -> execute w = op_ANNN w.
Proof. intros H. dispatch H. Qed.

Lemma execute_DXYN w : Z.land w 0xF000 = 0xD000 -> execute w = op_DXYN w.
Proof. intros H. dispatch H. Qed.

Lemma execute_FX29 w :
  Z.land w 0xF0FF = 0xF029 -> execute w = op_FX29 FONT_START w.
Proof. intros H. dispatch H. Qed.

End DispatchRest.

(** A call that fetches 6XNN, 8XY0, 8XY1, 8XY2 or 8XY3 writes NN, V[Y],
    V[X] | V[Y], V[X] & V[Y] or V[X] ^ V[Y] into V[X] and changes nothing
    else but the program counter: no flag is written, so V[F] keeps its
    value unless it is the destination. *)
Theorem load_move_logic keys font rand s s0 w :
  poll keys s = mkResult s0 [] (Returned true) ->
  fetch s0 = Some w ->
  registers_ok s0 ->
  let r := run_once keys font rand s in
  let writes x :=
    r = mkResult
          (set_v (<[Z.to_nat (X w) := x]> (v s0))
             (set_program_counter (program_counter s0 + 2) s0))
          [] (Returned tt) in
  (Z.land w 0xF000 = 0x6000 -> writes (NN w))
  /\ (Z.land w 0xF00F = 0x8000 -> writes (reg s0 (Y w)))
  /\ (Z.land w 0xF00F = 0x8001 -> writes (Z.lor (reg s0 (X w)) (reg s0 (Y w))))
  /\ (Z.land w 0xF00F = 0x8002 -> writes (Z.land (reg s0 (X w)) (reg s0 (Y w))))
  /\ (Z.land w 0xF00F = 0x8003 -> writes (Z.lxor (reg s0 (X w)) (reg s0 (Y w)))).
Proof.
  intros Hp Hf Hl r writes. subst r writes. cbv beta.
  rewrite (run_once_fetches _ _ _ _ _ _ Hp Hf).
  pose proof (X_range w) as Hx. pose proof (Y_range w) as Hy.
  repeat split; intros Hw.
  - rewrite (execute_6XNN _ _ _ _ Hw). unfold op_6XNN.
    rewrite setv_ok by auto with chip8. reflexivity.
  - rewrite (execute_8XY0 _ _ _ _ Hw). unfold op_8XY0. run_getv.
    rewrite setv_ok by auto with chip8. reflexivity.
  - rewrite (execute_8XY1 _ _ _ _ Hw). unfold op_8XY1. run_getv. run_getv.
    rewrite setv_ok by auto with chip8. reflexivity.
  - rewrite (execute_8XY2 _ _ _ _ Hw). unfold op_8XY2. run_getv. run_getv.
    rewrite setv_ok by auto with chip8. reflexivity.
  - rewrite (execute_8XY3 _ _ _ _ Hw). unfold op_8XY3. run_getv. run_getv.
    rewrite setv_ok by auto with chip8. reflexivity.
Qed.

Lemma load_move_logic_witness :
  reg (final (run_once no_key 0 0 (boot [x6a; x07]))) 0xA = 7
  /\ reg (final (run_once no_key 0 0 sum_state_xor)) 0 = 172.
Proof.
  destruct (load_move_logic no_key 0 0 (boot [x6a; x07]) (boot [x6a; x07]) 0x6A07
              eq_refl eq_refl eq_refl) as (H6 & _).
  destruct (load_move_logic no_key 0 0 sum_state_xor sum_state_xor 0x8013
              eq_refl eq_refl eq_refl) as (_ & _ & _ & _ & H3).
  rewrite (H6 eq_refl), (H3 eq_refl). split; reflexivity.
Defined.

(** ** Index register loads (ANNN, FX29) *)

(** A call that fetches ANNN leaves the index register at NNN, inside
    [0, 0xFFF]; a call that fetches FX29 leaves it at FONT_START +
    5 * V[X], so consecutive digits are five cells apart.  Neither
    changes anything else but the program counter. *)
Theorem index_loads keys font rand s s0 w :
  poll keys s = mkResult s0 [] (Returned true) ->
  fetch s0 = Some w ->
  registers_ok s0 ->
  let r := run_once keys font rand s in
  let points_to i :=
    r = mkResult
          (set_index_register i (set_program_counter (program_counter s0 + 2) s0))
          [] (Returned tt) in
  (Z.land w 0xF000 = 0xA000 -> points_to (NNN w) /\ 0 <= NNN w <= 0xFFF)
  /\ (Z.land w 0xF0FF = 0xF029 -> points_to (font + reg s0 (X w) * 5)).
Proof.
  intros Hp Hf Hl r points_to. subst r points_to. cbv beta.
  rewrite (run_once_fetches _ _ _ _ _ _ Hp Hf).
  pose proof (X_range w) as Hx.
  split; intros Hw.
  - rewrite (execute_ANNN _ _ _ _ Hw). split; [reflexivity |].
    unfold NNN. rewrite NNN_spec.
    pose proof (Z.mod_pos_bound w 4096 ltac:(lia)). lia.
  - rewrite (execute_FX29 _ _ _ _ Hw). unfold op_FX29. run_getv. reflexivity.
Qed.

Lemma index_loads_witness :
  index_register (final (run_once no_key 0 0 (boot [xa3; x00]))) = 0x300
  /\ index_register (final (run_once no_key 80 0 digit_state)) = 80 + 35.
Proof.
  destruct (index_loads no_key 0 0 (boot [xa3; x00]) (boot [xa3; x00]) 0xA300
              eq_refl eq_refl eq_refl) as (HA & _).
  destruct (index_loads no_key 80 0 digit_state digit_state 0xF029
              eq_refl eq_refl eq_refl) as (_ & HF).
  destruct (HA eq_refl) as (HA' & _).
  rewrite HA', (HF eq_refl). split; reflexivity.
Defined.

(** ** Failures that leave the machine alone *)

(** A call that gets past the key poll with the two cells at the program
    counter not both inside the store raises OutOfBounds with no signal
    emitted and the state as the poll left it: the program counter has
    not been advanced. *)
Theorem fetch_outside_store keys font rand s s0 :
  poll keys s = mkResult s0 [] (Returned true) ->
  fetch s0 = None ->
  run_once keys font rand s = mkResult s0 [] (Raised OutOfBounds).
Proof.
  intros Hp Hf. unfold run_once. rewrite (bind_pure _ _ _ _ _ Hp).
  unfold fetch_execute. run_pure. apply bind_raised.
  unfold load_range. unfold fetch in Hf.
  destruct (mem_get_range (memory s0) (program_counter s0) 2); [discriminate |].
  reflexivity.
Qed.

Lemma fetch_outside_store_witness :
  run_once no_key 0 0 (set_program_counter 4095 (boot []))
  = mkResult (set_program_counter 4095 (boot [])) [] (Raised OutOfBounds).
Proof.
  exact (fetch_outside_store no_key 0 0 (set_program_counter 4095 (boot []))
           (set_program_counter 4095 (boot [])) eq_refl eq_refl).
Defined.

(** A call that fetches 2NNN with the two cells at the stack pointer not
    both inside the store raises OutOfBounds: nothing is pushed, the
    stack pointer stays, and the jump is not made; the program counter is
    left on the instruction after the call. *)
Theorem call_outside_store keys font rand s s0 w :
  poll keys s = mkResult s0 [] (Returned true) ->
  fetch s0 = Some w ->
  Z.land w 0xF000 = 0x2000 ->
  program_counter s0 + 2 < 65536 ->
  stack_pointer s0 < 0 \/ Z.of_nat (length (memory s0)) < stack_pointer s0 + 2 ->
  run_once keys font rand s =
    mkResult (set_program_counter (program_counter s0 + 2) s0) []
      (Raised OutOfBounds).
Proof.
  intros Hp Hf Hw Hpc Hsp.
  destruct (fetch_inv _ _ Hf) as (ibs & Hibs & _).
  unfold mem_get_range in Hibs.
  destruct (in_span _ _ _) eqn:Hspan in Hibs; [| discriminate].
  apply in_span_inv in Hspan as (Hpc0 & _).
  destruct (to_bytes2_ok (program_counter s0 + 2)) as (bs & Hbs); [lia |].
  destruct (from_to_bytes2 _ _ Hbs) as (_ & Hlen).
  rewrite (run_once_fetches _ _ _ _ _ _ Hp Hf), (execute_2NNN _ _ _ _ Hw).
  unfold op_2NNN. run_pure.
  cbn [program_counter set_program_counter]. rewrite Hbs. run_pure. run_pure.
  apply bind_raised. unfold store_range. apply bind_raised.
  cbn [memory stack_pointer set_program_counter]. unfold mem_set_range.
  destruct (in_span (memory s0) (stack_pointer s0) (Z.of_nat (length bs))) eqn:E;
    [| reflexivity].
  apply in_span_inv in E. rewrite Hlen in E. lia.
Qed.

Lemma call_outside_store_witness :
  run_once no_key 0 0 (set_stack_pointer 4095 (boot [x22; x04]))
  = mkResult (set_program_counter 0x202 (set_stack_pointer 4095 (boot [x22; x04])))
      [] (Raised OutOfBounds).
Proof.
  apply (call_outside_store no_key 0 0 (set_stack_pointer 4095 (boot [x22; x04]))
           (set_stack_pointer 4095 (boot [x22; x04])) 0x2204 eq_refl eq_refl eq_refl).
  - reflexivity.
  - right. vm_compute. reflexivity.
Defined.

(** ** Drawing (DXYN) *)

(** A call that fetches DXYN with the N sprite rows at the index register
    inside the store hands them and (V[X], V[Y]) to the framebuffer,
    writes 1 into V[F] if the framebuffer reports a collision and 0 if
    not, and emits the framebuffer's signal and then its own; the store
    and the other registers are unchanged. *)
Theorem draw_sets_flag keys font rand s s0 w sprite :
  poll keys s = mkResult s0 [] (Returned true) ->
  fetch s0 = Some w ->
  Z.land w 0xF000 = 0xD000 ->
  registers_ok s0 ->
  mem_get_range (memory s0) (index_register s0) (Z.land w 0x000F) = Some sprite ->
  let drawn := draw_sprite (video_memory s0) (reg s0 (X w)) (reg s0 (Y w)) sprite in
  run_once keys font rand s =
    mkResult
      (set_v (<[15%nat := if snd drawn then 1 else 0]> (v s0))
         (set_video_memory (fst drawn)
            (set_program_counter (program_counter s0 + 2) s0)))
      [video_changed; display_changed] (Returned tt).
Proof.
  intros Hp Hf Hw Hl Hm drawn.
  pose proof (X_range w) as Hx. pose proof (Y_range w) as Hy.
  rewrite (run_once_fetches _ _ _ _ _ _ Hp Hf), (execute_DXYN _ _ _ _ Hw).
  unfold op_DXYN. run_getv. run_getv. run_pure.
  erewrite bind_pure
    by (unfold load_range; cbn [memory index_register set_program_counter];
        rewrite Hm; reflexivity).
  erewrite bind_emits by reflexivity.
  rewrite !reg_set_program_counter. cbn [video_memory set_program_counter].
  fold drawn. clearbody drawn. destruct drawn as [vm' hit]. cbn [fst snd].
  destruct hit;
    (erewrite bind_pure by (apply setv_ok; [exact Hl | lia]); reflexivity).
Qed.

Lemma draw_sets_flag_witness :
  reg (final (run_once no_key 0 0 draw_state)) 0xF = 0
  /\ emitted (run_once no_key 0 0 draw_state) = [video_changed; display_changed].
Proof.
  pose proof (draw_sets_flag no_key 0 0 draw_state draw_state 0xD001 [xd0]
                eq_refl eq_refl eq_refl eq_refl eq_refl) as H.
  rewrite H. split; reflexivity.
Defined.

(** ** Which key is latched *)

Lemma pressed_key_none keys :
  pressed_key keys = None <-> forall k, 0 <= k < 16 -> keys k = false.
Proof.
  unfold pressed_key. split.
  - intros H k Hk. apply (find_none _ _ H). apply in_range. exact Hk.
  - intros H. destruct (find keys (range 16)) as [key |] eqn:E; [| reflexivity].
    apply find_some in E as (Hin & Hkey). apply in_range in Hin.
    rewrite (H key Hin) in Hkey. discriminate.
Qed.

(** While the latch is set on a register, only keys 0 to 15 are looked
    at.  If none of them is pressed the call does nothing; if some are,
    the lowest one is written into the target register before the call
    goes on to the fetch, whatever other keys are held. *)
Theorem lowest_pressed_key_is_latched keys font rand s t :
  waiting_for_keypress s = true ->
  keypress_target s = Some t -> 0 <= t < 16 ->
  registers_ok s ->
  ((forall k, 0 <= k < 16 -> keys k = false) ->
     run_once keys font rand s = mkResult s [] (Returned tt))
  /\ (forall k, 0 <= k < 16 -> keys k = true ->
        exists key,
          0 <= key <= k /\ keys key = true
          /\ (forall j, 0 <= j < key -> keys j = false)
          /\ run_once keys font rand s =
               fetch_execute keys font rand
                 (set_waiting_for_keypress false
                    (set_v (<[Z.to_nat t := key]> (v s)) s))).
Proof.
  intros Hw Ht Hrange Hl. split.
  - intros Hnone. apply pressed_key_none in Hnone. unfold run_once.
    rewrite (bind_pure _ _ _ _ _ (poll_idle keys s Hw Hnone)). reflexivity.
  - intros k Hk Hpressed.
    destruct (pressed_key keys) as [key |] eqn:E.
    + destruct (pressed_key_first keys key E) as (Hkey & Htrue & Hlow).
      exists key. split; [| split; [exact Htrue | split; [exact Hlow |]]].
      * destruct (Z.le_gt_cases key k) as [Hle | Hgt]; [lia |].
        rewrite (Hlow k) in Hpressed by lia. discriminate.
      * unfold run_once.
        rewrite (bind_pure _ _ _ _ _ (poll_latches keys s key t Hw E Ht Hrange Hl)).
        reflexivity.
    + exfalso. rewrite (proj1 (pressed_key_none keys) E k Hk) in Hpressed.
      discriminate.
Qed.

Lemma lowest_pressed_key_is_latched_witness :
  exists key,
    key = 5
    /\ run_once (fun k => 5 <=? k) 0 0 waiting_state =
         fetch_execute (fun k => 5 <=? k) 0 0
           (set_waiting_for_keypress false
              (set_v (<[3%nat := key]> (v waiting_state)) waiting_state)).
Proof.
  destruct (lowest_pressed_key_is_latched (fun k => 5 <=? k) 0 0 waiting_state 3
              eq_refl eq_refl ltac:(lia) eq_refl) as (_ & H).
  destruct (H 9 ltac:(lia) eq_refl) as (key & Hkey & Htrue & Hlow & Hrun).
  exists key. split; [| exact Hrun].
  apply Z.leb_le in Htrue.
  destruct (Z.le_gt_cases key 5) as [Hle | Hgt]; [lia |].
  pose proof (Hlow 5 ltac:(lia)) as E. cbv beta in E.
  change (5 <=? 5) with true in E. discriminate E.
Defined.
